(** * Question/answer memory log: index store, significance scorer,
      query engine and conversation analysis.

    Shallow embedding of the Python sources under [memory/]:
    [memory-log.py], [memory-load.py], [context-injection.py] and
    [subagent-summarize.py].

    Conventions of the embedding.
    - A Python [str] is a Rocq [string] holding its UTF-8 bytes; [lower],
      the regular-expression class [\w] and white space are the ASCII ones
      (letters, digits, underscore), and lengths and cuts count bytes.  On
      ASCII text ([ascii_text]) these are the operations of Python, and the
      statements that depend on letter case, character classes, lengths or
      cuts are stated for ASCII text.  Keyword literals that are not ASCII
      are kept as their UTF-8 bytes, on which the substring test agrees
      with the one on code points.
    - A Python [float] is a rational of [Q]: the scorer only adds and
      multiplies a handful of decimal constants, and every statement below
      keeps a margin far above rounding error.
    - The iteration order of a Python [set] is unspecified; it is an
      explicit parameter ([PySetOrder]) of the tokenizer.
    - [hashlib.md5] and the clock are parameters of the operations using
      them.
    - An uncaught exception, [sys.exit] and a normal return are the three
      constructors of [outcome]. *)

From Stdlib Require Import Ascii String QArith Qminmax Lqa Sorted.
From stdpp Require Import base list strings gmap pretty.

Local Open Scope string_scope.
Local Open Scope Z_scope.

(** [x < y] on rationals, as a boolean. *)
Definition Qltb (x y : Q) : bool :=
  match (x ?= y)%Q with Lt => true | _ => false end.

(** ** Python text primitives *)

Module Text.

Definition is_upper (c : ascii) : bool :=
  let n := nat_of_ascii c in ((65 <=? n) && (n <=? 90))%nat.

Definition lower_char (c : ascii) : ascii :=
  if is_upper c then ascii_of_nat (nat_of_ascii c + 32) else c.

(** [s.lower()] *)
Fixpoint lower (s : string) : string :=
  match s with
  | EmptyString => EmptyString
  | String c s' => String (lower_char c) (lower s')
  end.

(** the class [\w] *)
Definition is_word_char (c : ascii) : bool :=
  let n := nat_of_ascii c in
  (((48 <=? n) && (n <=? 57)) || ((65 <=? n) && (n <=? 90))
   || ((97 <=? n) && (n <=? 122)) || (n =? 95))%nat.

(** the characters [str.split()] splits on *)
Definition is_space (c : ascii) : bool :=
  let n := nat_of_ascii c in
  (((9 <=? n) && (n <=? 13)) || ((28 <=? n) && (n <=? 32)))%nat.

(** Maximal runs of characters satisfying [p], left to right.  [cur] is the
    run being read, in reverse. *)
Fixpoint runs_from (p : ascii -> bool) (cur : list ascii) (s : string)
  : list string :=
  let flush := match cur with
               | [] => []
               | _ => [string_of_list_ascii (rev cur)]
               end in
  match s with
  | EmptyString => flush
  | String c s' =>
      if p c then runs_from p (c :: cur) s'
      else flush ++ runs_from p [] s'
  end.

Definition runs (p : ascii -> bool) (s : string) : list string :=
  runs_from p [] s.

(** [re.findall(r'\b\w{2,}\b', s)]: the greedy match started at a word
    boundary takes a whole run of word characters, and a run of one
    character gives no match. *)
Definition findall_words (s : string) : list string :=
  filter (fun w => (2 <=? String.length w)%nat = true) (runs is_word_char s).

(** [s.split()] *)
Definition split_ws (s : string) : list string :=
  runs (fun c => negb (is_space c)) s.

(** [kw in s] *)
Fixpoint contains (kw s : string) : bool :=
  String.prefix kw s ||
  match s with
  | EmptyString => false
  | String _ s' => contains kw s'
  end.

(** [s[:n]] for [0 <= n] *)
Fixpoint take_str (n : nat) (s : string) : string :=
  match n, s with
  | S n', String c s' => String c (take_str n' s')
  | _, _ => EmptyString
  end.

(** Truth value of an optional string: [None] and [''] are false. *)
Definition truthy (a : option string) : bool :=
  match a with
  | None | Some EmptyString => false
  | Some _ => true
  end.

End Text.

(** ** Iteration order of a set of strings

    [list(set(tokens))] lists each distinct token once, in an order the
    language does not fix. *)

Class PySetOrder := {
  set_to_list : list string -> list string;
  set_to_list_perm : forall l, set_to_list l ≡ₚ remove_dups l
}.

(** One admissible order: first occurrences, as read. *)
Definition first_occurrence_order : PySetOrder :=
  {| set_to_list := remove_dups;
     set_to_list_perm := fun l => reflexivity (remove_dups l) |}.

(** ** Tokenizer and significance scorer ([memory-log.py]) *)

Section Scorer.
Context `{PySetOrder}.

(** [extract_tokens] *)
Definition extract_tokens (text : string) : list string :=
  take 20 (set_to_list (Text.findall_words (Text.lower text))).

Definition technical_keywords : list string :=
  ["code"; "function"; "api"; "database"; "design"; "architecture";
   "config"; "system"; "algorithm"; "implement"; "optimization"].

Definition important_keywords : list string :=
  ["important"; "重要"; "critical"; "must"; "必须"; "security"; "安全"].

Definition action_keywords : list string :=
  ["how to"; "怎样"; "如何"; "follow these"; "按照"; "step"].

Definition any_in (kws : list string) (s : string) : bool :=
  existsb (fun kw => Text.contains kw s) kws.

Definition any_in_either (kws : list string) (s t : string) : bool :=
  existsb (fun kw => Text.contains kw s || Text.contains kw t) kws.

Definition length_factor (a : string) : Q :=
  Qmin (inject_Z (Z.of_nat (String.length a)) / 500) 1 * (3 # 10).

Definition complexity_factor (q : string) : Q :=
  Qmin (inject_Z (Z.of_nat (length (extract_tokens q))) / 8) 1 * (2 # 10).

Definition technical_term (a : string) : Q :=
  if any_in technical_keywords (Text.lower a) then 25 # 100 else 0.

Definition important_term (q a : string) : Q :=
  if any_in_either important_keywords (Text.lower a) (Text.lower q)
  then 15 # 100 else 0.

Definition action_term (q a : string) : Q :=
  if any_in_either action_keywords (Text.lower a) (Text.lower q)
  then 1 # 10 else 0.

(** [score_significance] *)
Definition score_significance (q : string) (a : option string) : Q :=
  match a with
  | None => 0
  | Some a =>
      Qmin (0 + length_factor a + complexity_factor q + technical_term a
            + important_term q a + action_term q a) 1
  end.

End Scorer.

(** ** Outcomes of running a function *)

Inductive exn :=
| FileNotFoundError | JSONDecodeError | TypeError | ZeroDivisionError.

Inductive outcome (A : Type) :=
| Return (x : A)          (* normal return *)
| Raise (e : exn)         (* an exception leaves the function uncaught *)
| Exit (code : Z).        (* [sys.exit(code)] *)
Arguments Return {A} x.
Arguments Raise {A} e.
Arguments Exit {A} code.

Definition bind {A B} (m : outcome A) (k : A -> outcome B) : outcome B :=
  match m with
  | Return x => k x
  | Raise e => Raise e
  | Exit c => Exit c
  end.

Notation "x <- m ;; k" := (bind m (fun x => k))
  (at level 100, m at next level, right associativity).

(** A file holding a JSON document, as [open] and [json.load] see it. *)
Inductive file (A : Type) :=
| Absent                  (* no such file *)
| Malformed               (* present, not a JSON document *)
| Content (d : A).        (* present, decodes to [d] *)
Arguments Absent {A}.
Arguments Malformed {A}.
Arguments Content {A} d.

(** ** The index document (qa-index.json) *)

(** The [timestamp] of an entry is whatever JSON value the document holds:
    [add_qa] writes an ISO-8601 string, a hand-made document may hold a
    number. *)
Inductive json_time :=
| TsStr (s : string)
| TsNum (x : Q).

Record qa_entry := {
  qa_seq : Z;                         (* 'seq' *)
  qa_timestamp : json_time;           (* 'timestamp' *)
  qa_user : string;                   (* 'user' *)
  qa_q : string;                      (* 'q' *)
  qa_q_tokens : list string;          (* 'q_tokens' *)
  qa_q_hash : string;                 (* 'q_hash' *)
  qa_a : option string;               (* 'a' *)
  qa_a_significance : Q;              (* 'a_significance' *)
  qa_a_tokens : nat;                  (* 'a_tokens' *)
  qa_topic_tags : list string         (* 'topic_tags' *)
}.

Record session := {
  session_id : string;
  last_updated : string;
  qa_sequence : list qa_entry
}.

Record ref := { ref_session : string; ref_seq : Z }.

Record recency_ref := {
  rec_session : string; rec_seq : Z; rec_timestamp : json_time
}.

Record index := {
  by_topic : gmap string (list ref);
  by_recency : list recency_ref;
  by_semantic_hash : gmap string ref
}.

Record metadata := {
  total_qa_pairs : Z;
  stored_answers : Z;
  stored_answers_count : option Z;    (* read with [.get(.., 0)] *)
  empty_answers_count : option Z;     (* read with [.get(.., 0)] *)
  meta_last_updated : string          (* metadata 'last_updated' *)
}.

Record store := {
  store_metadata : metadata;          (* 'metadata' *)
  sessions : list session;            (* 'sessions' *)
  store_index : index                 (* 'index' *)
}.

(** ** Logger ([memory-log.py]) *)

(** [max(l, default=d)] *)
Definition max_default (d : Z) (l : list Z) : Z :=
  match l with
  | [] => d
  | x :: l' => fold_left Z.max l' x
  end.

(** The first session named [sid], as both loops over [data['sessions']]
    select it (they stop at the first hit). *)
Definition find_session (sid : string) (ss : list session) : option session :=
  List.find (fun s => bool_decide (session_id s = sid)) ss.

(** [get_next_seq]; [fs] is the state of the index file. *)
Definition get_next_seq (fs : file store) (sid : string) : Z :=
  match fs with
  | Content data =>
      match find_session sid (sessions data) with
      | Some s => max_default 0 (map qa_seq (qa_sequence s)) + 1
      | None => 1
      end
  | Absent | Malformed => 1
  end.

(** What the write of the document at the end of [add_qa] does. *)
Inductive write_result :=
| WriteOk                 (* the document replaces the file *)
| OpenFails               (* IOError on open: the file is untouched *)
| DumpFails.              (* IOError while dumping: a partial document *)

(** Lines printed by [add_qa]. *)
Inductive message :=
| MsgIndexNotFound
| MsgSessionNotFound (sid : string)
| MsgAdded (seq : Z) (sid : string) (significance : Q)
           (topics : option (list string))
| MsgWriteError.

(** What a run of [add_qa] leaves behind: its result, the in-memory
    document [data] when one was loaded, the index file, the output. *)
Record run := {
  result : outcome bool;
  memory : option store;
  file_after : file store;
  printed : list message
}.

Section Logger.
Context `{PySetOrder}.
Variable hash_text : string -> string.   (* MD5, hexadecimal *)

(** [max(0.0, min(1.0, significance))] *)
Definition clamp (x : Q) : Q := Qmax 0 (Qmin 1 x).

(** The significance [add_qa] stores. *)
Definition stored_significance (q : string) (a : option string)
    (significance : option Q) : Q :=
  clamp (match significance with
         | None => score_significance q a
         | Some s => s
         end).

(** The dictionary [qa_entry] built by [add_qa]. *)
Definition new_entry (next_seq : Z) (now user q : string) (a : option string)
    (topic_tags : option (list string)) (significance : Q) : qa_entry :=
  {| qa_seq := next_seq;
     qa_timestamp := TsStr now;
     qa_user := user;
     qa_q := q;
     qa_q_tokens := extract_tokens q;
     qa_q_hash := hash_text q;
     qa_a := a;
     qa_a_significance := significance;
     qa_a_tokens := match a with
                    | Some s => if Text.truthy a
                                then length (Text.split_ws s) else 0%nat
                    | None => 0%nat
                    end;
     qa_topic_tags := default [] topic_tags |}.

(** The loop "find or create session": the entry goes to the first
    session named [sid]; [None] when there is none. *)
Fixpoint append_to_session (sid now : string) (e : qa_entry)
    (ss : list session) : option (list session) :=
  match ss with
  | [] => None
  | s :: ss' =>
      if bool_decide (session_id s = sid)
      then Some ({| session_id := session_id s;
                   last_updated := now;
                   qa_sequence := qa_sequence s ++ [e] |} :: ss')
      else cons s <$> append_to_session sid now e ss'
  end.

(** [by_topic]: one reference appended under each tag, in order. *)
Definition add_topic_refs (r : ref) (tags : list string)
    (m : gmap string (list ref)) : gmap string (list ref) :=
  fold_left (fun (m : gmap string (list ref)) tag =>
               <[tag := (default [] (m !! tag) ++ [r])%list]> m) tags m.

Definition update_index (sid : string) (next_seq : Z) (now q : string)
    (topic_tags : option (list string)) (ix : index) : index :=
  let r := {| ref_session := sid; ref_seq := next_seq |} in
  {| by_topic := add_topic_refs r (default [] topic_tags) (by_topic ix);
     by_recency := {| rec_session := sid; rec_seq := next_seq;
                      rec_timestamp := TsStr now |} :: by_recency ix;
     by_semantic_hash := <[hash_text q := r]> (by_semantic_hash ix) |}.

Definition update_metadata (now : string) (a : option string)
    (m : metadata) : metadata :=
  if Text.truthy a then
    {| total_qa_pairs := total_qa_pairs m + 1;
       stored_answers := stored_answers m + 1;
       stored_answers_count := Some (default 0 (stored_answers_count m) + 1);
       empty_answers_count := empty_answers_count m;
       meta_last_updated := now |}
  else
    {| total_qa_pairs := total_qa_pairs m + 1;
       stored_answers := stored_answers m;
       stored_answers_count := stored_answers_count m;
       empty_answers_count := Some (default 0 (empty_answers_count m) + 1);
       meta_last_updated := now |}.

(** [add_qa].  [now] is the clock reading, [w] the fate of the final
    write, [fs] the index file before the call. *)
Definition add_qa (now : string) (w : write_result) (fs : file store)
    (sid user q : string) (a : option string)
    (topic_tags : option (list string)) (significance : option Q) : run :=
  let significance := stored_significance q a significance in
  match fs with
  | Absent =>
      {| result := Exit 1; memory := None; file_after := fs;
         printed := [MsgIndexNotFound] |}
  | Malformed =>
      {| result := Raise JSONDecodeError; memory := None; file_after := fs;
         printed := [] |}
  | Content data =>
      let next_seq := get_next_seq fs sid in
      let e := new_entry next_seq now user q a topic_tags significance in
      match append_to_session sid now e (sessions data) with
      | None =>
          {| result := Return false; memory := Some data; file_after := fs;
             printed := [MsgSessionNotFound sid] |}
      | Some ss =>
          let data' :=
            {| store_metadata := update_metadata now a (store_metadata data);
               sessions := ss;
               store_index := update_index sid next_seq now q topic_tags
                                (store_index data) |} in
          match w with
          | WriteOk =>
              {| result := Return true; memory := Some data';
                 file_after := Content data';
                 printed := [MsgAdded next_seq sid significance topic_tags] |}
          | OpenFails =>
              {| result := Return false; memory := Some data';
                 file_after := fs; printed := [MsgWriteError] |}
          | DumpFails =>
              {| result := Return false; memory := Some data';
                 file_after := Malformed; printed := [MsgWriteError] |}
          end
      end
  end.

End Logger.

(** ** Python list primitives used by the loader *)

(** [l[start:]] *)
Definition slice_from {A} (start : Z) (l : list A) : list A :=
  let n := Z.of_nat (length l) in
  let i := if start <? 0 then Z.max 0 (n + start) else Z.min start n in
  drop (Z.to_nat i) l.

(** [l[:stop]] *)
Definition slice_to {A} (stop : Z) (l : list A) : list A :=
  let n := Z.of_nat (length l) in
  let i := if stop <? 0 then Z.max 0 (n + stop) else Z.min stop n in
  take (Z.to_nat i) l.

(** [list.sort(key=...)] on precomputed keys: a stable insertion sort.
    [lt] is the order [<] of the keys; an element moves in front of the
    sorted suffix and stops before the first element that is not strictly
    smaller, so equal keys keep their order. *)
Section StableSort.
Context {A K : Type} (lt : K -> K -> bool) (key : A -> K).

Fixpoint insert_by (x : A) (l : list A) : list A :=
  match l with
  | [] => [x]
  | y :: l' =>
      if lt (key y) (key x) then y :: insert_by x l' else x :: y :: l'
  end.

Definition sort_by (l : list A) : list A := foldr insert_by [] l.

(** [x] may stand before [y] in a sorted list: the key of [y] is not
    smaller than that of [x]. *)
Definition not_after (x y : A) : Prop := lt (key y) (key x) = false.
End StableSort.

(** ** Loader ([memory-load.py]) *)

(** One dictionary of the list returned by [find_relevant_pairs]. *)
Record hit := {
  hit_score : Q;                      (* 'score' *)
  hit_session : string;               (* 'session' *)
  hit_seq : Z;                        (* 'seq' *)
  hit_q : string;                     (* 'q' *)
  hit_a : option string;              (* 'a' *)
  hit_significance : Q;               (* 'significance' *)
  hit_timestamp : json_time           (* 'timestamp' *)
}.

(** One dictionary of the list returned by [get_recent_context]. *)
Record recent_pair := {
  rp_seq : Z; rp_q : string; rp_a : option string; rp_timestamp : json_time
}.

(** [<] on the pairs [(-score, -timestamp)]. *)
Definition key_lt (k1 k2 : Q * Q) : bool :=
  match (k1.1 ?= k2.1)%Q with
  | Lt => true
  | Eq => match (k1.2 ?= k2.2)%Q with Lt => true | _ => false end
  | Gt => false
  end.

Section Loader.
Context `{PySetOrder}.

(** [if session_id and session['session_id'] != session_id: continue] *)
Definition session_skipped (sid : option string) (s : session) : bool :=
  match sid with
  | Some id => Text.truthy (Some id) && negb (bool_decide (session_id s = id))
  | None => false
  end.

(** [if qa['a'] and qa['a_significance'] < min_significance: continue] *)
Definition low_significance (min_significance : Q) (qa : qa_entry) : bool :=
  Text.truthy (qa_a qa) &&
  Qltb (qa_a_significance qa) min_significance.

(** [len(query_tokens & qa_tokens)] *)
Definition overlap (query_tokens qa_tokens : list string) : nat :=
  length (filter (fun t => t ∈ qa_tokens) (remove_dups query_tokens)).

Definition score_of (sid : option string) (s : session)
    (query_tokens : list string) (qa : qa_entry) : Q :=
  let score := inject_Z (Z.of_nat (overlap query_tokens (qa_q_tokens qa))) in
  if bool_decide (Some (session_id s) = sid) then score * (15 # 10)
  else score.

Definition make_hit (sid : option string) (s : session)
    (query_tokens : list string) (qa : qa_entry) : hit :=
  {| hit_score := score_of sid s query_tokens qa;
     hit_session := session_id s;
     hit_seq := qa_seq qa;
     hit_q := qa_q qa;
     hit_a := qa_a qa;
     hit_significance := qa_a_significance qa;
     hit_timestamp := qa_timestamp qa |}.

(** The list [relevant] when the two loops end. *)
Definition relevant_of (data : store) (query_tokens : list string)
    (sid : option string) (min_significance : Q) : list hit :=
  flat_map
    (fun s =>
       if session_skipped sid s then []
       else map (make_hit sid s query_tokens)
                (filter (fun qa => low_significance min_significance qa = false)
                        (qa_sequence s)))
    (sessions data).

(** [lambda x: (-x['score'], -x['timestamp'])]: unary minus is undefined
    on a string. *)
Definition sort_key (x : hit) : outcome (Q * Q) :=
  match hit_timestamp x with
  | TsNum t => Return (- hit_score x, - t)%Q
  | TsStr _ => Raise TypeError
  end.

(** The keys of all elements, computed before any element moves. *)
Fixpoint keyed (l : list hit) : outcome (list (hit * (Q * Q))) :=
  match l with
  | [] => Return []
  | x :: l' =>
      k <- sort_key x ;;
      r <- keyed l' ;;
      Return ((x, k) :: r)
  end.

(** [find_relevant_pairs] *)
Definition find_relevant_pairs (data : store) (query : string)
    (sid : option string) (limit : Z) (min_significance : Q)
  : outcome (list hit) :=
  let query_tokens := remove_dups (extract_tokens query) in
  let relevant := relevant_of data query_tokens sid min_significance in
  ks <- keyed relevant ;;
  Return (slice_to limit (map fst (sort_by key_lt snd ks))).

(** [qa_sequence[-window:] if len(qa_sequence) >= window else qa_sequence] *)
Definition recent_window {A} (window : Z) (qa_sequence : list A) : list A :=
  if window <=? Z.of_nat (length qa_sequence)
  then slice_from (- window) qa_sequence
  else qa_sequence.

Definition recent_pair_of (qa : qa_entry) : recent_pair :=
  {| rp_seq := qa_seq qa; rp_q := qa_q qa; rp_a := qa_a qa;
     rp_timestamp := qa_timestamp qa |}.

(** [get_recent_context] *)
Definition get_recent_context (data : store) (sid : string) (window : Z)
  : list recent_pair :=
  match find_session sid (sessions data) with
  | Some s => map recent_pair_of (recent_window window (qa_sequence s))
  | None => []
  end.

End Loader.

(** The numeric timestamp of a hit (0 when it is a string). *)
Definition time_of (h : hit) : Q :=
  match hit_timestamp h with
  | TsNum t => t
  | TsStr _ => 0
  end.

(** [x] ranks before [y]: a higher score, or the same score and a
    timestamp at least as recent. *)
Definition ranked (x y : hit) : Prop :=
  (hit_score y < hit_score x)%Q ∨
  (hit_score x == hit_score y ∧ time_of y <= time_of x)%Q.

(** ** Context builder ([context-injection.py]) *)

Definition newline : string := String (ascii_of_nat 10) EmptyString.

(** The lines added for one entry of [recent]. *)
Definition entry_lines (qa : qa_entry) : list string :=
  ["**[" ++ pretty (qa_seq qa) ++ "]** " ++ qa_q qa] ++
  (match qa_a qa with
   | Some answer =>
       if Text.truthy (qa_a qa) then
         ["> " ++ (if (200 <? String.length answer)%nat
                   then Text.take_str 200 answer ++ "..." else answer)]
       else []
   | None => []
   end) ++
  [""].

(** The lines added for one session named [session_id]. *)
Definition session_lines (window : Z) (s : session) : list string :=
  let recent := recent_window window (qa_sequence s) in
  match recent with
  | [] => []
  | _ => ["## Recent Conversation Context"; ""] ++ flat_map entry_lines recent
  end.

(** [load_recent_qa_context]; [index_file] is the state of the file. *)
Definition load_recent_qa_context (index_file : file store) (sid : string)
    (window : Z) : outcome string :=
  match index_file with
  | Absent => Return ""
  | Malformed => Raise JSONDecodeError
  | Content data =>
      Return (String.concat newline
                (flat_map (fun s => if bool_decide (session_id s = sid)
                                    then session_lines window s else [])
                          (sessions data)))
  end.

(** ** Summarizer ([subagent-summarize.py]) *)

(** A record of [metadata['questions']]; the analysis reads two keys. *)
Record meta_question := {
  mq_seq : Z;                         (* q['seq'] *)
  mq_topics : option (list string)    (* q.get('topics', []) *)
}.

(** A record of [metadata['answers']]. *)
Record meta_answer := {
  ma_seq : Z;                         (* a['seq'] *)
  ma_q : string;                      (* a['q'] *)
  ma_significance : option Q;         (* a.get('significance', 0) *)
  ma_a_tokens : nat                   (* a['a_tokens'] *)
}.

(** The aggregate metadata document [*-qa.json] as [save_conversations]
    writes it: the keys [questions] and [answers] hold lists of records;
    [None] is an absent key.  Documents in which one of these keys holds
    something else than a list are not represented. *)
Record snapshot_meta := {
  cutoff_time : option string;
  meta_questions : option (list meta_question);
  meta_answers : option (list meta_answer)
}.

(** An extraction directory: the files matching [*-qa.json] in the order
    [glob] yields them, and the [*.txt] files of the two subdirectories by
    name ([None]: no such subdirectory). *)
Record extraction_dir := {
  metadata_files : list (file snapshot_meta);
  questions_dir : option (gmap string string);
  answers_dir : option (gmap string string)
}.

(** The dictionary returned by [read_extracted_files]: either the single
    key ['error'], or the data read. *)
Inductive extracted :=
| ExtractedError (msg : string)
| Extracted (md : snapshot_meta) (questions answers : gmap string string).

Record high_answer := {
  ha_seq : Z; ha_q_preview : string; ha_significance : Q; ha_tokens : nat
}.

Record low_answer := {
  la_seq : Z; la_q_preview : string; la_significance : Q
}.

Record analysis := {
  period : option string;
  total_questions : nat;
  total_answers : nat;
  topics : list (string * Z);         (* a dict, in insertion order *)
  high_significance_answers : list high_answer;
  low_significance_answers : list low_answer;
  missing_answers : list Z;
  patterns : list string
}.

(** The dictionary returned by [analyze_conversations]. *)
Inductive analyzed :=
| AnalysisError (msg : string)
| Analysis (an : analysis).

(** [open] then [json.load] *)
Definition load_json {A} (f : file A) : outcome A :=
  match f with
  | Absent => Raise FileNotFoundError
  | Malformed => Raise JSONDecodeError
  | Content d => Return d
  end.

(** [read_extracted_files]; [path] is the directory name, [dir] what is
    there ([None]: nothing). *)
Definition read_extracted_files (path : string) (dir : option extraction_dir)
  : outcome extracted :=
  match dir with
  | None => Return (ExtractedError ("Directory not found: " ++ path))
  | Some d =>
      match metadata_files d with
      | [] => Return (ExtractedError ("No metadata file found in " ++ path))
      | f :: _ =>
          md <- load_json f ;;
          Return (Extracted md (default ∅ (questions_dir d))
                               (default ∅ (answers_dir d)))
      end
  end.

(** [topics[topic] = topics.get(topic, 0) + 1] on an insertion-ordered
    dictionary. *)
Fixpoint count_topic (topic : string) (topics : list (string * Z))
  : list (string * Z) :=
  match topics with
  | [] => [(topic, 1)]
  | (t, n) :: rest =>
      if bool_decide (t = topic) then (t, n + 1) :: rest
      else (t, n) :: count_topic topic rest
  end.

Definition count_topics (qs : list meta_question) : list (string * Z) :=
  fold_left (fun acc q => fold_left (fun acc t => count_topic t acc)
                                    (default [] (mq_topics q)) acc)
            qs [].

Definition sig_of (a : meta_answer) : Q := default 0%Q (ma_significance a).

Definition is_high (a : meta_answer) : bool := negb (Qltb (sig_of a) (85 # 100)).

Definition is_low (a : meta_answer) : bool :=
  negb (is_high a) && Qltb (sig_of a) (5 # 10).

Definition high_of (a : meta_answer) : high_answer :=
  {| ha_seq := ma_seq a; ha_q_preview := ma_q a;
     ha_significance := sig_of a; ha_tokens := ma_a_tokens a |}.

Definition low_of (a : meta_answer) : low_answer :=
  {| la_seq := ma_seq a; la_q_preview := ma_q a; la_significance := sig_of a |}.

(** [sorted(list(q_seqs - a_seqs))] *)
Definition missing_of (qs : list meta_question) (ans : list meta_answer)
  : list Z :=
  sort_by Z.ltb id
    (remove_dups (filter (fun n => n ∉ map ma_seq ans) (map mq_seq qs))).

(** [sum(a.get('significance', 0) for a in answers)] *)
Definition sum_sig (ans : list meta_answer) : Q :=
  fold_left (fun acc a => acc + sig_of a)%Q ans 0%Q.

(** The quality patterns; the division raises on an empty list. *)
Definition quality_patterns (total_answers : nat) (ans : list meta_answer)
  : outcome (list string) :=
  if (5 <? total_answers)%nat then
    match ans with
    | [] => Raise ZeroDivisionError
    | _ =>
        let avg_significance :=
          (sum_sig ans / inject_Z (Z.of_nat (length ans)))%Q in
        Return ((if Qltb (8 # 10) avg_significance
                 then ["High quality conversation period"] else []) ++
                (if Qltb avg_significance (5 # 10)
                 then ["Low quality/off-topic conversation"] else []))%list
    end
  else Return [].

(** [max(topics, key=topics.get)]: the first key holding the largest
    count. *)
Definition top_topic (topics : list (string * Z)) : option string :=
  match topics with
  | [] => None
  | first :: rest =>
      Some (fold_left (fun best kv => if best.2 <? kv.2 then kv else best)
                      rest first).1
  end.

(** [analyze_conversations] *)
Definition analyze_conversations (data : extracted) : outcome analyzed :=
  match data with
  | ExtractedError msg => Return (AnalysisError msg)
  | Extracted md questions answers =>
      let total_answers := size answers in
      let topics := count_topics (default [] (meta_questions md)) in
      let ans := default [] (meta_answers md) in
      quality <- quality_patterns total_answers ans ;;
      Return (Analysis
        {| period := cutoff_time md;
           total_questions := size questions;
           total_answers := total_answers;
           topics := topics;
           high_significance_answers := map high_of (filter is_high ans);
           low_significance_answers := map low_of (filter is_low ans);
           missing_answers :=
             match meta_questions md with
             | Some qs => missing_of qs ans
             | None => []
             end;
           patterns :=
             (quality ++
              match top_topic topics with
              | Some t => [String.append "Focus topic: " t]
              | None => []
              end)%list |})
  end.

Section Report.
Variable fmt2f : Q -> string.       (* the format [:.2f] of a float *)

(** The f-string rendering of an optional string. *)
Definition str_of_option (o : option string) : string := default "None" o.

Definition high_line (ans : high_answer) : string :=
  newline ++ "   [" ++ pretty (ha_seq ans) ++ "] " ++
  Text.take_str 60 (ha_q_preview ans) ++ "... (sig: " ++
  fmt2f (ha_significance ans) ++ ")".

Definition topic_line (kv : string * Z) : string :=
  newline ++ "   " ++ kv.1 ++ ": " ++ pretty kv.2 ++ " question(s)".

(** [generate_report] *)
Definition generate_report (a : analyzed) : string :=
  match a with
  | AnalysisError msg => "❌ Error: " ++ msg
  | Analysis an =>
      newline ++ "📊 CONVERSATION ANALYSIS REPORT" ++
      newline ++ "================================" ++
      newline ++
      newline ++ "⏰ Period: " ++ str_of_option (period an) ++
      newline ++
      newline ++ "📈 Statistics:" ++
      newline ++ "   Questions: " ++ pretty (total_questions an) ++
      newline ++ "   Answers: " ++ pretty (total_answers an) ++
      newline ++ "   Topics: " ++ pretty (length (topics an)) ++
      newline ++
      newline ++ "🏆 High Quality Answers (sig > 0.85):" ++
      newline ++
      String.concat "" (map high_line (take 5 (high_significance_answers an))) ++
      match topics an with
      | [] => ""
      | _ => newline ++ newline ++ "📌 Topics Discussed:" ++
             String.concat ""
               (map topic_line
                  (take 5 (sort_by Z.ltb (fun kv : string * Z => - kv.2)
                                   (topics an))))
      end ++
      match missing_answers an with
      | [] => ""
      | _ => newline ++ newline ++ "⚠️  Questions without answers: " ++
             pretty (length (missing_answers an)) ++
             String.concat ""
               (map (fun seq : Z => newline ++ "   [Seq " ++ pretty seq ++ "]")
                    (take 3 (missing_answers an)))
      end ++
      match patterns an with
      | [] => ""
      | _ => newline ++ newline ++ "🔍 Patterns:" ++
             String.concat ""
               (map (fun pattern => newline ++ "   - " ++ pattern)
                    (patterns an))
      end ++
      newline ++ newline ++
      "✅ Analysis complete. Ready for memory system update."
  end.

(** What a run of the script leaves behind: how it ended, the report it
    printed if it got that far, and [analysis.json] if written. *)
Record main_run := {
  main_result : outcome unit;
  main_report : option string;
  analysis_file : option analyzed
}.

(** The script body: read, analyze, report, print, save.  The analysis
    file is created inside the extraction directory, which must exist. *)
Definition summarize_main (path : string) (dir : option extraction_dir)
  : main_run :=
  match data <- read_extracted_files path dir ;; analyze_conversations data with
  | Return an =>
      let report := generate_report an in
      match dir with
      | Some _ =>
          {| main_result := Return tt; main_report := Some report;
             analysis_file := Some an |}
      | None =>
          {| main_result := Raise FileNotFoundError;
             main_report := Some report; analysis_file := None |}
      end
  | Raise e =>
      {| main_result := Raise e; main_report := None; analysis_file := None |}
  | Exit c =>
      {| main_result := Exit c; main_report := None; analysis_file := None |}
  end.

End Report.

Arguments add_qa : simpl never.
Arguments get_next_seq : simpl never.

(** ** Invariants of the index document *)

Fixpoint strictly_increasing (l : list Z) : bool :=
  match l with
  | x :: (y :: _) as rest => (x <? y) && strictly_increasing rest
  | _ => true
  end.

(** Sequence numbers that start at 1 and increase strictly. *)
Definition seqs_ok (l : list Z) : bool :=
  match l with
  | [] => true
  | x :: _ => (x =? 1) && strictly_increasing l
  end.

Definition session_seqs (s : session) : list Z := map qa_seq (qa_sequence s).

Definition store_seqs_ok (data : store) : Prop :=
  Forall (fun s => seqs_ok (session_seqs s) = true) (sessions data).

(** The pair (sid, seq) names an entry of a session of the document, found
    the way [print_topic_summary] looks it up. *)
Definition resolves (data : store) (sid : string) (seq : Z) : bool :=
  existsb (fun s => bool_decide (session_id s = sid) &&
                    existsb (fun e => qa_seq e =? seq) (qa_sequence s))
          (sessions data).

Definition index_consistent (data : store) : Prop :=
  let ix := store_index data in
  map_Forall (fun _ refs =>
                Forall (fun r => resolves data (ref_session r) (ref_seq r) = true)
                       refs) (by_topic ix) ∧
  Forall (fun r => resolves data (rec_session r) (rec_seq r) = true)
         (by_recency ix) ∧
  map_Forall (fun _ r => resolves data (ref_session r) (ref_seq r) = true)
             (by_semantic_hash ix).

Section Reachability.
Context `{PySetOrder}.
Variable hash_text : string -> string.

(** One successful append: the call returns [True] and the file holds
    the new document. *)
Definition appends_to (data data' : store) : Prop :=
  ∃ now sid user q a topic_tags significance,
    let r := add_qa hash_text now WriteOk (Content data) sid user q a
               topic_tags significance in
    result r = Return true ∧ file_after r = Content data'.

(** Any number of successful appends. *)
Definition reachable : store -> store -> Prop := rtc appends_to.
End Reachability.

(** ** Sample data *)

Definition example_q : string := "how to optimize the database architecture".

(** 600 characters holding both words. *)
Definition example_a : string :=
  "architecture important" ++ string_of_list_ascii (repeat "x"%char 578).

Definition empty_index : index :=
  {| by_topic := ∅; by_recency := []; by_semantic_hash := ∅ |}.

Definition zero_metadata : metadata :=
  {| total_qa_pairs := 0; stored_answers := 0; stored_answers_count := None;
     empty_answers_count := None; meta_last_updated := "" |}.

(** A document with the single, empty session "s1". *)
Definition fresh_store : store :=
  {| store_metadata := zero_metadata;
     sessions := [{| session_id := "s1"; last_updated := "";
                     qa_sequence := [] |}];
     store_index := empty_index |}.

(** A stand-in for MD5 in the examples. *)
Definition sample_hash (s : string) : string := "h:" ++ s.

(** The document after logging the worked example into [fresh_store]. *)
Definition logged_once : store :=
  match file_after
          (add_qa (H:=first_occurrence_order) sample_hash
             "2024-01-01T00:00:00Z" WriteOk (Content fresh_store) "s1" "alice"
             example_q (Some example_a) (Some ["db"]) None) with
  | Content d => d
  | _ => fresh_store
  end.

(** A hand-made document with numeric timestamps: two sessions, one
    answer of low significance and one entry without answer. *)
Definition numeric_entry (seq : Z) (t : Q) (q : string) (tokens : list string)
    (a : option string) (sig : Q) : qa_entry :=
  {| qa_seq := seq; qa_timestamp := TsNum t; qa_user := "alice"; qa_q := q;
     qa_q_tokens := tokens; qa_q_hash := sample_hash q; qa_a := a;
     qa_a_significance := sig; qa_a_tokens := 2; qa_topic_tags := [] |}.

Definition numeric_store : store :=
  {| store_metadata := zero_metadata;
     sessions :=
       [{| session_id := "s1"; last_updated := "";
           qa_sequence :=
             [numeric_entry 1 100 "database design" ["database"; "design"]
                (Some "use indexes") (9 # 10);
              numeric_entry 2 200 "database tuning" ["database"; "tuning"]
                (Some "not sure") (2 # 10);
              numeric_entry 3 300 "database backup" ["database"; "backup"]
                None 0] |};
        {| session_id := "s2"; last_updated := "";
           qa_sequence :=
             [numeric_entry 1 150 "design database schema"
                ["design"; "database"; "schema"]
                (Some "normalize first") (7 # 10)] |}];
     store_index := empty_index |}.

(** Snapshot metadata listing six answers of significance 0.9. *)
Definition sample_answer (seq : Z) : meta_answer :=
  {| ma_seq := seq; ma_q := "how to tune the database";
     ma_significance := Some (9 # 10); ma_a_tokens := 12 |}.

Definition six_answers_meta : snapshot_meta :=
  {| cutoff_time := Some "2024-01-01T00:00:00Z";
     meta_questions :=
       Some (map (fun n => {| mq_seq := n; mq_topics := Some ["db"] |})
                 [1; 2; 3; 4; 5; 6]);
     meta_answers := Some (map sample_answer [1; 2; 3; 4; 5; 6]) |}.

(** The six answer files of that snapshot. *)
Definition six_answer_files : gmap string string :=
  list_to_map
    (map (fun n : Z => ("2024-01-01T00-00-00-" ++ pretty n ++ ".txt", "text"))
         [1; 2; 3; 4; 5; 6]).

(** The snapshot with its [answers] subdirectory, and without it. *)
Definition full_snapshot : extraction_dir :=
  {| metadata_files := [Content six_answers_meta];
     questions_dir := Some ∅;
     answers_dir := Some six_answer_files |}.

Definition snapshot_without_answer_files : extraction_dir :=
  {| metadata_files := [Content six_answers_meta];
     questions_dir := None;
     answers_dir := None |}.

(** A snapshot whose metadata file does not decode. *)
Definition snapshot_with_malformed_metadata : extraction_dir :=
  {| metadata_files := [Malformed];
     questions_dir := Some ∅;
     answers_dir := Some ∅ |}.

(** ** More text primitives *)

(** [s.split(c)] for a one-character separator [c]. *)
Fixpoint split_on (c : ascii) (s : string) : list string :=
  match s with
  | EmptyString => [EmptyString]
  | String d s' =>
      if Ascii.eqb d c then EmptyString :: split_on c s'
      else match split_on c s' with
           | h :: t => String d h :: t
           | [] => [String d EmptyString]
           end
  end.

(** [s.replace(c, new)] for a one-character pattern [c]. *)
Fixpoint replace_char (c : ascii) (new : string) (s : string) : string :=
  match s with
  | EmptyString => EmptyString
  | String d s' =>
      if Ascii.eqb d c then new ++ replace_char c new s'
      else String d (replace_char c new s')
  end.

(** The list without its longest prefix of elements satisfying [p]. *)
Fixpoint drop_while {A} (p : A -> bool) (l : list A) : list A :=
  match l with
  | x :: l' => if p x then drop_while p l' else l
  | [] => []
  end.

(** [s.strip()] *)
Definition strip (s : string) : string :=
  let l := drop_while Text.is_space (list_ascii_of_string s) in
  string_of_list_ascii (rev (drop_while Text.is_space (rev l))).

(** [line.strip() == ''] *)
Definition is_blank (line : string) : bool :=
  bool_decide (strip line = EmptyString).

(** ** Loader, continued ([memory-load.py]) *)

(** [load_index]: both read failures print an error and exit with 1. *)
Definition load_index (fs : file store) : outcome store :=
  match fs with
  | Content data => Return data
  | Absent | Malformed => Exit 1
  end.

(** The lines [format_context] adds for the pairs.  The [else] branch
    calls [lines.append()] without argument, which raises [TypeError]. *)
Fixpoint format_pairs (include_answers : bool) (qa_pairs : list recent_pair)
  : outcome (list string) :=
  match qa_pairs with
  | [] => Return []
  | p :: rest =>
      let head := "[" ++ pretty (rp_seq p) ++ "] Q: " ++ rp_q p in
      match rp_a p with
      | Some answer =>
          if include_answers && Text.truthy (rp_a p) then
            let answer :=
              if (300 <? String.length answer)%nat
              then Text.take_str 300 answer ++ "...[truncated]"
              else answer in
            more <- format_pairs include_answers rest ;;
            Return (head :: ("    A: " ++ answer ++ newline) :: more)
          else Raise TypeError
      | None => Raise TypeError
      end
  end.

(** [format_context] *)
Definition format_context (qa_pairs : list recent_pair)
    (include_answers : bool) : outcome string :=
  lines <- format_pairs include_answers qa_pairs ;;
  Return (String.concat newline (("=== Recent Context ===" ++ newline) :: lines)).

(** The [recent] command of the script: load, select, format. *)
Definition recent_command (fs : file store) (sid : string) (window : Z)
  : outcome string :=
  data <- load_index fs ;;
  format_context (get_recent_context data sid window) true.

Section TopicSummary.
Variable fmt2f : Q -> string.       (* the format [:.2f] of a float *)

(** The lines printed for the entry found for a reference. *)
Definition topic_entry_lines (seq : Z) (qa : qa_entry) : list string :=
  ["[" ++ pretty seq ++ "] Q: " ++ Text.take_str 80 (qa_q qa)] ++
  (if Text.truthy (qa_a qa)
   then ["    Significance: " ++ fmt2f (qa_a_significance qa)] else []) ++
  [""].

(** The lines printed for one reference: in every session of that name,
    the first entry with that sequence number. *)
Definition topic_ref_lines (data : store) (r : ref) : list string :=
  flat_map
    (fun s =>
       if bool_decide (session_id s = ref_session r) then
         match List.find (fun qa => qa_seq qa =? ref_seq r) (qa_sequence s) with
         | Some qa => topic_entry_lines (ref_seq r) qa
         | None => []
         end
       else [])
    (sessions data).

(** [print_topic_summary]: the lines printed, one per [print]. *)
Definition print_topic_summary (data : store) (topic : string) : list string :=
  match by_topic (store_index data) !! topic with
  | None => ["Topic '" ++ topic ++ "' not found"]
  | Some refs =>
      [newline ++ "📌 Topic: " ++ topic;
       "   References: " ++ pretty (length refs) ++ newline] ++
      flat_map (topic_ref_lines data) refs
  end.

End TopicSummary.

(** ** Context builder, continued ([context-injection.py]) *)

Section ContextBuilder.
Variable fmt2f : Q -> string.       (* the format [:.2f] of a float *)

Definition key_answer_line (ans : high_answer) : string :=
  "- [" ++ pretty (ha_seq ans) ++ "] " ++
  Text.take_str 60 (ha_q_preview ans) ++ "... (sig: " ++
  fmt2f (ha_significance ans) ++ ")".

(** The lines of [load_analysis_context] for a decoded analysis file.  A
    file holding only the key ['error'] has none of the keys read, so
    every [.get] gives its default. *)
Definition analysis_lines (a : analyzed) : list string :=
  match a with
  | AnalysisError _ =>
      ["## Conversation Analysis (from last extraction)"; "";
       "ðŸ“Š Period: unknown"; "- Questions: 0"; "- Answers: 0"; ""]
  | Analysis an =>
      ["## Conversation Analysis (from last extraction)"; "";
       "ðŸ“Š Period: " ++ str_of_option (period an);
       "- Questions: " ++ pretty (total_questions an);
       "- Answers: " ++ pretty (total_answers an)] ++
      match topics an with
      | [] => []
      | _ => (newline ++ "ðŸ“Œ Main Topics:") ::
             map (fun kv : string * Z => "- " ++ kv.1 ++ ": " ++ pretty kv.2 ++ "x")
                 (take 3 (sort_by Z.ltb (fun kv : string * Z => - kv.2)
                                  (topics an)))
      end ++
      match high_significance_answers an with
      | [] => []
      | _ => (newline ++ "â­ Key Answers:") ::
             map key_answer_line (take 2 (high_significance_answers an))
      end ++
      match patterns an with
      | [] => []
      | _ => (newline ++ "ðŸ” Patterns:") ::
             map (fun pattern => "- " ++ pattern) (patterns an)
      end ++
      [""]
  end.

(** [load_analysis_context]; a missing or malformed file gives no text. *)
Definition load_analysis_context (analysis_file : file analyzed) : string :=
  match analysis_file with
  | Absent | Malformed => ""
  | Content a => String.concat newline (analysis_lines a)
  end.

(** [build_full_context]; [timestamp] is the clock reading with its ['Z'],
    [analysis_file] is [None] when no path is given. *)
Definition build_full_context (timestamp : string) (index_file : file store)
    (sid : string) (analysis_file : option (file analyzed)) (qa_window : Z)
  : outcome string :=
  qa_context <- load_recent_qa_context index_file sid qa_window ;;
  let analysis_context :=
    match analysis_file with
    | Some f => load_analysis_context f
    | None => ""
    end in
  let sections :=
    ((if bool_decide (qa_context = "") then [] else [qa_context]) ++
     (if bool_decide (analysis_context = "") then [] else [analysis_context]))%list in
  match sections with
  | [] => Return ""
  | _ =>
      let full_context :=
        String.concat (newline ++ "---" ++ newline) sections in
      Return (strip
        (newline ++ "# Conversation Memory Context" ++
         newline ++ "*Last updated: " ++ timestamp ++ "*" ++
         newline ++
         newline ++ full_context ++
         newline ++
         newline ++ "---" ++
         newline ++ "Use this context to understand the conversation history and patterns." ++
         newline))
  end.

End ContextBuilder.

(** The index of the first blank line that is not the first line,
    counting from [i]. *)
Fixpoint blank_index (i : nat) (lines : list string) : option nat :=
  match lines with
  | [] => None
  | line :: rest =>
      if (0 <? i)%nat && is_blank line then Some i
      else blank_index (S i) rest
  end.

Definition insert_pos (lines : list string) : nat :=
  match blank_index 0 lines with
  | Some i => S i
  | None => 0%nat
  end.

(** [inject_into_system_prompt] *)
Definition inject_into_system_prompt (context original_prompt : string)
  : string :=
  if bool_decide (context = "") then original_prompt
  else
    let lines := split_on (ascii_of_nat 10) original_prompt in
    let pos := insert_pos lines in
    String.concat newline (take pos lines) ++
    newline ++ newline ++ context ++ newline ++ newline ++
    String.concat newline (drop pos lines).

(** ** Extraction ([extract-conversations.py]) *)

(** [safe_ts] of [save_conversations]: the timestamp as used in a file
    name. *)
Definition safe_ts (timestamp : string) : string :=
  replace_char "Z" "" (replace_char ":" "-" timestamp).

(** The name of the file of a question or an answer. *)
Definition snapshot_file_name (timestamp : string) (seq : Z) : string :=
  safe_ts timestamp ++ "-" ++ pretty seq ++ ".txt".

(** ** Counters and shapes of the index document *)

(** The number of entries of all sessions. *)
Definition entry_count (data : store) : Z :=
  Z.of_nat (length (flat_map qa_sequence (sessions data))).

(** The number of entries with a non-empty answer. *)
Definition answered_count (data : store) : Z :=
  Z.of_nat (length (filter (fun e => Text.truthy (qa_a e) = true)
                           (flat_map qa_sequence (sessions data)))).

(** Entry number [i] of the session carries the sequence number [i]. *)
Definition numbered_by_position (s : session) : Prop :=
  session_seqs s = map Z.of_nat (seq 1 (length (qa_sequence s))).

(** [s'] is [s] grown at the end: same name, the old entries first. *)
Definition grown_from (s s' : session) : Prop :=
  session_id s' = session_id s ∧ qa_sequence s `prefix_of` qa_sequence s'.

(** ** ASCII text *)

(** Text whose characters are all below 128.  On such text the bytes of
    the [string] are the code points of the Python [str]: [String.length]
    is [len], [Text.take_str] is a slice, and [Text.lower],
    [Text.is_word_char] and [Text.is_space] are [str.lower], the class
    [\w] and the white space of [str.strip] and [str.split]. *)
Definition ascii_text (s : string) : bool :=
  forallb (fun c => (nat_of_ascii c <? 128)%nat) (list_ascii_of_string s).

(** * Properties *)

Local Open Scope list_scope.
Local Set Warnings "-clear-no-such-hyp".

(** ** Text facts *)

Lemma prefix_lower kw s :
  String.prefix kw s = true ->
  String.prefix (Text.lower kw) (Text.lower s) = true.
Proof.
  revert s. induction kw as [|c kw IH]; intros [|d s]; simpl; try done.
  destruct (Ascii.ascii_dec c d) as [->|]; [|done].
  intros Hp. destruct (Ascii.ascii_dec _ _); [auto | done].
Qed.

Lemma contains_lower kw s :
  Text.contains kw s = true ->
  Text.contains (Text.lower kw) (Text.lower s) = true.
Proof.
  induction s as [|d s IH]; simpl.
  - rewrite !orb_false_r. apply (prefix_lower kw "").
  - intros [Hp | Hc]%orb_true_iff.
    + apply orb_true_iff. left. apply (prefix_lower kw (String d s) Hp).
    + apply orb_true_iff. right. auto.
Qed.

(** ** The tokenizer *)

Section TokenizerFacts.
Context `{PySetOrder}.

Lemma extract_tokens_length text :
  length (extract_tokens text) =
  (20 `min` length (remove_dups (Text.findall_words (Text.lower text))))%nat.
Proof.
  unfold extract_tokens. rewrite length_take.
  by rewrite (Permutation_length (set_to_list_perm _)).
Qed.

Lemma extract_tokens_NoDup text : NoDup (extract_tokens text).
Proof.
  unfold extract_tokens. eapply sublist_NoDup; [|apply sublist_take].
  rewrite (set_to_list_perm _). apply NoDup_remove_dups.
Qed.
End TokenizerFacts.

(** ** The logger: how [add_qa] changes the sessions *)

(** The session [s] with the entry [e] appended at time [now]. *)
Local Abbreviation appended s now e :=
  {| session_id := session_id s; last_updated := now;
     qa_sequence := qa_sequence s ++ [e] |}.

Lemma find_session_Some sid ss s :
  find_session sid ss = Some s ->
  ∃ pre post, ss = pre ++ s :: post ∧ session_id s = sid ∧
              Forall (fun t => session_id t ≠ sid) pre.
Proof.
  unfold find_session. induction ss as [|t ss IH]; simpl; [done|].
  case_bool_decide as Ht.
  - intros [= ->]. by exists [], ss.
  - intros (pre & post & -> & ? & ?)%IH.
    exists (t :: pre), post. split_and!; [done | done | by constructor].
Qed.

Lemma find_session_split sid pre s post :
  Forall (fun t => session_id t ≠ sid) pre -> session_id s = sid ->
  find_session sid (pre ++ s :: post) = Some s.
Proof.
  unfold find_session. intros Hpre Hs.
  induction Hpre as [|t pre Ht _ IH]; simpl.
  - by rewrite bool_decide_eq_true_2.
  - by rewrite bool_decide_eq_false_2.
Qed.

Lemma append_to_session_split sid now e pre s post :
  Forall (fun t => session_id t ≠ sid) pre -> session_id s = sid ->
  append_to_session sid now e (pre ++ s :: post)
  = Some (pre ++ appended s now e :: post).
Proof.
  intros Hpre Hs. induction Hpre as [|t pre Ht _ IH]; simpl.
  - by rewrite bool_decide_eq_true_2.
  - rewrite bool_decide_eq_false_2 by done. by rewrite IH.
Qed.

Lemma append_to_session_None sid now e ss :
  find_session sid ss = None -> append_to_session sid now e ss = None.
Proof.
  unfold find_session. induction ss as [|t ss IH]; simpl; [done|].
  case_bool_decide; [done|]. intros Hn. by rewrite IH.
Qed.

Lemma append_to_session_Some sid now e ss ss' :
  append_to_session sid now e ss = Some ss' ->
  ∃ pre s post, ss = pre ++ s :: post ∧ session_id s = sid ∧
                Forall (fun t => session_id t ≠ sid) pre ∧
                ss' = pre ++ appended s now e :: post.
Proof.
  destruct (find_session sid ss) as [s|] eqn:Hf.
  - apply find_session_Some in Hf as (pre & post & -> & Hs & Hpre).
    rewrite append_to_session_split by done. intros [= <-].
    by exists pre, s, post.
  - by rewrite append_to_session_None.
Qed.

Section LoggerFacts.
Context `{PySetOrder}.
Variable hash_text : string -> string.

(** A call that returns [True] read a document, found the session and
    wrote the updated document. *)
Lemma add_qa_true now w fs sid user q a topic_tags significance :
  result (add_qa hash_text now w fs sid user q a topic_tags significance)
  = Return true ->
  ∃ data pre s post,
    fs = Content data ∧ w = WriteOk ∧
    sessions data = pre ++ s :: post ∧ session_id s = sid ∧
    Forall (fun t => session_id t ≠ sid) pre ∧
    file_after (add_qa hash_text now w fs sid user q a topic_tags significance)
    = Content
        {| store_metadata := update_metadata now a (store_metadata data);
           sessions :=
             pre ++
             appended s now
               (new_entry hash_text (get_next_seq fs sid) now user q a
                  topic_tags (stored_significance q a significance))
             :: post;
           store_index :=
             update_index hash_text sid (get_next_seq fs sid) now q
               topic_tags (store_index data) |}.
Proof.
  unfold add_qa. destruct fs as [| |data]; simpl; try done.
  destruct (append_to_session _ _ _ _) as [ss|] eqn:Happ; simpl; [|done].
  destruct w; simpl; try done. intros _.
  apply append_to_session_Some in Happ as (pre & s & post & Hd & Hs & Hpre & ->).
  by exists data, pre, s, post.
Qed.

(** With the session present and the write going through, the call
    returns [True]. *)
Lemma add_qa_returns_true now data sid user q a topic_tags significance s :
  find_session sid (sessions data) = Some s ->
  result (add_qa hash_text now WriteOk (Content data) sid user q a
            topic_tags significance) = Return true.
Proof.
  intros (pre & post & Hd & Hs & Hpre)%find_session_Some.
  unfold add_qa. rewrite Hd, append_to_session_split by done. done.
Qed.

End LoggerFacts.

(** ** The significance scorer *)

Lemma clamp_bounds x : (0 <= clamp x <= 1)%Q.
Proof.
  unfold clamp. split.
  - apply Q.le_max_l.
  - apply Q.max_lub; [done|]. apply Q.le_min_l.
Qed.

Section ScorerFacts.
Context `{PySetOrder}.

Lemma length_factor_bounds a : (0 <= length_factor a <= 3 # 10)%Q.
Proof.
  unfold length_factor.
  set (x := (inject_Z (Z.of_nat (String.length a)) / 500)%Q).
  assert (0 <= x)%Q as Hx.
  { unfold x. apply Qle_shift_div_l; [done|].
    rewrite Qmult_0_l. change 0%Q with (inject_Z 0).
    rewrite <- Zle_Qle. lia. }
  destruct (Q.min_spec x 1) as [[? ->] | [? ->]]; split; lra.
Qed.

Lemma complexity_factor_bounds q : (0 <= complexity_factor q <= 2 # 10)%Q.
Proof.
  unfold complexity_factor.
  set (x := (inject_Z (Z.of_nat (length (extract_tokens q))) / 8)%Q).
  assert (0 <= x)%Q as Hx.
  { unfold x. apply Qle_shift_div_l; [done|].
    rewrite Qmult_0_l. change 0%Q with (inject_Z 0).
    rewrite <- Zle_Qle. lia. }
  destruct (Q.min_spec x 1) as [[? ->] | [? ->]]; split; lra.
Qed.

Lemma technical_term_bounds a : (0 <= technical_term a <= 25 # 100)%Q.
Proof. unfold technical_term. by destruct (any_in _ _). Qed.

Lemma important_term_bounds q a : (0 <= important_term q a <= 15 # 100)%Q.
Proof. unfold important_term. by destruct (any_in_either _ _ _). Qed.

Lemma action_term_bounds q a : (0 <= action_term q a <= 1 # 10)%Q.
Proof. unfold action_term. by destruct (any_in_either _ _ _). Qed.

Lemma score_significance_bounds q a : (0 <= score_significance q a <= 1)%Q.
Proof.
  destruct a as [a|]; simpl; [|done].
  pose proof (length_factor_bounds a). pose proof (complexity_factor_bounds q).
  pose proof (technical_term_bounds a). pose proof (important_term_bounds q a).
  pose proof (action_term_bounds q a).
  split; [|apply Q.le_min_r].
  apply Q.min_glb; lra.
Qed.

(** The terms of the sum, once the answer is known to reach 500
    characters and to hold a technical and an importance keyword, and the
    question to hold an action keyword. *)
Lemma any_in_intro kws kw s :
  kw ∈ kws -> Text.contains kw s = true -> any_in kws s = true.
Proof.
  intros Hin%list_elem_of_In Hc. apply existsb_exists. by exists kw.
Qed.

Lemma any_in_either_intro kws kw s t :
  kw ∈ kws -> Text.contains kw s || Text.contains kw t = true ->
  any_in_either kws s t = true.
Proof.
  intros Hin%list_elem_of_In Hc. apply existsb_exists. by exists kw.
Qed.

End ScorerFacts.

(** The clamp is the identity on [0,1] and sends the rest to the nearer
    end. *)
Lemma clamp_cases x :
  ((0 <= x <= 1 -> clamp x == x) ∧ (x < 0 -> clamp x == 0) ∧
   (1 < x -> clamp x == 1))%Q.
Proof.
  unfold clamp. split_and!; intros Hx.
  - rewrite (Q.min_r 1 x) by lra. apply Q.max_r; lra.
  - rewrite (Q.min_r 1 x) by lra. apply Q.max_l; lra.
  - rewrite (Q.min_l 1 x) by lra. apply Q.max_r; lra.
Qed.

(** C4. For every question [q] and optional answer [a],
    [score_significance q a] lies in [0,1] and [score_significance q None]
    is 0; and when [add_qa] is called with an explicit significance [s]
    and succeeds, the entry it stores (the last one of the session in the
    written document) carries [max(0, min(1, s))], which lies in [0,1]. *)
Theorem significance_clamped `{PySetOrder} (hash_text : string -> string)
    (q : string) (a : option string) :
  (0 <= score_significance q a <= 1)%Q ∧
  score_significance q None = 0%Q ∧
  ∀ (s : Q) now w fs sid user topic_tags,
    let r := add_qa hash_text now w fs sid user q a topic_tags (Some s) in
    result r = Return true ->
    ∃ data' sess e,
      file_after r = Content data' ∧
      find_session sid (sessions data') = Some sess ∧
      last (qa_sequence sess) = Some e ∧
      qa_a_significance e = Qmax 0 (Qmin 1 s) ∧
      (0 <= qa_a_significance e <= 1)%Q.
Proof.
  split; [apply score_significance_bounds | split; [done|]].
  intros s now w fs sid user topic_tags r Hr.
  apply add_qa_true in Hr as (data & pre & t & post & -> & -> & Hd & Ht & Hpre & Hfile).
  eexists _, _, _. split; [exact Hfile|]. simpl.
  split; [by apply find_session_split|].
  split; [apply last_snoc|].
  split; [done | apply clamp_bounds].
Qed.

(** An override of 3/2 on the sample document is stored as 1. *)
Lemma significance_clamped_witness :
  ∃ data' sess e,
    file_after (add_qa (H:=first_occurrence_order) sample_hash
                  "2024-01-01T00:00:00Z" WriteOk (Content fresh_store)
                  "s1" "alice" "what is this" None None (Some (3 # 2)))
    = Content data' ∧
    find_session "s1" (sessions data') = Some sess ∧
    last (qa_sequence sess) = Some e ∧
    qa_a_significance e = Qmax 0 (Qmin 1 (3 # 2)) ∧
    (0 <= qa_a_significance e <= 1)%Q.
Proof.
  apply (proj2 (proj2 (@significance_clamped first_occurrence_order
                         sample_hash "what is this" None))).
  reflexivity.
Defined.

(** On the worked example the code does not reach 1: six tokens, not
    seven, and a total below the cap. *)
Lemma worked_example_not_one :
  String.length example_a = 600%nat ∧
  Text.contains "architecture" example_a = true ∧
  Text.contains "important" example_a = true ∧
  length (extract_tokens (H:=first_occurrence_order) example_q) ≠ 7%nat ∧
  ¬ (complexity_factor (H:=first_occurrence_order) example_q == 175 # 1000)%Q ∧
  ¬ (score_significance (H:=first_occurrence_order) example_q (Some example_a)
     == 1)%Q.
Proof.
  split_and!; try (vm_compute; reflexivity); try (vm_compute; discriminate).
Qed.

(** C2 (amended). For every answer of length 600 that contains
    "architecture" and "important", and the question "how to optimize the
    database architecture": the question gives 6 tokens, the complexity
    term is 0.15, and [score_significance] returns 0.95 (0.3 + 0.15 + 0.25
    + 0.15 + 0.1, the last for "how to"), whatever the set order. *)
Theorem worked_example_score `{PySetOrder} (a : string) :
  String.length a = 600%nat ->
  Text.contains "architecture" a = true ->
  Text.contains "important" a = true ->
  length (extract_tokens example_q) = 6%nat ∧
  (complexity_factor example_q == 15 # 100)%Q ∧
  (score_significance example_q (Some a) == 95 # 100)%Q.
Proof.
  intros Hlen Harch Himp.
  assert (length (extract_tokens example_q) = 6%nat) as Htok.
  { rewrite extract_tokens_length. vm_compute. reflexivity. }
  assert (technical_term a = 25 # 100) as Htech.
  { unfold technical_term.
    rewrite (any_in_intro technical_keywords "architecture"); [done | | ].
    - unfold technical_keywords. set_solver.
    - apply (contains_lower "architecture" a Harch). }
  assert (important_term example_q a = 15 # 100) as Himpt.
  { unfold important_term.
    rewrite (any_in_either_intro important_keywords "important"); [done | | ].
    - unfold important_keywords. set_solver.
    - apply orb_true_iff. left. apply (contains_lower "important" a Himp). }
  assert (action_term example_q a = 1 # 10) as Hact.
  { unfold action_term.
    rewrite (any_in_either_intro action_keywords "how to"); [done | | ].
    - unfold action_keywords. set_solver.
    - apply orb_true_iff. right. vm_compute. reflexivity. }
  split; [done | split].
  - unfold complexity_factor. rewrite Htok. vm_compute. reflexivity.
  - unfold score_significance, length_factor, complexity_factor.
    rewrite Htech, Himpt, Hact, Hlen, Htok. vm_compute. reflexivity.
Qed.

Lemma worked_example_score_witness :
  length (extract_tokens (H:=first_occurrence_order) example_q) = 6%nat ∧
  (complexity_factor (H:=first_occurrence_order) example_q == 15 # 100)%Q ∧
  (score_significance (H:=first_occurrence_order) example_q (Some example_a)
   == 95 # 100)%Q.
Proof.
  apply (@worked_example_score first_occurrence_order example_a);
    vm_compute; reflexivity.
Defined.

(** ** Sequence numbers *)

Lemma fold_max_ge l x :
  x <= fold_left Z.max l x ∧ ∀ y, y ∈ l -> y <= fold_left Z.max l x.
Proof.
  revert x. induction l as [|z l IH]; intros x; simpl.
  - split; [lia | by intros y ?%elem_of_nil].
  - destruct (IH (Z.max x z)) as [H1 H2]. split; [lia|].
    intros y [->|Hy]%elem_of_cons; [lia | auto].
Qed.

Lemma fold_max_in l x : fold_left Z.max l x ∈ x :: l.
Proof.
  revert x. induction l as [|z l IH]; intros x; simpl; [set_solver|].
  specialize (IH (Z.max x z)).
  apply elem_of_cons in IH as [->|?]; [|set_solver].
  destruct (Z.max_spec x z) as [[_ ->]|[_ ->]]; set_solver.
Qed.

(** [max(l, default=0)] is 0 on the empty list, else the largest element. *)
Lemma max_default_spec l :
  match l with
  | [] => max_default 0 l = 0
  | _ => max_default 0 l ∈ l ∧ ∀ y, y ∈ l -> y <= max_default 0 l
  end.
Proof.
  destruct l as [|x l]; simpl; [done|]. split; [apply fold_max_in|].
  intros y [->|Hy]%elem_of_cons.
  - apply (proj1 (fold_max_ge l x)).
  - by apply (proj2 (fold_max_ge l x)).
Qed.

Lemma strictly_increasing_snoc l n :
  strictly_increasing l = true -> (∀ y, y ∈ l -> y < n) ->
  strictly_increasing (l ++ [n]) = true.
Proof.
  induction l as [|x l IH]; [done|].
  destruct l as [|y l]; intros Hl Hn.
  - simpl. rewrite andb_true_r. apply Z.ltb_lt, Hn. set_solver.
  - change (strictly_increasing (x :: y :: l))
      with ((x <? y) && strictly_increasing (y :: l)) in Hl.
    apply andb_true_iff in Hl as [Hxy Hl].
    change ((x <? y) && strictly_increasing ((y :: l) ++ [n]) = true).
    rewrite Hxy, andb_true_l. apply IH; [done|].
    intros z Hz. apply Hn. by apply elem_of_cons; right.
Qed.

(** Appending [max + 1] keeps a numbering that starts at 1 and grows. *)
Lemma seqs_ok_snoc l :
  seqs_ok l = true -> seqs_ok (l ++ [max_default 0 l + 1]) = true.
Proof.
  destruct l as [|x l]; [done|]. intros [Hx Hl]%andb_true_iff.
  change (((x =? 1) && strictly_increasing ((x :: l) ++ [max_default 0 (x :: l) + 1]))
          = true).
  rewrite Hx, andb_true_l. apply strictly_increasing_snoc; [done|].
  intros y Hy. pose proof (max_default_spec (x :: l)) as [_ Hmax].
  specialize (Hmax y Hy). lia.
Qed.

Lemma get_next_seq_found data sid s :
  find_session sid (sessions data) = Some s ->
  get_next_seq (Content data) sid = max_default 0 (session_seqs s) + 1.
Proof. unfold get_next_seq. by intros ->. Qed.

Section SequenceFacts.
Context `{PySetOrder}.
Variable hash_text : string -> string.

Lemma appends_to_seqs_ok data data' :
  store_seqs_ok data -> appends_to hash_text data data' -> store_seqs_ok data'.
Proof.
  intros Hok (now & sid & user & q & a & tags & sig & Hr & Hf).
  apply add_qa_true in Hr as (d & pre & s & post & [= <-] & _ & Hd & Hs & Hpre & Hfile).
  rewrite Hfile in Hf. injection Hf as <-.
  unfold store_seqs_ok in *. simpl. rewrite Hd in Hok.
  apply Forall_app in Hok as [Hpre_ok Hrest].
  apply Forall_cons in Hrest as [Hs_ok Hpost_ok].
  apply Forall_app. split; [done|]. apply Forall_cons. split; [|done].
  unfold session_seqs. simpl. rewrite map_app. simpl.
  rewrite (get_next_seq_found data sid s).
  - by apply seqs_ok_snoc.
  - rewrite Hd. by apply find_session_split.
Qed.

Lemma reachable_seqs_ok data data' :
  store_seqs_ok data -> reachable hash_text data data' -> store_seqs_ok data'.
Proof.
  intros Hok Hreach. induction Hreach as [|d1 d2 d3 Hstep _ IH]; [done|].
  apply IH. by eapply appends_to_seqs_ok.
Qed.

End SequenceFacts.

(** C5. In every document reached by appends from one whose sessions are
    numbered from 1 in strictly increasing order, every session is still
    numbered so; [get_next_seq] gives 1 for an unknown session and for a
    session without entries, and otherwise one more than the largest
    number of the session; and whenever the session exists and the file
    can be written, [add_qa] returns [True] and the file then holds a
    document in which that session is the old one followed by exactly one
    new entry, the one built from the arguments and numbered with the
    value of [get_next_seq], so that the document is again numbered from 1
    in strictly increasing order. *)
Theorem sequence_numbers_increase `{PySetOrder} (hash_text : string -> string)
    (data0 data : store) :
  store_seqs_ok data0 -> reachable hash_text data0 data ->
  store_seqs_ok data ∧
  (∀ sid, find_session sid (sessions data) = None ->
          get_next_seq (Content data) sid = 1) ∧
  (∀ sid s, find_session sid (sessions data) = Some s ->
     match session_seqs s with
     | [] => get_next_seq (Content data) sid = 1
     | _ => get_next_seq (Content data) sid - 1 ∈ session_seqs s ∧
            ∀ y, y ∈ session_seqs s -> y < get_next_seq (Content data) sid
     end) ∧
  (∀ now sid user q a topic_tags significance s,
     find_session sid (sessions data) = Some s ->
     let r := add_qa hash_text now WriteOk (Content data) sid user q a
                topic_tags significance in
     let e := new_entry hash_text (get_next_seq (Content data) sid) now user
                q a topic_tags (stored_significance q a significance) in
     result r = Return true ∧
     ∃ data' s',
       file_after r = Content data' ∧
       find_session sid (sessions data') = Some s' ∧
       qa_sequence s' = qa_sequence s ++ [e] ∧
       session_seqs s' = session_seqs s ++ [get_next_seq (Content data) sid] ∧
       store_seqs_ok data').
Proof.
  intros Hok Hreach.
  assert (store_seqs_ok data) as Hok' by (by eapply reachable_seqs_ok).
  split; [done|].
  split; [|split].
  - intros sid Hnone. unfold get_next_seq. by rewrite Hnone.
  - intros sid s Hs. rewrite (get_next_seq_found _ _ _ Hs).
    pose proof (max_default_spec (session_seqs s)) as Hmax.
    destruct (session_seqs s) as [|x l]; [by rewrite Hmax|].
    destruct Hmax as [Hin Hge]. split.
    + by replace (max_default 0 (x :: l) + 1 - 1) with (max_default 0 (x :: l))
        by lia.
    + intros y Hy. specialize (Hge y Hy). lia.
  - intros now sid user q a tags sig s Hs r e.
    assert (result r = Return true) as Hr
      by (by eapply add_qa_returns_true).
    split; [done|].
    pose proof Hr as Hr'.
    apply add_qa_true in Hr'
      as (d & pre & s0 & post & [= <-] & _ & Hd & Hs0 & Hpre & Hfile).
    assert (s0 = s) as ->.
    { rewrite Hd, (find_session_split _ _ _ _ Hpre Hs0) in Hs. by injection Hs. }
    eexists _, _. split; [exact Hfile|]. simpl.
    split; [by apply find_session_split|]. simpl.
    split; [done|]. split.
    + unfold session_seqs. simpl. by rewrite map_app.
    + eapply appends_to_seqs_ok; [exact Hok'|].
      exists now, sid, user, q, a, tags, sig. split; [exact Hr | exact Hfile].
Qed.

Lemma sequence_numbers_increase_witness :
  let r := add_qa (H:=first_occurrence_order) sample_hash
             "2024-01-02T00:00:00Z" WriteOk (Content logged_once) "s1" "bob"
             "which index is used" None None None in
  store_seqs_ok logged_once ∧
  get_next_seq (Content logged_once) "s2" = 1 ∧
  get_next_seq (Content logged_once) "s1" = 2 ∧
  result r = Return true ∧
  ∃ data' s',
    file_after r = Content data' ∧
    find_session "s1" (sessions data') = Some s' ∧
    map qa_q (qa_sequence s') = [example_q; "which index is used"%string] ∧
    session_seqs s' = [1; 2] ∧
    store_seqs_ok data'.
Proof.
  intros r.
  assert (store_seqs_ok fresh_store) as H0 by (repeat constructor).
  assert (reachable (H:=first_occurrence_order) sample_hash fresh_store
            logged_once) as H1.
  { apply rtc_once.
    exists "2024-01-01T00:00:00Z"%string, "s1"%string, "alice"%string,
      example_q, (Some example_a), (Some ["db"%string]), None.
    split; reflexivity. }
  destruct (@sequence_numbers_increase first_occurrence_order sample_hash
              fresh_store logged_once H0 H1) as (Hok & Hnone & Hsome & Happ).
  assert (∃ s, find_session "s1" (sessions logged_once) = Some s ∧
               session_seqs s = [1] ∧ map qa_q (qa_sequence s) = [example_q])
    as (s & Hs & Hs1 & Hq1).
  { eexists. split; [reflexivity|]. split; reflexivity. }
  split; [exact Hok|].
  split; [apply Hnone; reflexivity|].
  assert (get_next_seq (Content logged_once) "s1" = 2) as Hn.
  { specialize (Hsome "s1"%string s Hs). rewrite Hs1 in Hsome.
    destruct Hsome as [Hin _]. apply list_elem_of_singleton in Hin. lia. }
  split; [exact Hn|].
  pose proof (Happ "2024-01-02T00:00:00Z"%string "s1"%string "bob"%string
                "which index is used"%string None None None s Hs) as Hadd.
  cbv zeta in Hadd.
  destruct Hadd as (Hr & data' & s' & Hf & Hfs & Hqs & Hseqs & Hok2).
  split; [exact Hr|].
  exists data', s'. split; [exact Hf|]. split; [exact Hfs|].
  split; [by rewrite Hqs, map_app, Hq1|].
  split; [by rewrite Hseqs, Hs1, Hn | exact Hok2].
Defined.

(** ** Unknown sessions *)

Lemma find_session_None sid ss :
  (∀ s, s ∈ ss -> session_id s ≠ sid) -> find_session sid ss = None.
Proof.
  unfold find_session. induction ss as [|t ss IH]; intros Hss; simpl; [done|].
  rewrite bool_decide_eq_false_2 by (apply Hss; set_solver).
  apply IH. intros s Hs. apply Hss. set_solver.
Qed.

(** C8. When no session of the document is named [sid], [add_qa] returns
    [False] after printing the session-not-found error, whatever the other
    arguments: the in-memory document is the one that was read (no entry,
    index or counter changed) and the index file is not written. *)
Theorem add_qa_unknown_session `{PySetOrder} (hash_text : string -> string)
    (now : string) (w : write_result) (data : store) (sid user q : string)
    (a : option string) (topic_tags : option (list string))
    (significance : option Q) :
  (∀ s, s ∈ sessions data -> session_id s ≠ sid) ->
  add_qa hash_text now w (Content data) sid user q a topic_tags significance
  = {| result := Return false;
       memory := Some data;
       file_after := Content data;
       printed := [MsgSessionNotFound sid] |}.
Proof.
  intros Hno. unfold add_qa.
  by rewrite (append_to_session_None _ _ _ _ (find_session_None _ _ Hno)).
Qed.

Lemma add_qa_unknown_session_witness :
  add_qa (H:=first_occurrence_order) sample_hash "2024-01-01T00:00:00Z"
    WriteOk (Content fresh_store) "s2" "alice" example_q (Some example_a)
    (Some ["db"]) None
  = {| result := Return false;
       memory := Some fresh_store;
       file_after := Content fresh_store;
       printed := [MsgSessionNotFound "s2"] |}.
Proof.
  apply (@add_qa_unknown_session first_occurrence_order sample_hash).
  intros s Hs. apply list_elem_of_singleton in Hs as ->. discriminate.
Defined.

(** ** Consistency of the secondary indices *)

Lemma resolves_iff data sid n :
  resolves data sid n = true ↔
  ∃ s e, s ∈ sessions data ∧ session_id s = sid ∧
         e ∈ qa_sequence s ∧ qa_seq e = n.
Proof.
  unfold resolves. rewrite existsb_exists. split.
  - intros (s & Hs%list_elem_of_In & [Hid%bool_decide_eq_true He]%andb_true_iff).
    apply existsb_exists in He as (e & He%list_elem_of_In & Hn%Z.eqb_eq).
    by exists s, e.
  - intros (s & e & Hs & Hid & He & Hn). exists s.
    split; [by apply list_elem_of_In|].
    apply andb_true_iff. split; [by apply bool_decide_eq_true|].
    apply existsb_exists. exists e.
    split; [by apply list_elem_of_In | by apply Z.eqb_eq].
Qed.

(** References that resolved before an append resolve after it, and so
    does the reference to the new entry. *)
Lemma resolves_appended data data' pre s post now e sid n :
  sessions data = pre ++ s :: post ->
  sessions data' =
    pre ++ {| session_id := session_id s; last_updated := now;
              qa_sequence := qa_sequence s ++ [e] |} :: post ->
  resolves data sid n = true -> resolves data' sid n = true.
Proof.
  intros Hd Hd'. rewrite !resolves_iff, Hd, Hd'.
  intros (t & x & Ht & Hid & Hx & Hn).
  apply elem_of_app in Ht as [Ht | [->|Ht]%elem_of_cons].
  - exists t, x. set_solver.
  - eexists _, x. split; [apply elem_of_app; right; apply elem_of_cons; by left|].
    simpl. set_solver.
  - exists t, x. set_solver.
Qed.

Lemma resolves_new data' pre s post now e :
  sessions data' =
    pre ++ {| session_id := session_id s; last_updated := now;
              qa_sequence := qa_sequence s ++ [e] |} :: post ->
  resolves data' (session_id s) (qa_seq e) = true.
Proof.
  intros Hd'. rewrite resolves_iff, Hd'. eexists _, e.
  split; [apply elem_of_app; right; apply elem_of_cons; by left|].
  simpl. set_solver.
Qed.

Lemma add_topic_refs_Forall (P : ref -> Prop) r tags m :
  P r -> map_Forall (fun _ refs => Forall P refs) m ->
  map_Forall (fun _ refs => Forall P refs) (add_topic_refs r tags m).
Proof.
  intros Hr. unfold add_topic_refs. revert m.
  induction tags as [|tag tags IH]; intros m Hm; simpl; [done|].
  apply IH. apply map_Forall_insert_2; [|done].
  apply Forall_app. split; [|by repeat constructor].
  destruct (m !! tag) as [refs|] eqn:Hl; simpl; [|done].
  by apply (Hm tag refs).
Qed.

Lemma add_topic_refs_keeps r tags (m : gmap string (list ref)) tag refs :
  m !! tag = Some refs -> r ∈ refs ->
  ∃ refs', add_topic_refs r tags m !! tag = Some refs' ∧ r ∈ refs'.
Proof.
  unfold add_topic_refs. revert m refs.
  induction tags as [|t tags IH]; intros m refs Hl Hr; simpl; [by exists refs|].
  destruct (decide (t = tag)) as [->|Hne].
  - eapply IH; [apply lookup_insert_eq|]. rewrite Hl. simpl. set_solver.
  - eapply IH; [|done]. by rewrite lookup_insert_ne.
Qed.

Lemma add_topic_refs_lookup r tags (m : gmap string (list ref)) tag :
  tag ∈ tags ->
  ∃ refs, add_topic_refs r tags m !! tag = Some refs ∧ r ∈ refs.
Proof.
  revert m. induction tags as [|t tags IH]; intros m Hin; [set_solver|].
  apply elem_of_cons in Hin as [<-|Hin].
  - change (add_topic_refs r (tag :: tags) m)
      with (add_topic_refs r tags (<[tag := default [] (m !! tag) ++ [r]]> m)).
    eapply add_topic_refs_keeps; [apply lookup_insert_eq | set_solver].
  - apply (IH _ Hin).
Qed.

(** References already listed under a topic stay, in order, in front of
    what an append adds. *)
Lemma add_topic_refs_prefix r tags (m : gmap string (list ref)) tag refs :
  m !! tag = Some refs ->
  ∃ refs', add_topic_refs r tags m !! tag = Some refs' ∧ refs `prefix_of` refs'.
Proof.
  unfold add_topic_refs. revert m refs.
  induction tags as [|t tags IH]; intros m refs Hl; simpl; [by exists refs|].
  destruct (decide (t = tag)) as [->|Hne].
  - destruct (IH (<[tag := default [] (m !! tag) ++ [r]]> m) (refs ++ [r]))
      as (refs' & Hl' & Hpre).
    { rewrite lookup_insert_eq, Hl. done. }
    exists refs'. split; [done|].
    etrans; [|exact Hpre]. by apply prefix_app_r.
  - apply IH. by rewrite lookup_insert_ne.
Qed.

(** A topic that is not a tag of the new entry keeps its references. *)
Lemma add_topic_refs_other r tags (m : gmap string (list ref)) tag :
  tag ∉ tags -> add_topic_refs r tags m !! tag = m !! tag.
Proof.
  unfold add_topic_refs. revert m.
  induction tags as [|t tags IH]; intros m Hnot; simpl; [done|].
  apply not_elem_of_cons in Hnot as [Hne Hnot].
  rewrite IH by done. by rewrite lookup_insert_ne.
Qed.

(** Whatever document the index file holds after a call of [add_qa], its
    indices are consistent if they were before the call. *)
Lemma add_qa_index_consistent `{PySetOrder}
    (hash_text : string -> string) (now : string) (w : write_result)
    (data data' : store) (sid user q : string) (a : option string)
    (topic_tags : option (list string)) (significance : option Q) :
  index_consistent data ->
  file_after (add_qa hash_text now w (Content data) sid user q a topic_tags
                significance) = Content data' ->
  index_consistent data'.
Proof.
  intros (Htopic & Hrec & Hhash) Hfile.
  destruct (result (add_qa hash_text now w (Content data) sid user q a
                      topic_tags significance)) as [[|]| |] eqn:Hres.
  - (* success *)
    apply add_qa_true in Hres
      as (d & pre & s & post & [= <-] & -> & Hd & Hs & Hpre & Hfile').
    rewrite Hfile' in Hfile. injection Hfile as <-.
    set (n := get_next_seq (Content data) sid) in *.
    set (e := new_entry hash_text n now user q a topic_tags
                (stored_significance q a significance)).
    set (data' := {| store_metadata := _; sessions := _; store_index := _ |}).
    assert (∀ x m, resolves data x m = true -> resolves data' x m = true)
      as Hmono.
    { intros x m. by apply (resolves_appended data data' pre s post now e). }
    assert (resolves data' sid n = true) as Hnew.
    { rewrite <- Hs. apply (resolves_new data' pre s post now e). done. }
    split; [|split]; simpl.
    + apply add_topic_refs_Forall; [done|].
      intros tag refs Hl. eapply Forall_impl; [by apply (Htopic tag refs)|].
      intros r. apply Hmono.
    + apply Forall_cons. split; [done|].
      eapply Forall_impl; [exact Hrec|]. intros r. apply Hmono.
    + apply map_Forall_insert_2; [done|].
      intros h r Hl. apply Hmono. by apply (Hhash h r).
  - (* the call returned False: the file holds the old document or none *)
    assert (data' = data) as ->; [|by split].
    revert Hres Hfile. unfold add_qa.
    destruct (append_to_session _ _ _ _); [|by intros _ [= ->]].
    destruct w; simpl; [done | by intros _ [= ->] | done].
  - revert Hres. unfold add_qa.
    destruct (append_to_session _ _ _ _); [by destruct w | done].
  - revert Hres. unfold add_qa.
    destruct (append_to_session _ _ _ _); [by destruct w | done].
Qed.

(** C7. If every reference of the topic index, the recency index and the
    content-hash index resolves to an entry of the named session before a
    call of [add_qa], then the same holds of whatever document the index
    file holds after the call.  And whenever the session exists and the
    file can be written, the call returns [True] and the file then holds a
    document with consistent indices that reference the new entry: the
    recency list is the old one with the new reference put in front, the
    hash index is the old one with the hash of the question bound to the
    new reference, and the topic index lists the new reference under each
    topic tag, keeps the old references of every topic in front of it, and
    is unchanged at every other topic. *)
Theorem append_keeps_indices_consistent `{PySetOrder}
    (hash_text : string -> string) (now : string)
    (data : store) (sid user q : string) (a : option string)
    (topic_tags : option (list string)) (significance : option Q) :
  index_consistent data ->
  (∀ w data',
     file_after (add_qa hash_text now w (Content data) sid user q a topic_tags
                   significance) = Content data' ->
     index_consistent data') ∧
  (∀ s, find_session sid (sessions data) = Some s ->
     let run := add_qa hash_text now WriteOk (Content data) sid user q a
                  topic_tags significance in
     let n := get_next_seq (Content data) sid in
     let r := {| ref_session := sid; ref_seq := n |} in
     result run = Return true ∧
     ∃ data',
       file_after run = Content data' ∧
       index_consistent data' ∧
       resolves data' sid n = true ∧
       by_recency (store_index data') =
         {| rec_session := sid; rec_seq := n; rec_timestamp := TsStr now |}
         :: by_recency (store_index data) ∧
       by_semantic_hash (store_index data') =
         <[hash_text q := r]> (by_semantic_hash (store_index data)) ∧
       (∀ tag, tag ∈ default [] topic_tags ->
               ∃ refs, by_topic (store_index data') !! tag = Some refs ∧
                       r ∈ refs) ∧
       (∀ tag refs, by_topic (store_index data) !! tag = Some refs ->
                    ∃ refs', by_topic (store_index data') !! tag = Some refs' ∧
                             refs `prefix_of` refs') ∧
       (∀ tag, tag ∉ default [] topic_tags ->
               by_topic (store_index data') !! tag
               = by_topic (store_index data) !! tag)).
Proof.
  intros Hc. split.
  - intros w data' Hfile. by eapply add_qa_index_consistent.
  - intros s Hs run n r.
    assert (result run = Return true) as Hr
      by (by eapply add_qa_returns_true).
    split; [done|].
    pose proof Hr as Hr'.
    apply add_qa_true in Hr'
      as (d & pre & s0 & post & [= <-] & _ & Hd & Hs0 & Hpre & Hfile).
    subst sid.
    eexists. split; [exact Hfile|].
    split; [by eapply add_qa_index_consistent|].
    split.
    { by apply (resolves_new _ pre s0 post now
                  (new_entry hash_text n now user q a topic_tags
                     (stored_significance q a significance))). }
    simpl. split; [done|]. split; [done|].
    split; [|split].
    + intros tag Htag. by apply add_topic_refs_lookup.
    + intros tag refs Hl. by apply add_topic_refs_prefix.
    + intros tag Hnot. by apply add_topic_refs_other.
Qed.

Lemma append_keeps_indices_consistent_witness :
  let run := add_qa (H:=first_occurrence_order) sample_hash
               "2024-01-02T00:00:00Z" WriteOk (Content logged_once) "s1" "bob"
               "which index is used" (Some "the primary one"%string)
               (Some ["db"%string; "perf"%string]) None in
  let r1 := {| ref_session := "s1"; ref_seq := 1 |} in
  let r2 := {| ref_session := "s1"; ref_seq := 2 |} in
  index_consistent logged_once ∧
  by_topic (store_index logged_once) !! "db"%string = Some [r1] ∧
  result run = Return true ∧
  ∃ data',
    file_after run = Content data' ∧
    index_consistent data' ∧
    resolves data' "s1" 2 = true ∧
    by_recency (store_index data') =
      [{| rec_session := "s1"; rec_seq := 2;
          rec_timestamp := TsStr "2024-01-02T00:00:00Z" |};
       {| rec_session := "s1"; rec_seq := 1;
          rec_timestamp := TsStr "2024-01-01T00:00:00Z" |}] ∧
    by_semantic_hash (store_index data') !! sample_hash "which index is used"
      = Some r2 ∧
    by_semantic_hash (store_index data') !! sample_hash example_q = Some r1 ∧
    by_topic (store_index data') !! "db"%string = Some [r1; r2] ∧
    by_topic (store_index data') !! "perf"%string = Some [r2].
Proof.
  intros run r1 r2.
  assert (index_consistent logged_once) as Hc.
  { apply (add_qa_index_consistent (H:=first_occurrence_order) sample_hash
             "2024-01-01T00:00:00Z" WriteOk fresh_store logged_once "s1"
             "alice" example_q (Some example_a) (Some ["db"%string]) None).
    - split; [apply map_Forall_empty
             | split; [constructor | apply map_Forall_empty]].
    - reflexivity. }
  split; [exact Hc|]. split; [reflexivity|].
  destruct (@append_keeps_indices_consistent first_occurrence_order
              sample_hash "2024-01-02T00:00:00Z" logged_once "s1" "bob"
              "which index is used" (Some "the primary one"%string)
              (Some ["db"%string; "perf"%string]) None Hc) as [_ Happ].
  assert (∃ s, find_session "s1" (sessions logged_once) = Some s)
    as [s Hs] by (eexists; reflexivity).
  specialize (Happ s Hs). cbv zeta in Happ.
  destruct Happ as (Hr & data' & Hf & Hc' & Hres & Hrec & Hhash & _).
  split; [exact Hr|].
  assert (get_next_seq (Content logged_once) "s1" = 2) as Hn by reflexivity.
  rewrite Hn in *.
  assert (data' = match file_after run with
                  | Content d => d
                  | _ => fresh_store
                  end) as Hd by (subst run; by rewrite Hf).
  exists data'. split; [exact Hf|]. split; [exact Hc'|].
  split; [exact Hres|]. split; [by rewrite Hrec|].
  split; [by rewrite Hhash, lookup_insert_eq|].
  split; [rewrite Hhash, lookup_insert_ne; [reflexivity | discriminate]|].
  rewrite Hd. split; vm_compute; reflexivity.
Defined.

(** ** The recent-context window *)

Lemma slice_from_zero {A} (l : list A) : slice_from 0 l = l.
Proof.
  unfold slice_from. simpl.
  replace (Z.min 0 (Z.of_nat (length l))) with 0 by lia. done.
Qed.

Lemma recent_window_zero {A} (l : list A) : recent_window 0 l = l.
Proof.
  unfold recent_window.
  rewrite (proj2 (Z.leb_le 0 (Z.of_nat (length l)))) by lia.
  apply slice_from_zero.
Qed.

(** A window larger than the sequence also gives the whole sequence. *)
Lemma recent_window_large {A} (window : Z) (l : list A) :
  Z.of_nat (length l) < window -> recent_window window l = l.
Proof.
  intros Hw. unfold recent_window.
  by rewrite (proj2 (Z.leb_gt window (Z.of_nat (length l)))).
Qed.

(** A window between 1 and the length gives the last [window] entries. *)
Lemma recent_window_last {A} (window : Z) (l : list A) :
  0 < window <= Z.of_nat (length l) ->
  recent_window window l = drop (length l - Z.to_nat window) l.
Proof.
  intros Hw. unfold recent_window, slice_from.
  rewrite (proj2 (Z.leb_le window (Z.of_nat (length l)))) by lia.
  rewrite (proj2 (Z.ltb_lt (- window) 0)) by lia.
  f_equal. lia.
Qed.

Lemma concat_nonempty sep x l :
  x ∈ l -> x ≠ ""%string -> String.concat sep l ≠ ""%string.
Proof.
  induction l as [|y l IH]; [set_solver|].
  intros Hin Hx. destruct l as [|z l].
  - apply list_elem_of_singleton in Hin as <-. done.
  - change (String.concat sep (y :: z :: l))
      with (String.append y (String.append sep (String.concat sep (z :: l)))).
    destruct y as [|c y]; [|done]. simpl.
    apply elem_of_cons in Hin as [->|Hin]; [done|].
    specialize (IH Hin Hx).
    destruct sep; simpl; [done | done].
Qed.

(** C10. For a session that has entries, [get_recent_context] with window
    0 returns every entry of the session in the original order, not the
    empty list; and [load_recent_qa_context] with window 0 renders every
    entry of every session of that name, so its text is not empty. *)
Theorem window_zero_returns_whole_session (data : store) (sid : string)
    (s : session) :
  find_session sid (sessions data) = Some s -> qa_sequence s ≠ [] ->
  get_recent_context data sid 0 = map recent_pair_of (qa_sequence s) ∧
  get_recent_context data sid 0 ≠ [] ∧
  ∃ text,
    load_recent_qa_context (Content data) sid 0 = Return text ∧
    text ≠ ""%string ∧
    text = String.concat newline
             (flat_map
                (fun t =>
                   if bool_decide (session_id t = sid) then
                     match qa_sequence t with
                     | [] => []
                     | qs => ["## Recent Conversation Context"; ""]%string
                             ++ flat_map entry_lines qs
                     end
                   else [])
                (sessions data)).
Proof.
  intros Hs Hne.
  assert (get_recent_context data sid 0 = map recent_pair_of (qa_sequence s))
    as Hget.
  { unfold get_recent_context. by rewrite Hs, recent_window_zero. }
  split; [done|]. split.
  { rewrite Hget. by destruct (qa_sequence s). }
  assert (∀ t, session_lines 0 t =
               match qa_sequence t with
               | [] => []
               | qs => ["## Recent Conversation Context"; ""]%string
                       ++ flat_map entry_lines qs
               end) as Hlines.
  { intros t. unfold session_lines. rewrite recent_window_zero.
    by destruct (qa_sequence t). }
  eexists. split; [reflexivity|]. split.
  - apply (concat_nonempty _ "## Recent Conversation Context"); [|done].
    apply list_elem_of_In, in_flat_map. exists s.
    apply find_session_Some in Hs as (pre & post & Hd & Hid & _).
    split; [rewrite Hd; apply in_or_app; right; by left|].
    rewrite bool_decide_eq_true_2, Hlines by done.
    destruct (qa_sequence s); [done | by left].
  - f_equal. apply flat_map_ext. intros t. by rewrite Hlines.
Qed.

Lemma window_zero_returns_whole_session_witness :
  get_recent_context logged_once "s1" 0
  = map recent_pair_of
      (qa_sequence
         {| session_id := "s1"; last_updated := "2024-01-01T00:00:00Z";
            qa_sequence := flat_map qa_sequence (sessions logged_once) |}) ∧
  get_recent_context logged_once "s1" 0 ≠ [].
Proof.
  refine (let H := window_zero_returns_whole_session logged_once "s1"
                     {| session_id := "s1";
                        last_updated := "2024-01-01T00:00:00Z";
                        qa_sequence := flat_map qa_sequence (sessions logged_once) |}
                     _ _ in conj (proj1 H) (proj1 (proj2 H))).
  - vm_compute. reflexivity.
  - vm_compute. discriminate.
Defined.

(** ** The stable sort *)

Section StableSortFacts.
Context {A K : Type} (lt : K -> K -> bool) (key : A -> K).

Local Abbreviation not_after := (not_after lt key).

Hypothesis lt_asym : ∀ a b, lt a b = true -> lt b a = false.
Hypothesis not_lt_trans :
  ∀ a b c, lt b a = false -> lt c b = false -> lt c a = false.

Lemma insert_by_perm x l : insert_by lt key x l ≡ₚ x :: l.
Proof.
  induction l as [|y l IH]; simpl; [done|].
  destruct (lt (key y) (key x)); [|done].
  by rewrite IH, Permutation_swap.
Qed.

Lemma sort_by_perm l : sort_by lt key l ≡ₚ l.
Proof.
  induction l as [|x l IH]; simpl; [done|].
  by rewrite insert_by_perm, IH.
Qed.

Lemma sort_by_length l : length (sort_by lt key l) = length l.
Proof. apply Permutation_length, sort_by_perm. Qed.

Lemma insert_by_sorted x l :
  StronglySorted not_after l -> StronglySorted not_after (insert_by lt key x l).
Proof.
  induction 1 as [|y l Hl IH Hy]; simpl.
  - by repeat constructor.
  - destruct (lt (key y) (key x)) eqn:Hyx.
    + constructor; [done|].
      rewrite insert_by_perm. constructor; [|done].
      by apply lt_asym.
    + constructor; [by constructor|].
      constructor; [done|].
      eapply Forall_impl; [exact Hy|]. intros z Hz.
      unfold not_after in *. by eapply not_lt_trans.
Qed.

Lemma sort_by_sorted l : StronglySorted not_after (sort_by lt key l).
Proof.
  induction l as [|x l IH]; simpl; [constructor | by apply insert_by_sorted].
Qed.

(** Equal keys keep their order: the sort is stable. *)
Lemma insert_by_filter (p : A -> bool) x l :
  (∀ y, y ∈ l -> p y = true -> p x = true -> lt (key y) (key x) = false) ->
  filter (fun y => p y = true) (insert_by lt key x l)
  = filter (fun y => p y = true) (x :: l).
Proof.
  induction l as [|y l IH]; intros Hl; simpl; [done|].
  destruct (lt (key y) (key x)) eqn:Hyx; [|done].
  rewrite filter_cons. rewrite (filter_cons _ x), (filter_cons _ y).
  rewrite IH by (intros z Hz; apply Hl; by apply elem_of_cons; right).
  rewrite (filter_cons _ x).
  destruct (decide (p y = true)) as [Hpy|]; [|done].
  destruct (decide (p x = true)) as [Hpx|]; [|done].
  rewrite Hl in Hyx; [done | by apply elem_of_cons; left | done | done].
Qed.

Lemma sort_by_stable (p : A -> bool) l :
  (∀ x y, p x = true -> p y = true -> lt (key y) (key x) = false) ->
  filter (fun y => p y = true) (sort_by lt key l)
  = filter (fun y => p y = true) l.
Proof.
  intros Hp. induction l as [|x l IH]; simpl; [done|].
  rewrite insert_by_filter by (intros y _ Hy Hx; by apply Hp).
  by rewrite !filter_cons, IH.
Qed.

End StableSortFacts.

Lemma StronglySorted_take {A} (R : A -> A -> Prop) n l :
  StronglySorted R l -> StronglySorted R (take n l).
Proof.
  intros Hl. revert n. induction Hl as [|x l Hl IH Hx]; intros [|n]; simpl;
    try constructor; [apply IH|].
  eapply Forall_forall. intros y Hy.
  eapply Forall_forall in Hx; [exact Hx|].
  eapply elem_of_sublist; [exact Hy | apply sublist_take].
Qed.

Lemma slice_to_take {A} (stop : Z) (l : list A) :
  ∃ n, slice_to stop l = take n l ∧ (0 <= stop -> Z.of_nat n <= stop) ∧
       (Z.of_nat (length l) <= stop -> n = length l).
Proof.
  unfold slice_to. eexists. split; [reflexivity|].
  destruct (stop <? 0) eqn:Hs; [apply Z.ltb_lt in Hs | apply Z.ltb_ge in Hs];
    split; lia.
Qed.

(** ** The query engine *)

Lemma Qltb_lt x y : Qltb x y = true ↔ (x < y)%Q.
Proof.
  unfold Qltb. rewrite Qlt_alt. destruct (x ?= y)%Q; split; congruence.
Qed.

Lemma Qltb_ge x y : Qltb x y = false ↔ (y <= x)%Q.
Proof.
  rewrite <- not_true_iff_false, Qltb_lt. split; [apply Qnot_lt_le | apply Qle_not_lt].
Qed.

Lemma key_lt_spec k1 k2 :
  key_lt k1 k2 = true ↔
  (k1.1 < k2.1 ∨ (k1.1 == k2.1 ∧ k1.2 < k2.2))%Q.
Proof.
  unfold key_lt.
  destruct (k1.1 ?= k2.1)%Q eqn:H1.
  - apply Qeq_alt in H1.
    destruct (k1.2 ?= k2.2)%Q eqn:H2.
    + apply Qeq_alt in H2. split; [done|]. intros [?|[_ ?]]; lra.
    + apply Qlt_alt in H2. split; [by right|done].
    + apply Qgt_alt in H2. split; [done|]. intros [?|[_ ?]]; lra.
  - apply Qlt_alt in H1. split; [by left | done].
  - apply Qgt_alt in H1. split; [done|]. intros [?|[? _]]; lra.
Qed.

Lemma key_lt_false k1 k2 :
  key_lt k1 k2 = false ↔
  (k2.1 < k1.1 ∨ (k1.1 == k2.1 ∧ k2.2 <= k1.2))%Q.
Proof.
  rewrite <- not_true_iff_false, key_lt_spec. split.
  - intros Hn.
    destruct (Qlt_le_dec k2.1 k1.1) as [?|Hle1]; [by left|]. right.
    destruct (Qlt_le_dec k1.1 k2.1) as [?|Hle2]; [destruct Hn; by left|].
    assert (k1.1 == k2.1)%Q as Heq by lra. split; [done|].
    destruct (Qlt_le_dec k1.2 k2.2) as [?|?]; [destruct Hn; by right | done].
  - intros [?|[? ?]] [?|[? ?]]; lra.
Qed.

Lemma key_lt_asym a b : key_lt a b = true -> key_lt b a = false.
Proof.
  rewrite key_lt_spec, key_lt_false. intros [?|[? ?]]; [by left|].
  right. split; lra.
Qed.

Lemma key_lt_not_trans a b c :
  key_lt b a = false -> key_lt c b = false -> key_lt c a = false.
Proof.
  rewrite !key_lt_false.
  intros [?|[? ?]] [?|[? ?]]; try (left; lra). right. split; lra.
Qed.

(** The key of a hit whose timestamp is a number. *)
Lemma keyed_numeric l :
  Forall (fun h => ∃ t, hit_timestamp h = TsNum t) l ->
  keyed l = Return (map (fun h => (h, (- hit_score h, - time_of h)%Q)) l).
Proof.
  induction 1 as [|h l [t Ht] _ IH]; simpl; [done|].
  unfold sort_key, time_of. rewrite Ht. simpl. by rewrite IH.
Qed.

(** One string timestamp among the hits makes the sort raise. *)
Lemma keyed_string l h s :
  h ∈ l -> hit_timestamp h = TsStr s -> keyed l = Raise TypeError.
Proof.
  intros Hin Hs. induction l as [|x l IH]; [by apply elem_of_nil in Hin|].
  simpl. unfold sort_key at 1.
  destruct (hit_timestamp x) as [s'|t] eqn:Hx; [done|]. simpl.
  apply elem_of_cons in Hin as [->|Hin]; [congruence|].
  by rewrite IH.
Qed.

Lemma keyed_Return l ks :
  keyed l = Return ks ->
  Forall (fun h => ∃ t, hit_timestamp h = TsNum t) l.
Proof.
  revert ks. induction l as [|x l IH]; intros ks; simpl; [by constructor|].
  unfold sort_key at 1. destruct (hit_timestamp x) as [s|t] eqn:Hx; [done|].
  simpl. destruct (keyed l) as [r| |] eqn:Hk; simpl; try done.
  intros _. constructor; [by exists t | by eapply IH].
Qed.

Lemma sorted_keys_ranked (l : list hit) :
  StronglySorted (not_after key_lt snd)
    (map (fun h => (h, (- hit_score h, - time_of h)%Q)) l) ->
  StronglySorted ranked l.
Proof.
  induction l as [|x l IH]; simpl; [constructor|].
  intros Hs. apply StronglySorted_inv in Hs as [Hl Hx].
  constructor; [by apply IH|].
  apply Forall_forall. intros y Hy.
  rewrite Forall_forall in Hx.
  specialize (Hx (y, (- hit_score y, - time_of y)%Q)).
  unfold not_after in Hx. simpl in Hx.
  assert (key_lt (- hit_score y, - time_of y)%Q (- hit_score x, - time_of x)%Q
          = false) as Hk.
  { apply Hx. apply list_elem_of_fmap. by exists y. }
  apply key_lt_false in Hk. simpl in Hk. unfold ranked.
  destruct Hk as [?|[? ?]]; [left; lra | right; split; lra].
Qed.

Section LoaderFacts.
Context `{PySetOrder}.

(** What the two loops collect: the hits of the entries that pass the
    session filter and the significance filter. *)
Lemma elem_of_relevant_of data qt sid min_sig h :
  h ∈ relevant_of data qt sid min_sig ↔
  ∃ s qa, s ∈ sessions data ∧ qa ∈ qa_sequence s ∧
          session_skipped sid s = false ∧
          low_significance min_sig qa = false ∧
          h = make_hit sid s qt qa.
Proof.
  unfold relevant_of. rewrite list_elem_of_In, in_flat_map. split.
  - intros (s & Hs%list_elem_of_In & Hh).
    destruct (session_skipped sid s) eqn:Hskip; [done|].
    apply list_elem_of_In, list_elem_of_fmap in Hh as (qa & -> & Hqa).
    apply list_elem_of_filter in Hqa as [Hlow Hqa].
    by exists s, qa.
  - intros (s & qa & Hs & Hqa & Hskip & Hlow & ->).
    exists s. split; [by apply list_elem_of_In|]. rewrite Hskip.
    apply list_elem_of_In, list_elem_of_fmap. exists qa. split; [done|].
    by apply list_elem_of_filter.
Qed.

(** When every collected hit has a numeric timestamp, the call returns
    the collected hits ranked by score, then by recency, cut at the
    limit. *)
Lemma find_relevant_pairs_numeric data query sid limit min_sig :
  let relevant :=
    relevant_of data (remove_dups (extract_tokens query)) sid min_sig in
  Forall (fun h => ∃ t, hit_timestamp h = TsNum t) relevant ->
  ∃ sorted n,
    find_relevant_pairs data query sid limit min_sig = Return (take n sorted) ∧
    sorted ≡ₚ relevant ∧
    StronglySorted ranked sorted ∧
    (0 <= limit -> Z.of_nat n <= limit) ∧
    (Z.of_nat (length relevant) <= limit -> take n sorted = sorted).
Proof.
  intros relevant Hnum. unfold find_relevant_pairs. fold relevant.
  rewrite (keyed_numeric _ Hnum). simpl.
  set (ks := map (fun h => (h, (- hit_score h, - time_of h)%Q)) relevant).
  set (sorted := map fst (sort_by key_lt snd ks)).
  assert (sort_by key_lt snd ks
          = map (fun h => (h, (- hit_score h, - time_of h)%Q)) sorted) as Hks.
  { unfold sorted. rewrite <- list_fmap_compose.
    symmetry. etrans; [|apply list_fmap_id].
    apply Forall_fmap_ext. rewrite (sort_by_perm key_lt snd ks).
    unfold ks. apply Forall_fmap, Forall_forall. by intros h _. }
  assert (sorted ≡ₚ relevant) as Hperm.
  { unfold sorted. rewrite (sort_by_perm key_lt snd ks). unfold ks.
    rewrite <- list_fmap_compose. apply reflexive_eq, list_fmap_id. }
  destruct (slice_to_take limit sorted) as (n & Hn & Hle & Hall).
  exists sorted, n. rewrite Hn.
  split; [done|]. split; [done|]. split; [|split; [done|]].
  - apply sorted_keys_ranked. rewrite <- Hks.
    apply sort_by_sorted; [apply key_lt_asym | apply key_lt_not_trans].
  - intros Hlim. rewrite Hall; [apply firstn_all|].
    by rewrite (Permutation_length Hperm).
Qed.

(** A string timestamp among the collected hits makes the call raise. *)
Lemma find_relevant_pairs_string data query sid limit min_sig h s :
  h ∈ relevant_of data (remove_dups (extract_tokens query)) sid min_sig ->
  hit_timestamp h = TsStr s ->
  find_relevant_pairs data query sid limit min_sig = Raise TypeError.
Proof.
  intros Hin Hs. unfold find_relevant_pairs.
  by rewrite (keyed_string _ h s Hin Hs).
Qed.

End LoaderFacts.

Lemma low_significance_false `{PySetOrder} min_sig qa :
  low_significance min_sig qa = false ↔
  ¬ (Text.truthy (qa_a qa) = true ∧ (qa_a_significance qa < min_sig)%Q).
Proof.
  unfold low_significance.
  rewrite <- not_true_iff_false, andb_true_iff, Qltb_lt. done.
Qed.

(** The hit of an entry is collected exactly when the entry is not one
    with an answer and a significance below the minimum. *)
Lemma make_hit_collected `{PySetOrder} data qt sid min_sig s qa :
  s ∈ sessions data -> qa ∈ qa_sequence s -> session_skipped sid s = false ->
  make_hit sid s qt qa ∈ relevant_of data qt sid min_sig ↔
  ¬ (Text.truthy (qa_a qa) = true ∧ (qa_a_significance qa < min_sig)%Q).
Proof.
  intros Hs Hqa Hskip.
  rewrite <- low_significance_false, elem_of_relevant_of. split.
  - intros (s' & qa' & _ & _ & _ & Hlow & Heq').
    unfold low_significance in *.
    assert (qa_a qa = qa_a qa') as -> by exact (f_equal hit_a Heq').
    by assert (qa_a_significance qa = qa_a_significance qa') as ->
      by exact (f_equal hit_significance Heq').
  - intros Hlow. by exists s, qa.
Qed.

(** C6. In every call of [find_relevant_pairs], an entry of a session that
    passes the session filter is collected into [relevant] exactly when it
    is not the case that it has an answer and a significance below
    [min_significance]: an entry with an answer is dropped exactly when its
    significance is below the minimum, and an entry without answer is never
    dropped.  Whenever the call returns, no returned hit has an answer and
    a significance below the minimum, and when the limit cuts nothing the
    same "exactly when" holds of the returned list.  The call does return
    when the collected timestamps are numbers. *)
Theorem min_significance_filter `{PySetOrder} (data : store) (query : string)
    (sid : option string) (limit : Z) (min_significance : Q) :
  let query_tokens := remove_dups (extract_tokens query) in
  let relevant := relevant_of data query_tokens sid min_significance in
  let dropped qa :=
    Text.truthy (qa_a qa) = true ∧
    (qa_a_significance qa < min_significance)%Q in
  (∀ s qa, s ∈ sessions data -> qa ∈ qa_sequence s ->
           session_skipped sid s = false ->
     (make_hit sid s query_tokens qa ∈ relevant ↔ ¬ dropped qa) ∧
     (Text.truthy (qa_a qa) = false ->
      make_hit sid s query_tokens qa ∈ relevant)) ∧
  (∀ res,
     find_relevant_pairs data query sid limit min_significance = Return res ->
     (∀ h, h ∈ res ->
           ¬ (Text.truthy (hit_a h) = true ∧
              (hit_significance h < min_significance)%Q)) ∧
     (Z.of_nat (length relevant) <= limit ->
      ∀ s qa, s ∈ sessions data -> qa ∈ qa_sequence s ->
              session_skipped sid s = false ->
        (make_hit sid s query_tokens qa ∈ res ↔ ¬ dropped qa))) ∧
  (Forall (fun h => ∃ t, hit_timestamp h = TsNum t) relevant ->
   ∃ res,
     find_relevant_pairs data query sid limit min_significance = Return res).
Proof.
  intros qt relevant dropped. split; [|split].
  - intros s qa Hs Hqa Hskip.
    pose proof (make_hit_collected data qt sid min_significance s qa
                  Hs Hqa Hskip) as Hin.
    split; [exact Hin|]. intros Hno. apply Hin. intros [Hyes _]. congruence.
  - intros res Hres.
    assert (Forall (fun h => ∃ t, hit_timestamp h = TsNum t) relevant) as Hnum.
    { revert Hres. unfold find_relevant_pairs. fold qt. fold relevant.
      destruct (keyed _) as [ks| |] eqn:Hk; [|done..]. intros _.
      by eapply keyed_Return. }
    destruct (find_relevant_pairs_numeric data query sid limit min_significance
                Hnum) as (sorted & n & Heq & Hperm & _ & _ & Hall).
    fold qt in Hperm, Hall. fold relevant in Hperm, Hall.
    rewrite Heq in Hres. injection Hres as <-. split.
    + intros h Hh.
      assert (h ∈ relevant) as Hrel.
      { rewrite <- Hperm. eapply elem_of_sublist; [exact Hh | apply sublist_take]. }
      apply elem_of_relevant_of in Hrel as (s & qa & _ & _ & _ & Hlow & ->).
      by apply low_significance_false.
    + intros Hlim s qa Hs Hqa Hskip. rewrite (Hall Hlim), Hperm.
      by apply make_hit_collected.
  - intros Hnum.
    destruct (find_relevant_pairs_numeric data query sid limit min_significance
                Hnum) as (sorted & n & Heq & _).
    by exists (take n sorted).
Qed.

Lemma min_significance_filter_witness :
  ∃ res,
    find_relevant_pairs (H:=first_occurrence_order) numeric_store
      "database design" None 5 (5 # 10) = Return res ∧
    length res = 3%nat ∧
    (∀ h, h ∈ res ->
          ¬ (Text.truthy (hit_a h) = true ∧ (hit_significance h < 5 # 10)%Q)) ∧
    ∀ s qa, s ∈ sessions numeric_store -> qa ∈ qa_sequence s ->
            session_skipped None s = false ->
      (make_hit None s
         (remove_dups (extract_tokens (H:=first_occurrence_order)
                         "database design")) qa ∈ res ↔
       ¬ (Text.truthy (qa_a qa) = true ∧ (qa_a_significance qa < 5 # 10)%Q)).
Proof.
  destruct (@min_significance_filter first_occurrence_order numeric_store
              "database design" None 5 (5 # 10)) as (_ & Hres & Hret).
  destruct Hret as [res Hret].
  { vm_compute. repeat constructor; by eexists. }
  exists res. split; [exact Hret|].
  destruct (Hres res Hret) as [Hkept Hexact].
  split; [|split; [exact Hkept | apply Hexact; vm_compute; discriminate]].
  assert (Return res = find_relevant_pairs (H:=first_occurrence_order)
                         numeric_store "database design" None 5 (5 # 10))
    as Heq by (by rewrite Hret).
  vm_compute in Heq. by injection Heq as ->.
Defined.

(** C1 (the code at a document written by [add_qa]). After any successful
    [add_qa], a query over all sessions with the default minimum
    significance 0 does not return a ranked list: building the sort key
    negates the ISO-8601 string timestamp of the new entry, and the call
    raises [TypeError], whatever the query text and the limit. *)
Theorem find_relevant_pairs_raises_after_append `{PySetOrder}
    (hash_text : string -> string) (now : string) (w : write_result)
    (fs : file store) (sid user q : string) (a : option string)
    (topic_tags : option (list string)) (significance : option Q)
    (data' : store) (query : string) (limit : Z) :
  result (add_qa hash_text now w fs sid user q a topic_tags significance)
  = Return true ->
  file_after (add_qa hash_text now w fs sid user q a topic_tags significance)
  = Content data' ->
  find_relevant_pairs data' query None limit 0 = Raise TypeError.
Proof.
  intros Hres Hfile.
  apply add_qa_true in Hres
    as (data & pre & s & post & -> & -> & Hd & Hs & Hpre & Hfile').
  rewrite Hfile' in Hfile. injection Hfile as <-.
  set (e := new_entry hash_text (get_next_seq (Content data) sid) now user q a
              topic_tags (stored_significance q a significance)).
  set (s' := {| session_id := session_id s; last_updated := now;
                qa_sequence := qa_sequence s ++ [e] |}).
  eapply (find_relevant_pairs_string _ _ _ _ _
            (make_hit None s' (remove_dups (extract_tokens query)) e) now);
    [|done].
  apply elem_of_relevant_of. exists s', e. simpl.
  split; [apply elem_of_app; right; apply elem_of_cons; by left|].
  split; [apply elem_of_app; right; by apply list_elem_of_singleton|].
  split; [done|]. split; [|done].
  apply low_significance_false. intros [_ Hlt]. simpl in Hlt.
  pose proof (clamp_bounds (match significance with
                            | Some x => x
                            | None => score_significance q a
                            end)) as [Hge _].
  unfold stored_significance in Hlt. lra.
Qed.

Lemma find_relevant_pairs_raises_after_append_witness :
  find_relevant_pairs (H:=first_occurrence_order) logged_once
    "database architecture" None 5 0 = Raise TypeError.
Proof.
  apply (@find_relevant_pairs_raises_after_append first_occurrence_order
           sample_hash "2024-01-01T00:00:00Z" WriteOk (Content fresh_store)
           "s1" "alice" example_q (Some example_a) (Some ["db"]) None);
    reflexivity.
Defined.

(** ** The summarizer *)

(** C3 (what the code does on the three read failures). A missing
    snapshot directory and a missing metadata file are returned by
    [read_extracted_files] as an error value, which
    [analyze_conversations] passes on and [generate_report] turns into a
    one-line error message.  Malformed metadata is not: the decoding error
    leaves [read_extracted_files] as an uncaught [JSONDecodeError], and the
    script ends with it before any report is made. *)
Theorem read_failures (fmt2f : Q -> string) (path : string)
    (rest : list (file snapshot_meta))
    (qd ad : option (gmap string string)) :
  let no_dir := ("Directory not found: " ++ path)%string in
  let no_meta := ("No metadata file found in " ++ path)%string in
  let empty_dir :=
    {| metadata_files := []; questions_dir := qd; answers_dir := ad |} in
  let bad_dir :=
    {| metadata_files := Malformed :: rest; questions_dir := qd;
       answers_dir := ad |} in
  (read_extracted_files path None = Return (ExtractedError no_dir) ∧
   analyze_conversations (ExtractedError no_dir) = Return (AnalysisError no_dir) ∧
   generate_report fmt2f (AnalysisError no_dir) = ("❌ Error: " ++ no_dir)%string) ∧
  (read_extracted_files path (Some empty_dir) = Return (ExtractedError no_meta) ∧
   analyze_conversations (ExtractedError no_meta)
   = Return (AnalysisError no_meta) ∧
   generate_report fmt2f (AnalysisError no_meta) = ("❌ Error: " ++ no_meta)%string ∧
   summarize_main fmt2f path (Some empty_dir)
   = {| main_result := Return tt;
        main_report := Some ("❌ Error: " ++ no_meta)%string;
        analysis_file := Some (AnalysisError no_meta) |}) ∧
  (read_extracted_files path (Some bad_dir) = Raise JSONDecodeError ∧
   summarize_main fmt2f path (Some bad_dir)
   = {| main_result := Raise JSONDecodeError;
        main_report := None;
        analysis_file := None |}).
Proof. by repeat split. Qed.

(** With the directory missing the error report is printed, and then the
    script fails to create [analysis.json] in the missing directory. *)
Lemma summarize_main_missing_directory (fmt2f : Q -> string) (path : string) :
  summarize_main fmt2f path None
  = {| main_result := Raise FileNotFoundError;
       main_report := Some ("❌ Error: Directory not found: " ++ path)%string;
       analysis_file := None |}.
Proof. done. Qed.

Lemma sum_sig_from (ans : list meta_answer) (x : Q) :
  (fold_left (fun acc a => acc + sig_of a) ans x == x + sum_sig ans)%Q.
Proof.
  unfold sum_sig. revert x. induction ans as [|a ans IH]; intros x; simpl.
  - lra.
  - rewrite (IH (x + sig_of a)%Q), (IH (0 + sig_of a)%Q). lra.
Qed.

Lemma is_high_spec a : is_high a = true ↔ (85 # 100 <= sig_of a)%Q.
Proof. unfold is_high. by rewrite negb_true_iff, Qltb_ge. Qed.

Lemma is_low_spec a : is_low a = true ↔ (sig_of a < 5 # 10)%Q.
Proof.
  unfold is_low. rewrite andb_true_iff, negb_true_iff, Qltb_lt.
  rewrite <- not_true_iff_false, is_high_spec. split; [by intros [_ ?]|].
  intros Hlt. split; [lra | done].
Qed.

(** With the answers directory missing, six listed answers of mean
    significance 0.9 do not give the high-quality pattern. *)
Lemma high_quality_needs_answer_files :
  length (default [] (meta_answers six_answers_meta)) = 6%nat ∧
  (sum_sig (default [] (meta_answers six_answers_meta)) / 6 == 9 # 10)%Q ∧
  ∃ an,
    bind (read_extracted_files "snap" (Some snapshot_without_answer_files))
         analyze_conversations = Return (Analysis an) ∧
    "High quality conversation period"%string ∉ patterns an.
Proof.
  split; [done|]. split; [done|].
  eexists. split; [reflexivity|]. simpl.
  rewrite list_elem_of_In. simpl. intros [?|[]]. discriminate.
Qed.

(** C9 (what the code does). For every snapshot whose metadata lists 6
    answers of mean significance 0.9 the analysis returns; it puts exactly
    the listed answers of significance >= 0.85 in the high-significance
    list and exactly those of significance < 0.5 in the low-significance
    list; but the test that guards the quality patterns counts the answer
    files that were read ([total_answers]), not the listed answers, so
    "High quality conversation period" is among the patterns exactly when
    more than 5 answer files were read, and is missing otherwise. *)
Theorem high_quality_pattern_counts_answer_files (md : snapshot_meta)
    (questions answers : gmap string string) (ans : list meta_answer) :
  meta_answers md = Some ans ->
  length ans = 6%nat ->
  (sum_sig ans / inject_Z (Z.of_nat (length ans)) == 9 # 10)%Q ->
  ∃ an,
    analyze_conversations (Extracted md questions answers)
    = Return (Analysis an) ∧
    (∀ h, h ∈ high_significance_answers an ↔
          ∃ a, a ∈ ans ∧ (85 # 100 <= sig_of a)%Q ∧ h = high_of a) ∧
    (∀ l, l ∈ low_significance_answers an ↔
          ∃ a, a ∈ ans ∧ (sig_of a < 5 # 10)%Q ∧ l = low_of a) ∧
    total_answers an = size answers ∧
    ("High quality conversation period"%string ∈ patterns an ↔
     (5 < size answers)%nat).
Proof.
  intros Hans Hlen Hmean.
  assert (∀ h, h ∈ map high_of (filter is_high ans) ↔
               ∃ a, a ∈ ans ∧ (85 # 100 <= sig_of a)%Q ∧ h = high_of a)
    as Hhigh.
  { intros h. rewrite list_elem_of_fmap. split.
    - intros (a & -> & [Ha ?]%list_elem_of_filter). exists a.
      by rewrite <- is_high_spec, <- Is_true_true.
    - intros (a & Ha & Hs & ->). exists a. split; [done|].
      apply list_elem_of_filter. by rewrite Is_true_true, is_high_spec. }
  assert (∀ l, l ∈ map low_of (filter is_low ans) ↔
               ∃ a, a ∈ ans ∧ (sig_of a < 5 # 10)%Q ∧ l = low_of a)
    as Hlow.
  { intros l. rewrite list_elem_of_fmap. split.
    - intros (a & -> & [Ha ?]%list_elem_of_filter). exists a.
      by rewrite <- is_low_spec, <- Is_true_true.
    - intros (a & Ha & Hs & ->). exists a. split; [done|].
      apply list_elem_of_filter. by rewrite Is_true_true, is_low_spec. }
  unfold analyze_conversations, quality_patterns. rewrite Hans. simpl.
  destruct (5 <? size answers)%nat eqn:Hn.
  - destruct ans as [|a0 ans0] eqn:Hl; [done|]. rewrite <- Hl in *. clear Hl.
    assert (Qltb (8 # 10) (sum_sig ans / inject_Z (Z.of_nat (length ans)))
            = true) as ->.
    { apply Qltb_lt. rewrite Hmean. reflexivity. }
    simpl. eexists. split; [reflexivity|]. simpl.
    split; [exact Hhigh|]. split; [exact Hlow|]. split; [done|].
    split; [intros _; by apply Nat.ltb_lt | intros _; apply elem_of_cons; by left].
  - simpl. eexists. split; [reflexivity|]. simpl.
    split; [exact Hhigh|]. split; [exact Hlow|]. split; [done|].
    split.
    + intros Hin. destruct (top_topic _) as [t|].
      * apply list_elem_of_singleton in Hin. discriminate Hin.
      * by apply elem_of_nil in Hin.
    + intros Hlt%Nat.ltb_lt. congruence.
Qed.

Lemma high_quality_pattern_counts_answer_files_witness :
  ∃ an,
    bind (read_extracted_files "snap" (Some snapshot_without_answer_files))
         analyze_conversations = Return (Analysis an) ∧
    length (high_significance_answers an) = 6%nat ∧
    total_answers an = 0%nat ∧
    "High quality conversation period"%string ∉ patterns an.
Proof.
  destruct (high_quality_pattern_counts_answer_files six_answers_meta ∅ ∅
              (map sample_answer [1; 2; 3; 4; 5; 6]))
    as (an & Han & Hhigh & _ & Htotal & Hpat).
  - reflexivity.
  - reflexivity.
  - vm_compute. reflexivity.
  - exists an. split; [exact Han|].
    split; [|split].
    + assert (an = match analyze_conversations
                           (Extracted six_answers_meta ∅ ∅) with
                   | Return (Analysis x) => x
                   | _ => an
                   end) as -> by (by rewrite Han).
      reflexivity.
    + exact Htotal.
    + intros Hin%Hpat. vm_compute in Hin. lia.
Defined.

(** * Further properties of the code *)

(** ** Tokens *)

Lemma lower_char_not_upper c : Text.is_upper (Text.lower_char c) = false.
Proof.
  unfold Text.lower_char. destruct (Text.is_upper c) eqn:Hc; [|done].
  unfold Text.is_upper in *.
  apply andb_true_iff in Hc as [H1%Nat.leb_le H2%Nat.leb_le].
  rewrite nat_ascii_embedding by lia.
  apply andb_false_iff. right. apply Nat.leb_gt. lia.
Qed.

Lemma lower_chars c s :
  c ∈ list_ascii_of_string (Text.lower s) -> Text.is_upper c = false.
Proof.
  induction s as [|d s IH]; simpl; [by intros ?%elem_of_nil|].
  intros [->|Hc]%elem_of_cons; [apply lower_char_not_upper | auto].
Qed.

Lemma elem_of_rev_1 {A} (x : A) l : x ∈ rev l -> x ∈ l.
Proof. rewrite !list_elem_of_In. apply in_rev. Qed.

(** The run in progress, once flushed. *)
Lemma flushed_run (p : ascii -> bool) cur w :
  Forall (fun c => p c = true) cur ->
  w ∈ match cur with
      | [] => []
      | _ => [string_of_list_ascii (rev cur)]
      end ->
  w ≠ EmptyString ∧
  ∀ c, c ∈ list_ascii_of_string w -> p c = true ∧ c ∈ cur.
Proof.
  intros Hcur. destruct cur as [|c0 cur']; [by intros ?%elem_of_nil|].
  intros ->%list_elem_of_singleton. split.
  - intros Hw. apply (f_equal list_ascii_of_string) in Hw.
    rewrite list_ascii_of_string_of_list_ascii in Hw. simpl in Hw.
    by destruct (rev cur').
  - intros c. rewrite list_ascii_of_string_of_list_ascii.
    intros Hc%elem_of_rev_1. split; [|done].
    eapply Forall_forall in Hcur; eauto.
Qed.

(** Every run is non-empty and made of characters satisfying [p], taken
    from the run in progress or from the text. *)
Lemma runs_from_spec p cur s w :
  Forall (fun c => p c = true) cur ->
  w ∈ Text.runs_from p cur s ->
  w ≠ EmptyString ∧
  ∀ c, c ∈ list_ascii_of_string w ->
       p c = true ∧ (c ∈ cur ∨ c ∈ list_ascii_of_string s).
Proof.
  revert cur. induction s as [|d s IH]; intros cur Hcur; simpl.
  - intros Hw. destruct (flushed_run p cur w Hcur Hw) as [Hne Hall].
    split; [done|]. intros c Hc. destruct (Hall c Hc). auto.
  - destruct (p d) eqn:Hd.
    + intros Hw. destruct (IH (d :: cur) (Forall_cons_2 _ _ _ Hd Hcur) Hw)
        as (Hne & Hall).
      split; [done|].
      intros c Hc. destruct (Hall c Hc) as [Hp [Hin|Hin]]; split; try done.
      * apply elem_of_cons in Hin as [->|Hin]; [right; by left | by left].
      * right. by right.
    + intros [Hw|Hw]%elem_of_app.
      * destruct (flushed_run p cur w Hcur Hw) as [Hne Hall].
        split; [done|]. intros c Hc. destruct (Hall c Hc). auto.
      * destruct (IH [] (Forall_nil_2 _) Hw) as (Hne & Hall).
        split; [done|]. intros c Hc.
        destruct (Hall c Hc) as [Hp [Hin|Hin]]; [by apply elem_of_nil in Hin|].
        split; [done|]. right. by right.
Qed.

Lemma extract_tokens_from_text `{PySetOrder} text tok :
  tok ∈ extract_tokens text ->
  tok ∈ Text.findall_words (Text.lower text).
Proof.
  unfold extract_tokens. intros Hin.
  assert (tok ∈ set_to_list (Text.findall_words (Text.lower text))) as Hset.
  { eapply elem_of_sublist; [exact Hin | apply sublist_take]. }
  rewrite (set_to_list_perm _) in Hset.
  by rewrite elem_of_remove_dups in Hset.
Qed.

(** X1. [extract_tokens] returns at most 20 tokens, without duplicates,
    whatever the text and the set order. *)
Theorem extract_tokens_bounded `{PySetOrder} (text : string) :
  (length (extract_tokens text) <= 20)%nat ∧ NoDup (extract_tokens text).
Proof.
  split; [rewrite extract_tokens_length; lia | apply extract_tokens_NoDup].
Qed.

(** X2. For ASCII text, every token returned by [extract_tokens] has at
    least two characters, all of them word characters (letters, digits,
    underscore) and none an upper-case letter. *)
Theorem extract_tokens_well_formed `{PySetOrder} (text tok : string) :
  ascii_text text = true ->
  tok ∈ extract_tokens text ->
  (2 <= String.length tok)%nat ∧
  ∀ c, c ∈ list_ascii_of_string tok ->
       Text.is_word_char c = true ∧ Text.is_upper c = false.
Proof.
  intros _ Hin%extract_tokens_from_text. unfold Text.findall_words in Hin.
  apply list_elem_of_filter in Hin as [Hlen Hrun]. split.
  - by apply Nat.leb_le.
  - intros c Hc.
    destruct (runs_from_spec _ [] _ _ (Forall_nil_2 _) Hrun) as [_ Hall].
    destruct (Hall c Hc) as [Hp [Hcur|Htext]]; [by apply elem_of_nil in Hcur|].
    split; [done | by eapply lower_chars].
Qed.

Lemma extract_tokens_well_formed_witness :
  (2 <= String.length "database")%nat ∧
  ∀ c, c ∈ list_ascii_of_string "database" ->
       Text.is_word_char c = true ∧ Text.is_upper c = false.
Proof.
  apply (@extract_tokens_well_formed first_occurrence_order
           "How to optimize the DataBase?" "database").
  - reflexivity.
  - vm_compute. repeat constructor.
Defined.

(** ** More on the scorer *)

(** A capped ratio times its weight reaches the weight exactly when the
    ratio reaches 1. *)
Lemma capped_term (n : nat) (d : Z) (w : Q) :
  0 < d -> (0 < w)%Q ->
  let t := (Qmin (inject_Z (Z.of_nat n) / inject_Z d) 1 * w)%Q in
  (0 <= t <= w)%Q ∧ ((t == w)%Q ↔ d <= Z.of_nat n) ∧
  ((0 < t)%Q ↔ (0 < n)%nat).
Proof.
  intros Hd Hw. simpl.
  set (x := (inject_Z (Z.of_nat n) / inject_Z d)%Q).
  assert (0 < inject_Z d)%Q as Hd'.
  { change 0%Q with (inject_Z 0). by rewrite <- Zlt_Qlt. }
  assert ((1 <= x)%Q ↔ d <= Z.of_nat n) as H1.
  { rewrite Zle_Qle. split.
    - intros Hx.
      destruct (Qlt_le_dec (inject_Z (Z.of_nat n)) (inject_Z d)) as [Hlt|]; [|done].
      exfalso. assert (x < 1)%Q; [|lra].
      unfold x. apply Qlt_shift_div_r; [done | lra].
    - intros Hn. unfold x. apply Qle_shift_div_l; [done | lra]. }
  assert ((0 < x)%Q ↔ (0 < n)%nat) as H0.
  { unfold x. split.
    - intros Hx. destruct n; [|lia]. exfalso. revert Hx.
      unfold Qdiv. simpl. rewrite Qmult_0_l. lra.
    - intros Hn. apply Qlt_shift_div_l; [done|]. rewrite Qmult_0_l.
      change 0%Q with (inject_Z 0). rewrite <- Zlt_Qlt. lia. }
  assert (0 <= x)%Q as Hx0.
  { unfold x. apply Qle_shift_div_l; [done|]. rewrite Qmult_0_l.
    change 0%Q with (inject_Z 0). rewrite <- Zle_Qle. lia. }
  destruct (Q.min_spec x 1) as [[Hlt ->] | [Hge ->]].
  - split; [split; nra|]. split.
    + split; [intros Heq; exfalso; nra | intros Hn%H1; lra].
    + rewrite <- H0. split; intros; nra.
  - split; [split; lra|]. split.
    + split; [intros _; by apply H1 | intros _; lra].
    + rewrite <- H0. split; intros; lra.
Qed.

Section ScorerMore.
Context `{PySetOrder}.

Lemma length_factor_max a :
  (length_factor a == 3 # 10)%Q ↔ (500 <= String.length a)%nat.
Proof.
  unfold length_factor.
  destruct (capped_term (String.length a) 500 (3 # 10)) as (_ & Hmax & _);
    [lia | done |].
  simpl in Hmax. rewrite Hmax. lia.
Qed.

Lemma complexity_factor_max q :
  (complexity_factor q == 2 # 10)%Q ↔ (8 <= length (extract_tokens q))%nat.
Proof.
  unfold complexity_factor.
  destruct (capped_term (length (extract_tokens q)) 8 (2 # 10))
    as (_ & Hmax & _); [lia | done |].
  simpl in Hmax. rewrite Hmax. lia.
Qed.

Lemma complexity_factor_pos q :
  (0 < complexity_factor q)%Q ↔ extract_tokens q ≠ [].
Proof.
  unfold complexity_factor.
  destruct (capped_term (length (extract_tokens q)) 8 (2 # 10))
    as (_ & _ & Hpos); [lia | done |].
  simpl in Hpos. rewrite Hpos. destruct (extract_tokens q); simpl; [|split; [done|lia]].
  split; [lia | done].
Qed.

Lemma score_sum (q a : string) :
  (score_significance q (Some a) ==
   length_factor a + complexity_factor q + technical_term a
   + important_term q a + action_term q a)%Q.
Proof.
  pose proof (length_factor_bounds a). pose proof (complexity_factor_bounds q).
  pose proof (technical_term_bounds a). pose proof (important_term_bounds q a).
  pose proof (action_term_bounds q a).
  unfold score_significance. rewrite Q.min_l; lra.
Qed.

(** X3. The cap of [score_significance] never cuts: the five terms add up
    to at most 1, so for an answer that is not [None] the score is their
    plain sum, which is at most 1. *)
Theorem score_is_sum_of_terms (q a : string) :
  (score_significance q (Some a) ==
   length_factor a + complexity_factor q + technical_term a
   + important_term q a + action_term q a)%Q ∧
  (length_factor a + complexity_factor q + technical_term a
   + important_term q a + action_term q a <= 1)%Q.
Proof.
  split; [apply score_sum|].
  pose proof (length_factor_bounds a). pose proof (complexity_factor_bounds q).
  pose proof (technical_term_bounds a). pose proof (important_term_bounds q a).
  pose proof (action_term_bounds q a). lra.
Qed.

(** X4. For an ASCII question and an ASCII answer, [score_significance]
    gives the full score 1 exactly when all five terms are at their
    maximum: an answer of at least 500 characters, a question of at least
    8 tokens, and a technical, an importance and an action keyword
    found. *)
Theorem score_full_marks (q a : string) :
  ascii_text q = true -> ascii_text a = true ->
  (score_significance q (Some a) == 1)%Q ↔
  (500 <= String.length a)%nat ∧
  (8 <= length (extract_tokens q))%nat ∧
  any_in technical_keywords (Text.lower a) = true ∧
  any_in_either important_keywords (Text.lower a) (Text.lower q) = true ∧
  any_in_either action_keywords (Text.lower a) (Text.lower q) = true.
Proof.
  intros _ _.
  rewrite <- length_factor_max, <- complexity_factor_max.
  pose proof (length_factor_bounds a). pose proof (complexity_factor_bounds q).
  pose proof (score_sum q a) as Hsum.
  unfold technical_term, important_term, action_term in *.
  destruct (any_in technical_keywords _),
           (any_in_either important_keywords _ _),
           (any_in_either action_keywords _ _);
    (split; [intros Hone; rewrite Hsum in Hone;
             try (exfalso; lra); repeat split; lra
            | intros (? & ? & ? & ? & ?); try done; rewrite Hsum; lra]).
Qed.

(** X5. An empty-string answer is not treated as a missing one: it is
    scored from the question alone (complexity, importance and action
    terms), so any question with at least one token gets a positive
    significance, while a [None] answer always gets 0. *)
Theorem empty_answer_is_scored (q : string) :
  (score_significance q (Some "") ==
   complexity_factor q + important_term q "" + action_term q "")%Q ∧
  (extract_tokens q ≠ [] -> (0 < score_significance q (Some ""))%Q) ∧
  score_significance q None = 0%Q.
Proof.
  pose proof (score_sum q "") as Hsum.
  assert (length_factor "" == 0)%Q as Hlen by (vm_compute; reflexivity).
  assert (technical_term "" = 0%Q) as Htech by (vm_compute; reflexivity).
  rewrite Hlen, Htech in Hsum.
  split; [rewrite Hsum; lra|]. split; [|done].
  intros Hq%complexity_factor_pos. rewrite Hsum.
  pose proof (important_term_bounds q ""). pose proof (action_term_bounds q "").
  lra.
Qed.

End ScorerMore.

Lemma empty_answer_is_scored_witness :
  (0 < score_significance (H:=first_occurrence_order) example_q (Some ""))%Q.
Proof.
  apply (proj1 (proj2 (@empty_answer_is_scored first_occurrence_order example_q))).
  vm_compute. discriminate.
Defined.

(** ** More on the logger *)

Section LoggerMore.
Context `{PySetOrder}.
Variable hash_text : string -> string.

(** The shape of one successful append. *)
Lemma appends_to_shape data data' :
  appends_to hash_text data data' ->
  ∃ now sid user q a topic_tags sig pre s post,
    sessions data = pre ++ s :: post ∧ session_id s = sid ∧
    Forall (fun t => session_id t ≠ sid) pre ∧
    data' =
      {| store_metadata := update_metadata now a (store_metadata data);
         sessions :=
           pre ++
           {| session_id := session_id s; last_updated := now;
              qa_sequence :=
                qa_sequence s ++
                [new_entry hash_text (get_next_seq (Content data) sid) now
                   user q a topic_tags sig] |} :: post;
         store_index :=
           update_index hash_text sid (get_next_seq (Content data) sid) now q
             topic_tags (store_index data) |}.
Proof.
  intros (now & sid & user & q & a & tags & sig & Hr & Hf).
  apply add_qa_true in Hr as (d & pre & s & post & [= <-] & _ & Hd & Hs & Hpre & Hfile).
  rewrite Hfile in Hf. injection Hf as <-.
  by exists now, sid, user, q, a, tags, (stored_significance q a sig), pre, s, post.
Qed.

(** X6. [add_qa] returns [True] exactly when the index file decodes, holds
    a session of the given name, and the final write goes through. *)
Theorem add_qa_succeeds_iff (now : string) (w : write_result)
    (fs : file store) (sid user q : string) (a : option string)
    (topic_tags : option (list string)) (significance : option Q) :
  result (add_qa hash_text now w fs sid user q a topic_tags significance)
  = Return true ↔
  w = WriteOk ∧
  ∃ data s, fs = Content data ∧ find_session sid (sessions data) = Some s.
Proof.
  split.
  - intros (data & pre & s & post & -> & -> & Hd & Hs & Hpre & _)%add_qa_true.
    split; [done|]. exists data, s. split; [done|].
    rewrite Hd. by apply find_session_split.
  - intros (-> & data & s & -> & Hs). by eapply add_qa_returns_true.
Qed.

(** Unless it returns [True] or the final dump is interrupted,
    [add_qa] leaves the index file as it found it: a missing file is not
    created, a malformed one is not repaired, and an unknown session or a
    failure to open the file for writing changes nothing on disk. *)
Lemma add_qa_file_untouched (now : string) (w : write_result)
    (fs : file store) (sid user q : string) (a : option string)
    (topic_tags : option (list string)) (significance : option Q) :
  let r := add_qa hash_text now w fs sid user q a topic_tags significance in
  result r ≠ Return true -> w ≠ DumpFails -> file_after r = fs.
Proof.
  intros r Hres Hw. subst r. revert Hres. unfold add_qa.
  destruct fs as [| |data]; [done | done |].
  destruct (append_to_session _ _ _ _); [|done].
  by destruct w.
Qed.

Lemma flat_map_length_split {A B} (f : A -> list B) pre x x' post :
  length (f x') = S (length (f x)) ->
  length (flat_map f (pre ++ x' :: post))
  = S (length (flat_map f (pre ++ x :: post))).
Proof.
  intros Hx. rewrite !flat_map_app. simpl.
  rewrite !length_app, Hx. lia.
Qed.

(** One append: one more entry, the counters and the recency list follow. *)
Lemma appends_to_counts data data' :
  appends_to hash_text data data' ->
  entry_count data' = entry_count data + 1 ∧
  total_qa_pairs (store_metadata data')
  = total_qa_pairs (store_metadata data) + 1 ∧
  Z.of_nat (length (by_recency (store_index data')))
  = Z.of_nat (length (by_recency (store_index data))) + 1 ∧
  stored_answers (store_metadata data') - stored_answers (store_metadata data)
  = answered_count data' - answered_count data.
Proof.
  intros (now & sid & user & q & a & tags & sig & pre & s & post
          & Hd & Hs & Hpre & ->)%appends_to_shape.
  unfold entry_count, answered_count. simpl. rewrite Hd.
  split; [|split; [|split]].
  - rewrite (flat_map_length_split qa_sequence pre s); [lia|].
    simpl. rewrite length_app. simpl. lia.
  - unfold update_metadata. by destruct (Text.truthy a).
  - lia.
  - rewrite !flat_map_app. simpl. rewrite !filter_app, !length_app.
    rewrite filter_cons, filter_nil. simpl.
    unfold update_metadata.
    destruct (Text.truthy a) eqn:Ha.
    + rewrite decide_True by (by destruct a as [[|]|]).
      simpl. rewrite ?length_app. simpl. lia.
    + rewrite decide_False by (destruct a as [[|]|]; simpl in *; congruence).
      simpl. rewrite ?length_app. simpl. lia.
Qed.

(** X7. The log is append-only: over any number of successful appends the
    list of sessions keeps its length, order and names, and every session
    keeps its old entries, unchanged, in front of the new ones. *)
Theorem log_is_append_only (data data' : store) :
  reachable hash_text data data' ->
  Forall2 grown_from (sessions data) (sessions data').
Proof.
  induction 1 as [d|d1 d2 d3 Hstep _ IH].
  - apply Forall_Forall2_diag, Forall_forall. by intros s _.
  - apply appends_to_shape in Hstep
      as (now & sid & user & q & a & tags & sig & pre & s & post
          & Hd & Hs & Hpre & ->).
    simpl in IH. rewrite Hd.
    assert (Forall2 grown_from (pre ++ s :: post)
              (pre ++
               {| session_id := session_id s; last_updated := now;
                  qa_sequence :=
                    qa_sequence s ++
                    [new_entry hash_text (get_next_seq (Content d1) sid) now
                       user q a tags sig] |} :: post)) as Hone.
    { apply Forall2_app.
      - apply Forall_Forall2_diag, Forall_forall. by intros t _.
      - constructor.
        + split; [done|]. simpl. by apply prefix_app_r.
        + apply Forall_Forall2_diag, Forall_forall. by intros t _. }
    eapply Forall2_trans; [|exact Hone|exact IH].
    intros x y z [Hxy1 Hxy2] [Hyz1 Hyz2]. split; [congruence|].
    by etrans.
Qed.

(** X8. The counters follow the log: over any number of successful
    appends, [total_qa_pairs] and the length of the recency index grow by
    the number of entries added, and [stored_answers] by the number of
    entries added with a non-empty answer. *)
Theorem counters_follow_log (data data' : store) :
  reachable hash_text data data' ->
  total_qa_pairs (store_metadata data') - total_qa_pairs (store_metadata data)
  = entry_count data' - entry_count data ∧
  Z.of_nat (length (by_recency (store_index data')))
  - Z.of_nat (length (by_recency (store_index data)))
  = entry_count data' - entry_count data ∧
  stored_answers (store_metadata data') - stored_answers (store_metadata data)
  = answered_count data' - answered_count data.
Proof.
  induction 1 as [d|d1 d2 d3 Hstep _ IH]; [lia|].
  apply appends_to_counts in Hstep. lia.
Qed.

Lemma max_default_positions n :
  max_default 0 (map Z.of_nat (seq 1 n)) = Z.of_nat n.
Proof.
  pose proof (max_default_spec (map Z.of_nat (seq 1 n))) as Hmax.
  destruct n as [|n]; [done|].
  destruct (map Z.of_nat (seq 1 (S n))) as [|x l] eqn:Hl; [done|].
  rewrite <- Hl in *. destruct Hmax as [Hin Hge].
  apply list_elem_of_fmap in Hin as (k & Hk & Hin).
  apply list_elem_of_In, in_seq in Hin.
  assert (Z.of_nat (S n) <= max_default 0 (map Z.of_nat (seq 1 (S n)))).
  { apply Hge, list_elem_of_fmap. exists (S n). split; [done|].
    apply list_elem_of_In, in_seq. lia. }
  lia.
Qed.

(** X9. Numbering by position is kept: if in every session the entry at
    position i carries the sequence number i, the same holds after any
    number of successful appends (in particular from a document whose
    sessions are empty). *)
Theorem numbering_follows_position (data data' : store) :
  Forall numbered_by_position (sessions data) ->
  reachable hash_text data data' ->
  Forall numbered_by_position (sessions data').
Proof.
  intros Hok Hreach. induction Hreach as [d|d1 d2 d3 Hstep _ IH]; [done|].
  apply IH. clear IH.
  apply appends_to_shape in Hstep
    as (now & sid & user & q & a & tags & sig & pre & s & post
        & Hd & Hs & Hpre & ->).
  simpl. rewrite Hd in Hok.
  apply Forall_app in Hok as [Hpre_ok Hrest].
  apply Forall_cons in Hrest as [Hs_ok Hpost_ok].
  apply Forall_app. split; [done|]. apply Forall_cons. split; [|done].
  unfold numbered_by_position, session_seqs in *. simpl.
  rewrite map_app, length_app. simpl.
  rewrite (get_next_seq_found d1 sid s)
    by (rewrite Hd; by apply find_session_split).
  unfold session_seqs. rewrite Hs_ok, max_default_positions.
  replace (length (qa_sequence s) + 1)%nat with (S (length (qa_sequence s)))
    by lia.
  rewrite seq_S, map_app. simpl. do 2 f_equal. lia.
Qed.

End LoggerMore.

Lemma counters_follow_log_witness :
  total_qa_pairs (store_metadata logged_once)
  - total_qa_pairs (store_metadata fresh_store)
  = entry_count logged_once - entry_count fresh_store.
Proof.
  refine (proj1 (@counters_follow_log first_occurrence_order sample_hash
                   fresh_store logged_once _)).
  apply rtc_once.
  exists "2024-01-01T00:00:00Z", "s1", "alice", example_q, (Some example_a),
    (Some ["db"]), None.
  split; reflexivity.
Defined.

Lemma log_is_append_only_witness :
  Forall2 grown_from (sessions fresh_store) (sessions logged_once).
Proof.
  apply (@log_is_append_only first_occurrence_order sample_hash).
  apply rtc_once.
  exists "2024-01-01T00:00:00Z", "s1", "alice", example_q, (Some example_a),
    (Some ["db"]), None.
  split; reflexivity.
Defined.

Lemma numbering_follows_position_witness :
  Forall numbered_by_position (sessions logged_once).
Proof.
  apply (@numbering_follows_position first_occurrence_order sample_hash
           fresh_store).
  - by repeat constructor.
  - apply rtc_once.
    exists "2024-01-01T00:00:00Z", "s1", "alice", example_q, (Some example_a),
      (Some ["db"]), None.
    split; reflexivity.
Defined.

Lemma add_qa_file_untouched_witness :
  file_after (add_qa (H:=first_occurrence_order) sample_hash
                "2024-01-01T00:00:00Z" OpenFails (Content fresh_store) "s1"
                "alice" example_q None None None)
  = Content fresh_store.
Proof.
  apply (@add_qa_file_untouched first_occurrence_order sample_hash);
    vm_compute; discriminate.
Defined.

(** ** More on the query engine *)

Lemma keyed_length l ks : keyed l = Return ks -> length ks = length l.
Proof.
  revert ks. induction l as [|x l IH]; intros ks; simpl; [by intros [= <-]|].
  destruct (sort_key x) as [k| |]; simpl; try done.
  destruct (keyed l) as [r| |]; simpl; try done.
  intros [= <-]. simpl. by rewrite (IH r).
Qed.

Lemma remove_dups_length (l : list string) :
  (length (remove_dups l) <= length l)%nat.
Proof.
  induction l as [|x l IH]; simpl; [done|].
  case_decide; simpl; lia.
Qed.

Lemma remove_dups_fixed (l : list string) : NoDup l -> remove_dups l = l.
Proof.
  induction 1 as [|x l Hx _ IH]; simpl; [done|].
  case_decide; [done|]. by rewrite IH.
Qed.

(** The overlap counts the distinct query tokens found among the tokens of
    the entry. *)
Lemma overlap_distinct (l qa_tokens : list string) :
  overlap (remove_dups l) qa_tokens
  = length (filter (fun t => t ∈ qa_tokens) (remove_dups l)).
Proof.
  unfold overlap. by rewrite (remove_dups_fixed _ (NoDup_remove_dups l)).
Qed.

Lemma overlap_bound query_tokens qa_tokens :
  (overlap query_tokens qa_tokens <= length query_tokens)%nat.
Proof.
  unfold overlap. etrans; [apply length_filter | apply remove_dups_length].
Qed.

Section LoaderMore.
Context `{PySetOrder}.

(** X10. On a document whose collected timestamps are numbers,
    [find_relevant_pairs] returns hits taken from the collected ones,
    ranked by score descending and then by timestamp descending; it
    returns at most [limit] of them when [limit] is not negative, and all
    of them when [limit] is at least their number. *)
Theorem ranking_on_numeric_timestamps (data : store) (query : string)
    (sid : option string) (limit : Z) (min_significance : Q) :
  let relevant :=
    relevant_of data (remove_dups (extract_tokens query)) sid min_significance in
  Forall (fun h => ∃ t, hit_timestamp h = TsNum t) relevant ->
  ∃ res,
    find_relevant_pairs data query sid limit min_significance = Return res ∧
    StronglySorted ranked res ∧
    res ⊆+ relevant ∧
    (0 <= limit -> Z.of_nat (length res) <= limit) ∧
    (Z.of_nat (length relevant) <= limit -> res ≡ₚ relevant).
Proof.
  intros relevant Hnum.
  destruct (find_relevant_pairs_numeric data query sid limit min_significance
              Hnum) as (sorted & n & Heq & Hperm & Hsorted & Hle & Hall).
  fold relevant in Hperm, Hall.
  exists (take n sorted). split; [done|]. split; [by apply StronglySorted_take|].
  split; [|split].
  - rewrite <- Hperm. apply sublist_submseteq, sublist_take.
  - intros Hlim. specialize (Hle Hlim). rewrite length_take. lia.
  - intros Hlim. by rewrite (Hall Hlim).
Qed.

(** X11. [limit] is a Python slice bound, not a count: when the call
    returns and [n] hits were collected, it returns min(limit, n) hits for
    a limit that is not negative (none for 0), and for a negative limit it
    drops the last -limit hits, returning max(0, n + limit). *)
Theorem limit_is_a_slice_bound (data : store) (query : string)
    (sid : option string) (limit : Z) (min_significance : Q) (res : list hit) :
  let n := Z.of_nat (length (relevant_of data (remove_dups (extract_tokens query))
                               sid min_significance)) in
  find_relevant_pairs data query sid limit min_significance = Return res ->
  Z.of_nat (length res) =
  if limit <? 0 then Z.max 0 (n + limit) else Z.min limit n.
Proof.
  intros n. unfold find_relevant_pairs.
  destruct (keyed _) as [ks| |] eqn:Hk; simpl; [|done..].
  intros [= <-]. apply keyed_length in Hk. fold n in Hk.
  unfold slice_to.
  rewrite length_take, length_map, sort_by_length, Hk. fold n.
  destruct (limit <? 0) eqn:Hl; [apply Z.ltb_lt in Hl | apply Z.ltb_ge in Hl]; lia.
Qed.

(** X12. For an ASCII query, every returned hit is the record of an entry
    of a session of the document, and is scored by the overlap of that
    entry with the query: the number of distinct tokens of the query that
    are among the tokens stored with the entry, which is at most 20.
    With a non-empty session filter the hit comes from that session and
    its score is 1.5 times the overlap; without filter the score is the
    overlap. *)
Theorem hits_respect_session_filter (data : store) (query : string)
    (sid : option string) (limit : Z) (min_significance : Q) (res : list hit)
    (h : hit) :
  ascii_text query = true ->
  find_relevant_pairs data query sid limit min_significance = Return res ->
  h ∈ res ->
  ∃ s qa,
    s ∈ sessions data ∧ qa ∈ qa_sequence s ∧
    hit_session h = session_id s ∧ hit_seq h = qa_seq qa ∧
    hit_q h = qa_q qa ∧ hit_a h = qa_a qa ∧
    let k := overlap (remove_dups (extract_tokens query)) (qa_q_tokens qa) in
    k = length (filter (fun t => t ∈ qa_q_tokens qa)
                       (remove_dups (extract_tokens query))) ∧
    (k <= 20)%nat ∧
    match sid with
    | Some id =>
        id ≠ EmptyString ->
        session_id s = id ∧
        hit_score h = (inject_Z (Z.of_nat k) * (15 # 10))%Q
    | None => hit_score h = inject_Z (Z.of_nat k)
    end.
Proof.
  intros _ Hres Hh.
  assert (Forall (fun h => ∃ t, hit_timestamp h = TsNum t)
            (relevant_of data (remove_dups (extract_tokens query)) sid
               min_significance)) as Hnum.
  { revert Hres. unfold find_relevant_pairs.
    destruct (keyed _) as [ks| |] eqn:Hk; [|done..]. intros _.
    by eapply keyed_Return. }
  destruct (find_relevant_pairs_numeric data query sid limit min_significance
              Hnum) as (sorted & n & Heq & Hperm & _).
  rewrite Heq in Hres. injection Hres as <-.
  assert (h ∈ relevant_of data (remove_dups (extract_tokens query)) sid
                min_significance) as Hrel.
  { rewrite <- Hperm. eapply elem_of_sublist; [exact Hh | apply sublist_take]. }
  apply elem_of_relevant_of in Hrel as (s & qa & Hs & Hqa & Hskip & _ & ->).
  exists s, qa. split; [done|]. split; [done|]. do 4 (split; [done|]).
  cbv zeta. split.
  { apply overlap_distinct. }
  split.
  { etrans; [apply overlap_bound|].
    etrans; [apply remove_dups_length|].
    rewrite extract_tokens_length. lia. }
  destruct sid as [id|]; simpl.
  - intros Hid. unfold session_skipped in Hskip.
    assert (Text.truthy (Some id) = true) as Ht by (by destruct id).
    rewrite Ht in Hskip. simpl in Hskip.
    apply negb_false_iff, bool_decide_eq_true in Hskip.
    split; [done|]. unfold score_of.
    by rewrite bool_decide_eq_true_2 by congruence.
  - unfold score_of. by rewrite bool_decide_eq_false_2.
Qed.

End LoaderMore.

Lemma ranking_on_numeric_timestamps_witness :
  ∃ res,
    find_relevant_pairs (H:=first_occurrence_order) numeric_store
      "database design" None 2 (5 # 10) = Return res ∧
    StronglySorted ranked res ∧
    (0 <= 2 -> Z.of_nat (length res) <= 2).
Proof.
  destruct (@ranking_on_numeric_timestamps first_occurrence_order numeric_store
              "database design" None 2 (5 # 10))
    as (res & Hres & Hsorted & _ & Hlen & _).
  { vm_compute. repeat constructor; by eexists. }
  by exists res.
Defined.

Lemma limit_is_a_slice_bound_witness :
  ∃ res,
    find_relevant_pairs (H:=first_occurrence_order) numeric_store
      "database design" None (-1) (5 # 10) = Return res ∧
    Z.of_nat (length res) = 2.
Proof.
  eexists. split; [vm_compute; reflexivity|].
  apply (@limit_is_a_slice_bound first_occurrence_order numeric_store
           "database design" None (-1) (5 # 10)).
  vm_compute. reflexivity.
Defined.

Lemma hits_respect_session_filter_witness :
  ∃ h s qa,
    s ∈ sessions numeric_store ∧ qa ∈ qa_sequence s ∧
    hit_session h = session_id s ∧ hit_seq h = qa_seq qa ∧
    hit_q h = qa_q qa ∧ hit_a h = qa_a qa ∧
    let k := overlap (remove_dups (extract_tokens (H:=first_occurrence_order)
                                     "database design")) (qa_q_tokens qa) in
    k = length (filter (fun t => t ∈ qa_q_tokens qa)
                       (remove_dups (extract_tokens (H:=first_occurrence_order)
                                       "database design"))) ∧
    (k <= 20)%nat ∧
    ("s1" ≠ EmptyString ->
     session_id s = "s1" ∧
     hit_score h = (inject_Z (Z.of_nat k) * (15 # 10))%Q).
Proof.
  eexists.
  eapply (@hits_respect_session_filter first_occurrence_order numeric_store
            "database design" (Some "s1") 5 (5 # 10)).
  - reflexivity.
  - vm_compute. reflexivity.
  - by left.
Defined.

(** ** Recent context and its formatting *)

Lemma recent_window_suffix {A} (window : Z) (l : list A) :
  recent_window window l `suffix_of` l ∧
  (0 < window ->
   length (recent_window window l) = (Z.to_nat window `min` length l)%nat) ∧
  (window < 0 ->
   length (recent_window window l)
   = (length l - (Z.to_nat (- window) `min` length l))%nat).
Proof.
  unfold recent_window, slice_from.
  destruct (window <=? Z.of_nat (length l)) eqn:Hw;
    [apply Z.leb_le in Hw | apply Z.leb_gt in Hw].
  - split; [apply suffix_drop|].
    destruct (- window <? 0) eqn:Hn;
      [apply Z.ltb_lt in Hn | apply Z.ltb_ge in Hn];
      rewrite length_drop; split; lia.
  - split; [done|]. split; lia.
Qed.

(** X13. [get_recent_context] returns the projection of a suffix of the
    first session of that name, in the original order: the last
    min(window, length) entries for a positive window, and for a negative
    window the entries left after dropping the first -window; for an
    unknown session it returns the empty list. *)
Theorem recent_context_is_a_suffix (data : store) (sid : string) (window : Z) :
  match find_session sid (sessions data) with
  | None => get_recent_context data sid window = []
  | Some s =>
      ∃ l, get_recent_context data sid window = map recent_pair_of l ∧
           l `suffix_of` qa_sequence s ∧
           (0 < window ->
            length l = (Z.to_nat window `min` length (qa_sequence s))%nat) ∧
           (window < 0 ->
            length l = (length (qa_sequence s)
                        - (Z.to_nat (- window) `min` length (qa_sequence s)))%nat)
  end.
Proof.
  unfold get_recent_context. destruct (find_session _ _) as [s|]; [|done].
  exists (recent_window window (qa_sequence s)). split; [done|].
  apply recent_window_suffix.
Qed.

Lemma format_pairs_outcome include_answers qa_pairs :
  (Exists (fun p => include_answers && Text.truthy (rp_a p) = false) qa_pairs ∧
   format_pairs include_answers qa_pairs = Raise TypeError) ∨
  (Forall (fun p => include_answers && Text.truthy (rp_a p) = true) qa_pairs ∧
   ∃ lines, format_pairs include_answers qa_pairs = Return lines ∧
            length lines = (2 * length qa_pairs)%nat).
Proof.
  induction qa_pairs as [|p rest IH]; simpl.
  - right. split; [constructor|]. by exists [].
  - destruct (rp_a p) as [answer|] eqn:Ha.
    + destruct (include_answers && Text.truthy (Some answer)) eqn:Hok.
      * destruct IH as [[Hbad ->]|[Hgood (lines & -> & Hlen)]].
        -- left. split; [by apply Exists_cons_tl | done].
        -- right. split; [constructor; [by rewrite Ha | done]|].
           eexists. split; [reflexivity|]. simpl. lia.
      * left. split; [|done]. apply Exists_cons_hd. by rewrite Ha.
    + left. split; [|done]. apply Exists_cons_hd. rewrite Ha.
      by rewrite andb_false_r.
Qed.

Lemma format_context_bad qa_pairs include_answers :
  Exists (fun p => include_answers && Text.truthy (rp_a p) = false) qa_pairs ->
  format_context qa_pairs include_answers = Raise TypeError.
Proof.
  intros Hbad. unfold format_context.
  destruct (format_pairs_outcome include_answers qa_pairs)
    as [[_ ->]|[Hgood _]]; [done|]. exfalso.
  apply Exists_exists in Hbad as (p & Hp & Hf).
  eapply Forall_forall in Hgood; [|exact Hp]. congruence.
Qed.

(** X14. [format_context] raises [TypeError] exactly when some pair is
    printed without answer line, that is when answers are not included or
    the pair has no (non-empty) answer: that branch calls [lines.append()]
    without argument.  Otherwise it returns the text. *)
Theorem format_context_raises_iff (qa_pairs : list recent_pair)
    (include_answers : bool) :
  (format_context qa_pairs include_answers = Raise TypeError ↔
   Exists (fun p => include_answers && Text.truthy (rp_a p) = false) qa_pairs) ∧
  (Forall (fun p => include_answers && Text.truthy (rp_a p) = true) qa_pairs ->
   ∃ text, format_context qa_pairs include_answers = Return text).
Proof.
  unfold format_context.
  destruct (format_pairs_outcome include_answers qa_pairs)
    as [[Hbad ->]|[Hgood (lines & -> & _)]]; simpl.
  - split; [done|]. intros Hgood. exfalso.
    apply Exists_exists in Hbad as (p & Hp & Hf).
    eapply Forall_forall in Hgood; [|exact Hp]. congruence.
  - split; [|by eexists]. split; [done|]. intros Hbad. exfalso.
    apply Exists_exists in Hbad as (p & Hp & Hf).
    eapply Forall_forall in Hgood; [|exact Hp]. congruence.
Qed.

Lemma format_context_raises_iff_witness :
  ∃ text,
    format_context (get_recent_context numeric_store "s2" 1) true = Return text.
Proof.
  apply (proj2 (format_context_raises_iff
                  (get_recent_context numeric_store "s2" 1) true)).
  vm_compute. by repeat constructor.
Defined.

Lemma last_in_recent_window {A} (window : Z) (l : list A) (x : A) :
  0 <= window -> x ∈ recent_window window (l ++ [x]).
Proof.
  intros Hw. destruct (decide (window = 0)) as [->|Hne].
  - rewrite recent_window_zero. set_solver.
  - destruct (recent_window_suffix window (l ++ [x])) as ([k Hk] & Hlen & _).
    specialize (Hlen ltac:(lia)).
    destruct (recent_window window (l ++ [x])) as [|y r] eqn:Hr using rev_ind.
    + rewrite length_app in Hlen. simpl in Hlen. lia.
    + apply (f_equal last) in Hk. rewrite app_assoc, !last_snoc in Hk.
      injection Hk as ->. set_solver.
Qed.

Section RecentCommand.
Context `{PySetOrder}.
Variable hash_text : string -> string.

(** X15. Logging a question without answer breaks the [recent] command:
    after a successful [add_qa] whose answer is [None] or empty, the
    command on that session raises [TypeError] for every window that is
    not negative, because the new entry is among the selected ones. *)
Theorem recent_command_fails_on_unanswered (now : string) (w : write_result)
    (fs : file store) (sid user q : string) (a : option string)
    (topic_tags : option (list string)) (significance : option Q)
    (window : Z) :
  let r := add_qa hash_text now w fs sid user q a topic_tags significance in
  result r = Return true -> Text.truthy a = false -> 0 <= window ->
  recent_command (file_after r) sid window = Raise TypeError.
Proof.
  intros r Hres Ha Hw. subst r.
  apply add_qa_true in Hres
    as (data & pre & s & post & -> & -> & Hd & Hs & Hpre & ->).
  unfold recent_command. simpl.
  apply format_context_bad.
  unfold get_recent_context. simpl.
  erewrite find_session_split; [|exact Hpre|exact Hs]. simpl.
  apply Exists_exists. eexists. split.
  - apply list_elem_of_fmap. eexists. split; [reflexivity|].
    by apply last_in_recent_window.
  - simpl. by rewrite Ha.
Qed.

End RecentCommand.

Lemma recent_command_fails_on_unanswered_witness :
  recent_command
    (file_after (add_qa (H:=first_occurrence_order) sample_hash
                   "2024-01-01T00:00:00Z" WriteOk (Content fresh_store) "s1"
                   "alice" "what now" None None None))
    "s1" 5 = Raise TypeError.
Proof.
  apply (@recent_command_fails_on_unanswered first_occurrence_order sample_hash);
    [reflexivity | reflexivity | lia].
Defined.

(** ** Ties in the ranking *)

Lemma filter_ext_in {A} (P Q : A -> Prop) `{∀ x, Decision (P x)}
    `{∀ x, Decision (Q x)} (l : list A) :
  (∀ x, x ∈ l -> P x ↔ Q x) -> filter P l = filter Q l.
Proof.
  induction l as [|x l IH]; intros Hl; [done|].
  rewrite !filter_cons.
  rewrite IH by (intros y Hy; apply Hl; by apply elem_of_cons; right).
  destruct (decide (P x)) as [Hp|Hp], (decide (Q x)) as [Hq|Hq]; try done;
    exfalso; apply (Hl x (list_elem_of_here _ _)) in Hp || apply Hp;
    try done; by apply (Hl x (list_elem_of_here _ _)).
Qed.

Lemma filter_fmap_fst {A B} (P : A -> Prop) `{∀ x, Decision (P x)}
    (l : list (A * B)) :
  filter P (map fst l) = map fst (filter (fun x => P x.1) l).
Proof.
  induction l as [|x l IH]; [done|]. simpl.
  rewrite !filter_cons, IH. by destruct (decide (P x.1)).
Qed.

Section Ties.
Context `{PySetOrder}.

(** X16. The sort is stable: when the call returns and the limit cuts
    nothing, the hits that share a score [s] and a timestamp [t] appear in
    the result in the order in which the document lists them. *)
Theorem ties_keep_document_order (data : store) (query : string)
    (sid : option string) (limit : Z) (min_significance : Q) (res : list hit)
    (s t : Q) :
  let relevant :=
    relevant_of data (remove_dups (extract_tokens query)) sid min_significance in
  let tied (h : hit) :=
    Qeq_bool (hit_score h) s && Qeq_bool (time_of h) t = true in
  find_relevant_pairs data query sid limit min_significance = Return res ->
  Z.of_nat (length relevant) <= limit ->
  filter tied res = filter tied relevant.
Proof.
  intros relevant tied Hres Hlim.
  assert (Forall (fun h => ∃ t, hit_timestamp h = TsNum t) relevant) as Hnum.
  { revert Hres. unfold find_relevant_pairs. fold relevant.
    destruct (keyed _) as [ks| |] eqn:Hk; [|done..]. intros _.
    by eapply keyed_Return. }
  revert Hres. unfold find_relevant_pairs. fold relevant.
  rewrite (keyed_numeric _ Hnum). simpl.
  set (mk := fun h : hit => (h, (- hit_score h, - time_of h)%Q)).
  set (ks := map mk relevant).
  intros [= <-].
  destruct (slice_to_take limit (map fst (sort_by key_lt snd ks)))
    as (n & -> & _ & Hall).
  rewrite Hall
    by (rewrite length_map, sort_by_length; unfold ks; by rewrite length_map).
  rewrite firstn_all.
  set (tied_key := fun x : hit * (Q * Q) =>
         Qeq_bool x.2.1 (- s) && Qeq_bool x.2.2 (- t)).
  assert (∀ x, x ∈ ks -> tied x.1 ↔ tied_key x = true) as Hkey.
  { intros x (h & -> & _)%list_elem_of_fmap. unfold tied, tied_key. simpl.
    rewrite !andb_true_iff, !Qeq_bool_iff. split; intros [? ?]; split; lra. }
  rewrite filter_fmap_fst.
  rewrite (filter_ext_in (fun x => tied x.1) (fun x => tied_key x = true)).
  2:{ intros x Hx. apply Hkey. by rewrite <- (sort_by_perm key_lt snd ks). }
  rewrite (sort_by_stable key_lt snd tied_key).
  2:{ intros x y Hx Hy. unfold tied_key in Hx, Hy.
      apply andb_true_iff in Hx as [Hx1%Qeq_bool_iff Hx2%Qeq_bool_iff].
      apply andb_true_iff in Hy as [Hy1%Qeq_bool_iff Hy2%Qeq_bool_iff].
      apply key_lt_false. right. split; lra. }
  rewrite <- (filter_ext_in (fun x => tied x.1) (fun x => tied_key x = true))
    by exact Hkey.
  pose proof (filter_fmap_fst tied ks) as Hfst.
  etrans; [symmetry; exact Hfst|]. unfold ks.
  rewrite <- list_fmap_compose. f_equal. apply list_fmap_id.
Qed.

End Ties.

Lemma ties_keep_document_order_witness :
  ∃ res,
    find_relevant_pairs (H:=first_occurrence_order) numeric_store
      "database design" None 5 (5 # 10) = Return res ∧
    filter (fun h => Qeq_bool (hit_score h) 2 && Qeq_bool (time_of h) 100 = true)
           res
    = filter (fun h => Qeq_bool (hit_score h) 2 && Qeq_bool (time_of h) 100 = true)
             (relevant_of numeric_store
                (remove_dups (extract_tokens (H:=first_occurrence_order)
                                "database design")) None (5 # 10)).
Proof.
  eexists. split; [vm_compute; reflexivity|].
  apply (@ties_keep_document_order first_occurrence_order numeric_store
           "database design" None 5 (5 # 10));
    [vm_compute; reflexivity | vm_compute; discriminate].
Defined.

(** ** Topic lookup *)

Lemma find_appended (f : qa_entry -> bool) qs e :
  (∀ x, x ∈ qs -> f x = false) -> f e = true ->
  List.find f (qs ++ [e]) = Some e.
Proof.
  intros Hqs He. induction qs as [|x qs IH]; simpl; [by rewrite He|].
  rewrite Hqs by (by left). apply IH. intros y Hy. apply Hqs. by right.
Qed.

Section TopicLookup.
Context `{PySetOrder}.
Variable hash_text : string -> string.
Variable fmt2f : Q -> string.

(** X17. An entry logged with an ASCII question under a topic tag is
    found by the topic summary: after a successful [add_qa],
    [print_topic_summary] for each of its tags prints the line
    "[seq] Q: question" of the new entry (the question cut to 80
    characters). *)
Theorem logged_entry_in_topic_summary (now : string) (w : write_result)
    (fs : file store) (sid user q : string) (a : option string)
    (topic_tags : option (list string)) (significance : option Q)
    (data' : store) (tag : string) :
  let r := add_qa hash_text now w fs sid user q a topic_tags significance in
  ascii_text q = true ->
  result r = Return true -> file_after r = Content data' ->
  tag ∈ default [] topic_tags ->
  ("[" ++ pretty (get_next_seq fs sid) ++ "] Q: " ++ Text.take_str 80 q)%string
  ∈ print_topic_summary fmt2f data' tag.
Proof.
  intros r _ Hres Hfile Htag. subst r.
  apply add_qa_true in Hres
    as (data & pre & s & post & -> & -> & Hd & Hs & Hpre & Hfile').
  rewrite Hfile' in Hfile. injection Hfile as <-.
  set (n := get_next_seq (Content data) sid).
  set (e := new_entry hash_text n now user q a topic_tags
              (stored_significance q a significance)).
  set (r := {| ref_session := sid; ref_seq := n |}).
  unfold print_topic_summary, update_index.
  cbn [store_index by_topic]. fold r.
  destruct (add_topic_refs_lookup r (default [] topic_tags)
              (by_topic (store_index data)) tag Htag) as (refs & -> & Hr).
  apply elem_of_app. right.
  apply list_elem_of_In, in_flat_map. exists r.
  split; [by apply list_elem_of_In|].
  unfold topic_ref_lines. simpl.
  apply in_flat_map.
  exists {| session_id := session_id s; last_updated := now;
            qa_sequence := qa_sequence s ++ [e] |}.
  split; [apply in_or_app; right; by left|]. simpl.
  rewrite bool_decide_eq_true_2 by done.
  rewrite (find_appended _ (qa_sequence s) e).
  - by left.
  - intros x Hx. apply Z.eqb_neq. unfold n.
    rewrite (get_next_seq_found data sid s)
      by (rewrite Hd; by apply find_session_split).
    pose proof (max_default_spec (session_seqs s)) as Hmax.
    assert (qa_seq x ∈ session_seqs s) as Hin.
    { apply list_elem_of_fmap. by exists x. }
    destruct (session_seqs s) as [|y l]; [by apply elem_of_nil in Hin|].
    destruct Hmax as [_ Hge]. specialize (Hge _ Hin). lia.
  - apply Z.eqb_refl.
Qed.

End TopicLookup.

Lemma logged_entry_in_topic_summary_witness :
  ("[" ++ pretty (get_next_seq (Content fresh_store) "s1") ++ "] Q: "
   ++ Text.take_str 80 example_q)%string
  ∈ print_topic_summary (fun _ => "0.95"%string) logged_once "db".
Proof.
  apply (@logged_entry_in_topic_summary first_occurrence_order sample_hash
           (fun _ => "0.95"%string) "2024-01-01T00:00:00Z" WriteOk
           (Content fresh_store) "s1" "alice" example_q (Some example_a)
           (Some ["db"]) None logged_once "db");
    [reflexivity | reflexivity | reflexivity | by left].
Defined.

(** ** More on the context builder *)

Lemma string_append_cons c (s t : string) :
  (String c s ++ t = String c (s ++ t))%string.
Proof. reflexivity. Qed.

Lemma string_length_append (s t : string) :
  String.length (s ++ t)%string = (String.length s + String.length t)%nat.
Proof.
  induction s as [|c s IH]; [done|].
  rewrite string_append_cons. simpl. by rewrite IH.
Qed.

Lemma string_append_assoc (s t u : string) :
  ((s ++ t) ++ u = s ++ t ++ u)%string.
Proof.
  induction s as [|c s IH]; [done|].
  rewrite !string_append_cons. by rewrite IH.
Qed.

Lemma string_append_nil_r (s : string) : (s ++ "" = s)%string.
Proof.
  induction s as [|c s IH]; [done|]. rewrite string_append_cons. by rewrite IH.
Qed.

Lemma take_str_length n s :
  String.length (Text.take_str n s) = (n `min` String.length s)%nat.
Proof.
  revert s. induction n as [|n IH]; intros [|c s]; simpl; try done.
  by rewrite IH.
Qed.

Lemma take_str_all n s :
  (String.length s <= n)%nat -> Text.take_str n s = s.
Proof.
  revert s. induction n as [|n IH]; intros [|c s]; simpl; try done; [lia|].
  intros Hl. rewrite IH; [done | lia].
Qed.

Lemma recent_window_nonempty {A} (window : Z) (l : list A) :
  0 <= window -> l ≠ [] -> recent_window window l ≠ [].
Proof.
  intros Hw Hl. destruct l as [|x l] using rev_ind; [done|].
  intros Hnil. pose proof (last_in_recent_window window l x Hw) as Hin.
  rewrite Hnil in Hin. by apply elem_of_nil in Hin.
Qed.

Lemma recent_window_nil {A} (window : Z) : recent_window window (@nil A) = [].
Proof.
  unfold recent_window, slice_from.
  destruct (window <=? _); [apply drop_nil | done].
Qed.

Lemma flat_map_nil {A B} (f : A -> list B) l :
  (∀ x, x ∈ l -> f x = []) -> flat_map f l = [].
Proof.
  induction l as [|x l IH]; intros Hl; simpl; [done|].
  rewrite Hl by (by left). apply IH. intros y Hy. apply Hl. by right.
Qed.

(** X18. [load_recent_qa_context] gives the empty text for a missing index
    file; for a readable one and a window that is not negative, it gives
    the empty text exactly when no session of that name has an entry. *)
Theorem recent_context_empty_iff (data : store) (sid : string) (window : Z) :
  load_recent_qa_context Absent sid window = Return ""%string ∧
  (0 <= window ->
   (load_recent_qa_context (Content data) sid window = Return ""%string ↔
    ∀ s, s ∈ sessions data -> session_id s = sid -> qa_sequence s = [])).
Proof.
  split; [done|]. intros Hw. unfold load_recent_qa_context. split.
  - intros [= Htext] s Hs Hid.
    destruct (qa_sequence s) as [|x l] eqn:Hq; [done|]. exfalso.
    revert Htext.
    apply (concat_nonempty _ "## Recent Conversation Context"); [|done].
    apply list_elem_of_In, in_flat_map. exists s.
    split; [by apply list_elem_of_In|].
    rewrite bool_decide_eq_true_2 by done. unfold session_lines.
    pose proof (recent_window_nonempty window (qa_sequence s) Hw) as Hne.
    rewrite Hq in Hne |- *.
    destruct (recent_window window (x :: l)); [by destruct Hne | by left].
  - intros Hall. rewrite flat_map_nil; [done|].
    intros s Hs. case_bool_decide as Hid; [|done].
    unfold session_lines. by rewrite (Hall s Hs Hid), recent_window_nil.
Qed.

Lemma recent_context_empty_iff_witness :
  load_recent_qa_context (Content fresh_store) "s1" 5 = Return ""%string ↔
  ∀ s, s ∈ sessions fresh_store -> session_id s = "s1" -> qa_sequence s = [].
Proof.
  apply (proj2 (recent_context_empty_iff fresh_store "s1" 5)). lia.
Defined.

(** X19. The context block shows at most 203 characters of an ASCII
    answer: an answer of up to 200 characters is shown whole, a longer one
    is cut to its first 200 characters followed by "...".  An entry
    without (non-empty) answer gives no answer line. *)
Theorem answer_preview_bounded (qa : qa_entry) :
  let head := ("**[" ++ pretty (qa_seq qa) ++ "]** " ++ qa_q qa)%string in
  (∀ answer, qa_a qa = Some answer -> ascii_text answer = true) ->
  if Text.truthy (qa_a qa) then
    ∃ answer preview,
      qa_a qa = Some answer ∧
      entry_lines qa = [head; ("> " ++ preview)%string; ""%string] ∧
      (String.length preview <= 203)%nat ∧
      ((String.length answer <= 200)%nat -> preview = answer) ∧
      ((200 < String.length answer)%nat ->
       preview = (Text.take_str 200 answer ++ "...")%string)
  else entry_lines qa = [head; ""%string].
Proof.
  intros head _. unfold entry_lines. fold head.
  destruct (qa_a qa) as [answer|] eqn:Ha; [|done].
  destruct (Text.truthy (Some answer)) eqn:Ht; [|done].
  destruct (200 <? String.length answer)%nat eqn:Hl;
    [apply Nat.ltb_lt in Hl | apply Nat.ltb_ge in Hl].
  - exists answer, (Text.take_str 200 answer ++ "...")%string.
    split; [done|]. split; [done|]. split.
    + rewrite string_length_append, take_str_length.
      change (String.length "...") with 3%nat. lia.
    + split; [lia | done].
  - exists answer, answer. split; [done|]. split; [done|].
    split; [lia|]. split; [done | lia].
Qed.

Lemma split_on_nonempty c s : split_on c s ≠ [].
Proof.
  destruct s as [|d s]; simpl; [done|].
  destruct (Ascii.eqb d c); [done|]. by destruct (split_on c s).
Qed.

Lemma concat_split_on (c : ascii) (s : string) :
  String.concat (String c "") (split_on c s) = s.
Proof.
  induction s as [|d s IH]; simpl; [done|].
  pose proof (split_on_nonempty c s) as Hne.
  destruct (Ascii.eqb d c) eqn:Hd.
  - apply Ascii.eqb_eq in Hd as ->.
    destruct (split_on c s) as [|h t]; [done|].
    change (String c (String.concat (String c "") (h :: t)) = String c s).
    by rewrite IH.
  - destruct (split_on c s) as [|h t]; [done|].
    destruct t as [|h' t].
    + change (String d h = String d s). change (h = s) in IH. by rewrite IH.
    + change (String d (String.concat (String c "") (h :: h' :: t))
              = String d s).
      by rewrite IH.
Qed.

(** X20. Splitting a text at a character and joining the pieces with that
    character gives the text back; no piece contains the character, and
    there is always at least one piece. *)
Theorem split_join_round_trip (c : ascii) (s : string) :
  String.concat (String c "") (split_on c s) = s ∧
  Forall (fun line => c ∉ list_ascii_of_string line) (split_on c s) ∧
  split_on c s ≠ [].
Proof.
  split; [apply concat_split_on|]. split; [|apply split_on_nonempty].
  induction s as [|d s IH]; simpl; [repeat constructor; by intros ?%elem_of_nil|].
  pose proof (split_on_nonempty c s) as Hne.
  destruct (Ascii.eqb d c) eqn:Hd.
  - constructor; [by intros ?%elem_of_nil | done].
  - destruct (split_on c s) as [|h t]; [done|].
    apply Forall_cons in IH as [Hh Ht]. constructor; [|done].
    simpl. intros [->|Hin]%elem_of_cons; [|done].
    by rewrite Ascii.eqb_refl in Hd.
Qed.

(** ** Splicing the context into a prompt *)

Lemma blank_index_none i lines :
  Forall (fun l => is_blank l = false) lines ->
  blank_index (S i) lines = None.
Proof.
  intros Hl. revert i. induction Hl as [|l lines Hb _ IH]; intros i; simpl; [done|].
  rewrite Hb. simpl. apply IH.
Qed.

Lemma blank_index_found i pre b post :
  Forall (fun l => is_blank l = false) pre -> is_blank b = true ->
  blank_index (S i) (pre ++ b :: post) = Some (S i + length pre)%nat.
Proof.
  intros Hpre Hb. revert i.
  induction Hpre as [|l pre Hl _ IH]; intros i; simpl.
  - rewrite Hb. simpl. f_equal. lia.
  - rewrite Hl. simpl. rewrite IH. f_equal. lia.
Qed.

Lemma blank_index_first first rest :
  blank_index 0 (first :: rest) = blank_index 1 rest.
Proof. simpl. done. Qed.

(** X21. [inject_into_system_prompt] returns the prompt unchanged for an
    empty context; and when no line after the first one of an ASCII prompt
    is blank, the context block (between two pairs of newlines) is put in
    front of the whole prompt, even if the first line itself is blank. *)
Theorem inject_without_blank_line (context original : string)
    (first : string) (rest : list string) :
  inject_into_system_prompt "" original = original ∧
  (ascii_text original = true ->
   context ≠ ""%string ->
   split_on (ascii_of_nat 10) original = first :: rest ->
   Forall (fun l => is_blank l = false) rest ->
   inject_into_system_prompt context original
   = (newline ++ newline ++ context ++ newline ++ newline ++ original)%string).
Proof.
  split; [done|]. intros _ Hctx Hsplit Hrest.
  unfold inject_into_system_prompt.
  rewrite bool_decide_eq_false_2 by done. cbv zeta.
  unfold insert_pos. rewrite Hsplit, blank_index_first.
  rewrite (blank_index_none 0 rest Hrest).
  rewrite take_0, drop_0, <- Hsplit.
  change newline with (String (ascii_of_nat 10) "").
  by rewrite (concat_split_on (ascii_of_nat 10) original).
Qed.

(** X22. When an ASCII prompt has a blank line after its first line, the
    context block is put right after the first such line: the lines up to
    and including it come before the block, the other lines after it. *)
Theorem inject_after_first_blank_line (context original : string)
    (first blank : string) (pre post : list string) :
  ascii_text original = true ->
  context ≠ ""%string ->
  split_on (ascii_of_nat 10) original = first :: pre ++ blank :: post ->
  Forall (fun l => is_blank l = false) pre ->
  is_blank blank = true ->
  inject_into_system_prompt context original
  = (String.concat newline (first :: pre ++ [blank]) ++
     newline ++ newline ++ context ++ newline ++ newline ++
     String.concat newline post)%string.
Proof.
  intros _ Hctx Hsplit Hpre Hblank.
  unfold inject_into_system_prompt.
  rewrite bool_decide_eq_false_2 by done. cbv zeta.
  unfold insert_pos. rewrite Hsplit, blank_index_first.
  rewrite (blank_index_found 0 pre blank post Hpre Hblank).
  replace (S (1 + length pre)) with (length (first :: pre ++ [blank]))
    by (simpl; rewrite length_app; simpl; lia).
  replace (first :: pre ++ blank :: post)
    with ((first :: pre ++ [blank]) ++ post)
    by (simpl; by rewrite <- app_assoc).
  by rewrite take_app_length, drop_app_length.
Qed.

Lemma inject_without_blank_line_witness :
  inject_into_system_prompt "CTX" "You are helpful."
  = (newline ++ newline ++ "CTX" ++ newline ++ newline ++ "You are helpful.")%string.
Proof.
  apply (proj2 (inject_without_blank_line "CTX" "You are helpful."
                  "You are helpful." []));
    [reflexivity | discriminate | reflexivity | constructor].
Defined.

Lemma inject_after_first_blank_line_witness :
  inject_into_system_prompt "CTX"
    ("Intro" ++ newline ++ newline ++ "Task")%string
  = (String.concat newline ("Intro"%string :: [] ++ [""%string]) ++
     newline ++ newline ++ "CTX" ++ newline ++ newline ++
     String.concat newline ["Task"%string])%string.
Proof.
  apply (inject_after_first_blank_line "CTX"
           ("Intro" ++ newline ++ newline ++ "Task")%string "Intro" "" [] ["Task"%string]);
    [reflexivity | discriminate | reflexivity | constructor | reflexivity].
Defined.

(** ** The assembled context *)

Lemma list_ascii_of_append (s t : string) :
  list_ascii_of_string (s ++ t)%string
  = list_ascii_of_string s ++ list_ascii_of_string t.
Proof.
  induction s as [|c s IH]; [done|].
  rewrite string_append_cons. simpl. by rewrite IH.
Qed.

(** [strip] takes the two newlines off a block that starts and ends with
    characters that are not white space. *)
Lemma strip_wrapped (c e : ascii) (mid : string) :
  Text.is_space c = false -> Text.is_space e = false ->
  strip (newline ++ String c (mid ++ String e "") ++ newline)%string
  = String c (mid ++ String e "")%string.
Proof.
  intros Hc He. unfold strip.
  rewrite !list_ascii_of_append. simpl list_ascii_of_string.
  rewrite list_ascii_of_append. simpl.
  rewrite Hc. simpl. rewrite !rev_app_distr. simpl.
  rewrite He. simpl. rewrite rev_app_distr, rev_involutive. simpl.
  f_equal. rewrite <- (string_of_list_ascii_of_string (mid ++ String e "")).
  by rewrite list_ascii_of_append.
Qed.

Section AssembledContext.
Variable fmt2f : Q -> string.

(** X23. The text of [build_full_context]: empty when neither the recent
    conversation nor the analysis gives a section; otherwise a heading, the
    time stamp line, the sections joined by a rule, and a closing rule and
    note, with no newline before or after.  A malformed index file makes
    the call raise, whatever the analysis file holds. *)
Theorem build_full_context_text (timestamp : string) (index_file : file store)
    (sid : string) (analysis_file : option (file analyzed)) (qa_window : Z)
    (qa_context : string) :
  let analysis_context :=
    match analysis_file with
    | Some f => load_analysis_context fmt2f f
    | None => ""%string
    end in
  let sections :=
    (if bool_decide (qa_context = ""%string) then [] else [qa_context]) ++
    (if bool_decide (analysis_context = ""%string) then []
     else [analysis_context]) in
  (load_recent_qa_context index_file sid qa_window = Return qa_context ->
   build_full_context fmt2f timestamp index_file sid analysis_file qa_window
   = Return
       match sections with
       | [] => ""%string
       | _ =>
           ("# Conversation Memory Context" ++ newline ++
            "*Last updated: " ++ timestamp ++ "*" ++ newline ++ newline ++
            String.concat (newline ++ "---" ++ newline) sections ++
            newline ++ newline ++ "---" ++ newline ++
            "Use this context to understand the conversation history and patterns.")%string
       end) ∧
  build_full_context fmt2f timestamp Malformed sid analysis_file qa_window
  = Raise JSONDecodeError.
Proof.
  intros analysis_context sections. split; [|done].
  intros Hload. unfold build_full_context. rewrite Hload. simpl.
  fold analysis_context. fold sections.
  destruct sections as [|x l] eqn:Hs; [done|]. rewrite <- Hs. clear Hs x l.
  f_equal.
  set (full := String.concat (newline ++ "---" ++ newline)%string sections).
  set (mid := (" Conversation Memory Context" ++ newline ++
               "*Last updated: " ++ timestamp ++ "*" ++ newline ++ newline ++
               full ++ newline ++ newline ++ "---" ++ newline ++
               "Use this context to understand the conversation history and patterns")%string).
  transitivity (strip (newline ++ String "#" (mid ++ String "." "") ++ newline)%string).
  - f_equal. unfold mid.
    repeat (rewrite string_append_cons || rewrite string_append_assoc).
    reflexivity.
  - rewrite strip_wrapped by done. unfold mid.
    repeat (rewrite string_append_cons || rewrite string_append_assoc).
    reflexivity.
Qed.

(** X24. An analysis file that holds only an error is read by the context
    builder as an empty analysis: the text shows period "unknown" and zero
    questions and answers, and the error message does not appear.  This is
    the file the summarizer writes for a snapshot without metadata file. *)
Theorem error_analysis_reads_as_empty (path : string)
    (qd ad : option (gmap string string)) :
  let dir := {| metadata_files := []; questions_dir := qd; answers_dir := ad |} in
  ∃ msg,
    analysis_file (summarize_main fmt2f path (Some dir))
    = Some (AnalysisError msg) ∧
    ∀ msg', load_analysis_context fmt2f (Content (AnalysisError msg'))
            = load_analysis_context fmt2f (Content (AnalysisError msg)) ∧
            analysis_lines fmt2f (AnalysisError msg')
            = analysis_lines fmt2f (Analysis
                {| period := Some "unknown"%string; total_questions := 0;
                   total_answers := 0; topics := [];
                   high_significance_answers := [];
                   low_significance_answers := [];
                   missing_answers := []; patterns := [] |}).
Proof. intros dir. eexists. split; [reflexivity|]. by intros msg'. Qed.

End AssembledContext.

Lemma build_full_context_text_witness :
  build_full_context (fun _ => "0.90"%string) "T" Absent "s1" None 5
  = Return ""%string.
Proof.
  apply (proj1 (build_full_context_text (fun _ => "0.90"%string) "T" Absent
                  "s1" None 5 "")).
  reflexivity.
Defined.

(** ** More on the summarizer *)

(** What [analyze_conversations] returns for data that were read. *)
Lemma analyze_extracted md questions answers :
  let ans := default [] (meta_answers md) in
  let topics := count_topics (default [] (meta_questions md)) in
  match quality_patterns (size answers) ans with
  | Return quality =>
      analyze_conversations (Extracted md questions answers)
      = Return (Analysis
          {| period := cutoff_time md;
             total_questions := size questions;
             total_answers := size answers;
             topics := topics;
             high_significance_answers := map high_of (filter is_high ans);
             low_significance_answers := map low_of (filter is_low ans);
             missing_answers :=
               match meta_questions md with
               | Some qs => missing_of qs ans
               | None => []
               end;
             patterns :=
               quality ++
               match top_topic topics with
               | Some t => [String.append "Focus topic: " t]
               | None => []
               end |})
  | Raise e => analyze_conversations (Extracted md questions answers) = Raise e
  | Exit c => analyze_conversations (Extracted md questions answers) = Exit c
  end.
Proof.
  intros ans topics. unfold analyze_conversations. fold ans. fold topics.
  by destruct (quality_patterns (size answers) ans).
Qed.

Lemma quality_patterns_outcome n ans :
  ((5 < n)%nat ∧ ans = [] ∧ quality_patterns n ans = Raise ZeroDivisionError) ∨
  (¬ ((5 < n)%nat ∧ ans = []) ∧
   quality_patterns n ans =
   Return (if (5 <? n)%nat then
             (if Qltb (8 # 10) (sum_sig ans / inject_Z (Z.of_nat (length ans)))
              then ["High quality conversation period"%string] else []) ++
             (if Qltb (sum_sig ans / inject_Z (Z.of_nat (length ans))) (5 # 10)
              then ["Low quality/off-topic conversation"%string] else [])
           else [])).
Proof.
  unfold quality_patterns.
  destruct (5 <? n)%nat eqn:Hn; [apply Nat.ltb_lt in Hn | apply Nat.ltb_ge in Hn].
  - destruct ans as [|a ans]; [by left|]. right. split; [by intros (_ & ?)|done].
  - right. split; [intros (? & _); lia | done].
Qed.

(** X25. For a metadata document whose [questions] and [answers] keys are
    absent or hold lists, the analysis of the data read raises
    [ZeroDivisionError] exactly when more than 5 answer files were read and
    the metadata lists no answer (the mean is taken over the listed
    answers); in every other case it returns an analysis record. *)
Theorem analysis_divides_by_listed_answers (md : snapshot_meta)
    (questions answers : gmap string string) :
  (analyze_conversations (Extracted md questions answers)
   = Raise ZeroDivisionError ↔
   (5 < size answers)%nat ∧ default [] (meta_answers md) = []) ∧
  (¬ ((5 < size answers)%nat ∧ default [] (meta_answers md) = []) ->
   ∃ an, analyze_conversations (Extracted md questions answers)
         = Return (Analysis an)).
Proof.
  pose proof (analyze_extracted md questions answers) as Han. cbv zeta in Han.
  destruct (quality_patterns_outcome (size answers) (default [] (meta_answers md)))
    as [(Hn & He & Hq)|(Hno & Hq)]; rewrite Hq in Han.
  - split.
    + split; [intros _; by split | intros _; exact Han].
    + intros Hno. destruct Hno. by split.
  - rewrite Han. split; [|by eexists].
    split; [done|]. intros Hyes. by destruct Hno.
Qed.

Lemma analysis_divides_by_listed_answers_witness :
  ∃ an, analyze_conversations (Extracted six_answers_meta ∅ six_answer_files)
        = Return (Analysis an).
Proof.
  apply (proj2 (analysis_divides_by_listed_answers six_answers_meta ∅
                  six_answer_files)).
  intros [_ Hnil]. discriminate Hnil.
Defined.

Lemma sorted_nodup_strict (l : list Z) :
  StronglySorted (not_after Z.ltb id) l -> NoDup l -> StronglySorted Z.lt l.
Proof.
  induction 1 as [|x l Hl IH Hx]; intros Hnd; [constructor|].
  apply NoDup_cons in Hnd as [Hnin Hnd]. constructor; [by apply IH|].
  apply Forall_forall. intros y Hy.
  eapply Forall_forall in Hx; [|exact Hy].
  unfold not_after, id in Hx. apply Z.ltb_ge in Hx.
  assert (x ≠ y) by (intros ->; done). lia.
Qed.

(** X26. The questions without answer: when the metadata lists questions,
    [missing_answers] holds exactly the sequence numbers of listed
    questions that no listed answer carries, each once, in strictly
    increasing order. *)
Theorem missing_answers_spec (md : snapshot_meta)
    (questions answers : gmap string string) (an : analysis)
    (qs : list meta_question) :
  analyze_conversations (Extracted md questions answers) = Return (Analysis an) ->
  meta_questions md = Some qs ->
  StronglySorted Z.lt (missing_answers an) ∧
  ∀ n, n ∈ missing_answers an ↔
       n ∈ map mq_seq qs ∧ n ∉ map ma_seq (default [] (meta_answers md)).
Proof.
  intros Hres Hqs.
  pose proof (analyze_extracted md questions answers) as Han. cbv zeta in Han.
  destruct (quality_patterns _ _) as [quality| |]; rewrite Han in Hres; [|done..].
  injection Hres as <-. simpl. rewrite Hqs. unfold missing_of.
  set (l := remove_dups _).
  assert (sort_by Z.ltb id l ≡ₚ l) as Hperm by apply sort_by_perm.
  split.
  - apply sorted_nodup_strict.
    + apply sort_by_sorted.
      * intros a b Hab%Z.ltb_lt. apply Z.ltb_ge. lia.
      * intros a b c Hba%Z.ltb_ge Hcb%Z.ltb_ge. apply Z.ltb_ge. lia.
    + rewrite Hperm. apply NoDup_remove_dups.
  - intros n. rewrite Hperm. unfold l.
    rewrite elem_of_remove_dups, list_elem_of_filter. tauto.
Qed.

Lemma missing_answers_spec_witness :
  ∃ an,
    analyze_conversations (Extracted six_answers_meta ∅ six_answer_files)
    = Return (Analysis an) ∧
    StronglySorted Z.lt (missing_answers an).
Proof.
  eexists. split; [reflexivity|].
  refine (proj1 (missing_answers_spec six_answers_meta ∅ six_answer_files _ _
                   _ _)); reflexivity.
Defined.

(** X27. The quality patterns are guarded by the number of answer files:
    when the analysis returns and at most 5 answer files were read,
    neither "High quality conversation period" nor "Low quality/off-topic
    conversation" is reported; either of them is reported only if more
    than 5 answer files were read and the metadata lists an answer; and
    the two are never reported together. *)
Theorem quality_patterns_spec (md : snapshot_meta)
    (questions answers : gmap string string) (an : analysis) :
  let high := "High quality conversation period"%string in
  let low := "Low quality/off-topic conversation"%string in
  analyze_conversations (Extracted md questions answers) = Return (Analysis an) ->
  ((size answers <= 5)%nat -> high ∉ patterns an ∧ low ∉ patterns an) ∧
  (high ∈ patterns an ∨ low ∈ patterns an ->
   (5 < size answers)%nat ∧ default [] (meta_answers md) ≠ []) ∧
  ¬ (high ∈ patterns an ∧ low ∈ patterns an).
Proof.
  intros high low Hres.
  pose proof (analyze_extracted md questions answers) as Han. cbv zeta in Han.
  set (ans := default [] (meta_answers md)) in *.
  set (mean := (sum_sig ans / inject_Z (Z.of_nat (length ans)))%Q).
  destruct (quality_patterns_outcome (size answers) ans)
    as [(_ & _ & Hq)|(Hok & Hq)]; rewrite Hq in Han; rewrite Han in Hres; [done|].
  injection Hres as <-. cbn [patterns]. fold mean.
  set (focus := match top_topic _ with Some t => _ | None => _ end).
  assert (∀ p, p ∈ focus -> p ≠ high ∧ p ≠ low) as Hfocus.
  { intros p Hp. unfold focus in Hp.
    destruct (top_topic _) as [t|]; [|by apply elem_of_nil in Hp].
    apply list_elem_of_singleton in Hp as ->. split; discriminate. }
  assert (∀ (b : bool) (x y : string),
            x ∈ (if b then [y] else []) ↔ b = true ∧ x = y) as Hif.
  { intros [] x y; [rewrite list_elem_of_singleton | rewrite elem_of_nil];
      naive_solver. }
  assert (∀ p, (p = high ∨ p = low) ->
               p ∈ (if (5 <? size answers)%nat
                    then (if Qltb (8 # 10) mean then [high] else []) ++
                         (if Qltb mean (5 # 10) then [low] else [])
                    else []) ++ focus ->
               (5 < size answers)%nat ∧
               ((p = high ∧ (8 # 10 < mean)%Q) ∨ (p = low ∧ (mean < 5 # 10)%Q)))
    as Hin.
  { intros p Hp [Hq'|Hf]%elem_of_app.
    - destruct (5 <? size answers)%nat eqn:Hn;
        [apply Nat.ltb_lt in Hn | by apply elem_of_nil in Hq'].
      split; [done|].
      apply elem_of_app in Hq' as [[Hm ->]%Hif|[Hm ->]%Hif].
      + left. split; [done | by apply Qltb_lt].
      + right. split; [done | by apply Qltb_lt].
    - destruct (Hfocus _ Hf). naive_solver. }
  split; [|split].
  - intros Hle. split; intros Hp; apply Hin in Hp as [Hlt _]; auto; lia.
  - intros [Hp|Hp]; apply Hin in Hp as [Hlt _]; auto;
      (split; [done|]; intros Hnil; apply Hok; by split).
  - intros [Hh Hl].
    apply Hin in Hh as [_ [[_ Hh]|[Hh _]]]; [|discriminate Hh|by left].
    apply Hin in Hl as [_ [[Hl _]|[_ Hl]]]; [discriminate Hl| |by right].
    lra.
Qed.

Lemma quality_patterns_spec_witness :
  ∃ an,
    analyze_conversations (Extracted six_answers_meta ∅ ∅)
    = Return (Analysis an) ∧
    ("High quality conversation period"%string ∉ patterns an ∧
     "Low quality/off-topic conversation"%string ∉ patterns an).
Proof.
  eexists. split; [reflexivity|].
  refine (proj1 (quality_patterns_spec six_answers_meta ∅ ∅ _ _) _).
  - reflexivity.
  - vm_compute. lia.
Defined.

(** ** Topic counts *)

Lemma count_topic_keys topic acc :
  (count_topic topic acc).*1 =
  if bool_decide (topic ∈ acc.*1) then acc.*1 else acc.*1 ++ [topic].
Proof.
  induction acc as [|[t n] acc IH]; [done|].
  change (count_topic topic ((t, n) :: acc))
    with (if bool_decide (t = topic) then (t, n + 1) :: acc
          else (t, n) :: count_topic topic acc).
  destruct (decide (t = topic)) as [->|Hne].
  - rewrite bool_decide_eq_true_2 by done. rewrite !fmap_cons. cbn [fst].
    rewrite bool_decide_eq_true_2; [done | by left].
  - rewrite (bool_decide_eq_false_2 (t = topic)) by done.
    rewrite !fmap_cons. cbn [fst]. rewrite IH.
    destruct (decide (topic ∈ acc.*1)) as [Hin|Hin].
    + rewrite !bool_decide_eq_true_2; [done | by right | done].
    + rewrite !bool_decide_eq_false_2; [done | | done].
      intros [?|?]%elem_of_cons; congruence.
Qed.

Lemma count_topic_lookup topic acc t n :
  NoDup acc.*1 ->
  (t, n) ∈ count_topic topic acc ↔
  (t ≠ topic ∧ (t, n) ∈ acc) ∨
  (t = topic ∧
   ((∃ m, (t, m) ∈ acc ∧ n = (m + 1)) ∨ ((t ∉ acc.*1) ∧ n = 1))).
Proof.
  induction acc as [|[t0 n0] acc IH]; intros Hnd.
  - simpl. rewrite list_elem_of_singleton. split.
    + intros [= -> ->]. right. split; [done|]. right.
      split; [by intros ?%elem_of_nil | done].
    + intros [[_ ?%elem_of_nil]|[-> [(m & ?%elem_of_nil & _)|[_ ->]]]]; done.
  - apply NoDup_cons in Hnd as [Hnin Hnd]. specialize (IH Hnd).
    assert (∀ k m, (k, m) ∈ acc -> k ∈ acc.*1) as Hkeys.
    { intros k m Hin. apply list_elem_of_fmap. by exists (k, m). }
    change (count_topic topic ((t0, n0) :: acc))
      with (if bool_decide (t0 = topic) then (t0, n0 + 1) :: acc
            else (t0, n0) :: count_topic topic acc).
    rewrite fmap_cons. cbn [fst].
    destruct (decide (t0 = topic)) as [->|Ht0];
      [rewrite bool_decide_eq_true_2 by done
      |rewrite bool_decide_eq_false_2 by done];
      rewrite ?not_elem_of_cons, ?IH; repeat setoid_rewrite elem_of_cons;
      naive_solver eauto with lia.
Qed.

Lemma count_topics_flat qs :
  count_topics qs
  = fold_left (fun acc t => count_topic t acc)
              (flat_map (fun q => default [] (mq_topics q)) qs) [].
Proof.
  unfold count_topics. generalize (@nil (string * Z)).
  induction qs as [|q qs IH]; intros acc; simpl; [done|].
  by rewrite fold_left_app, IH.
Qed.

(** The counts kept while the topics [seen] are read one by one. *)
Lemma count_fold_spec (seen : list string) :
  let acc := fold_left (fun acc t => count_topic t acc) seen [] in
  NoDup acc.*1 ∧
  ∀ t n, (t, n) ∈ acc ↔
         0 < n ∧ n = Z.of_nat (length (filter (fun x => x = t) seen)).
Proof.
  induction seen as [|x seen IH] using rev_ind; simpl.
  - split; [constructor|]. intros t n. split; [by intros ?%elem_of_nil|].
    intros [? ->]. simpl in *. lia.
  - rewrite fold_left_app. simpl. destruct IH as [Hnd Hacc].
    set (acc := fold_left _ seen []) in *. split.
    + rewrite count_topic_keys. case_bool_decide as Hin; [done|].
      apply NoDup_app. split; [done|]. split; [|apply NoDup_singleton].
      intros y Hy ->%list_elem_of_singleton. done.
    + intros t n. rewrite (count_topic_lookup x acc t n Hnd).
      rewrite filter_app, length_app, filter_cons, filter_nil.
      destruct (decide (x = t)) as [->|Hne]; simpl.
      * split.
        -- intros [[? _]|[_ [(m & Hm%Hacc & ->)|[Hnot ->]]]]; [done| |].
           ++ lia.
           ++ destruct (length (filter (λ x, x = t) seen)) as [|k] eqn:Hk;
                [simpl; lia|].
              destruct Hnot. apply list_elem_of_fmap. exists (t, Z.of_nat (S k)).
              split; [done|]. apply Hacc. rewrite Hk. lia.
        -- intros [Hpos ->]. right. split; [done|].
           destruct (length (filter (λ x, x = t) seen)) as [|k] eqn:Hk.
           ++ right. split; [|simpl; lia].
              intros ((t' & m) & Heq & Hin)%list_elem_of_fmap. simpl in Heq. subst t'.
              apply Hacc in Hin. rewrite Hk in Hin. lia.
           ++ left. exists (Z.of_nat (S k)). split; [|lia].
              apply Hacc. rewrite Hk. lia.
      * rewrite Hacc. split.
        -- intros [[_ [? ->]]|[-> _]]; [|done]. lia.
        -- intros [? ?]. left. split; [congruence|]. split; lia.
Qed.

(** X28. The topic counts of an analysis: a topic is listed with count n
    exactly when it occurs n > 0 times in the topic lists of the listed
    questions, and no topic is listed twice. *)
Theorem topic_counts_spec (md : snapshot_meta)
    (questions answers : gmap string string) (an : analysis) :
  let seen :=
    flat_map (fun q => default [] (mq_topics q))
             (default [] (meta_questions md)) in
  analyze_conversations (Extracted md questions answers) = Return (Analysis an) ->
  NoDup (topics an).*1 ∧
  ∀ t n, (t, n) ∈ topics an ↔
         0 < n ∧ n = Z.of_nat (length (filter (fun x => x = t) seen)).
Proof.
  intros seen Hres.
  pose proof (analyze_extracted md questions answers) as Han. cbv zeta in Han.
  destruct (quality_patterns _ _) as [quality| |]; rewrite Han in Hres; [|done..].
  injection Hres as <-. cbn [topics]. rewrite count_topics_flat.
  apply count_fold_spec.
Qed.

Lemma topic_counts_spec_witness :
  ∃ an,
    analyze_conversations (Extracted six_answers_meta ∅ six_answer_files)
    = Return (Analysis an) ∧ NoDup (topics an).*1.
Proof.
  eexists. split; [reflexivity|].
  refine (proj1 (topic_counts_spec six_answers_meta ∅ six_answer_files _ _)).
  reflexivity.
Defined.

Lemma fold_best_spec (rest : list (string * Z)) (first : string * Z) :
  let best := fold_left (fun best kv => if best.2 <? kv.2 then kv else best)
                        rest first in
  ∃ pre post,
    first :: rest = pre ++ best :: post ∧
    Forall (fun kv => kv.2 < best.2) pre ∧
    Forall (fun kv => kv.2 <= best.2) post.
Proof.
  induction rest as [|x rest IH] using rev_ind; simpl.
  - exists [], []. by repeat constructor.
  - rewrite fold_left_app. simpl.
    destruct IH as (pre & post & Heq & Hpre & Hpost).
    set (best := fold_left _ rest first) in *.
    destruct (best.2 <? x.2) eqn:Hlt;
      [apply Z.ltb_lt in Hlt | apply Z.ltb_ge in Hlt].
    + exists (first :: rest), []. split; [done|]. split; [|constructor].
      rewrite Heq. apply Forall_app. split.
      * eapply Forall_impl; [exact Hpre|]. simpl. lia.
      * constructor; [lia|]. eapply Forall_impl; [exact Hpost|]. simpl. lia.
    + exists pre, (post ++ [x]). split.
      * rewrite app_comm_cons, Heq, <- app_assoc. done.
      * split; [done|]. apply Forall_app. split; [done|].
        by repeat constructor.
Qed.

(** X29. The focus topic: when the analysis lists topics, its last pattern
    is "Focus topic: t" where t has the largest count and, among the topics
    of that count, was counted first; when it lists none there is no focus
    pattern. *)
Theorem focus_topic_spec (md : snapshot_meta)
    (questions answers : gmap string string) (an : analysis) :
  analyze_conversations (Extracted md questions answers) = Return (Analysis an) ->
  match topics an with
  | [] => ∀ p, p ∈ patterns an ->
               p = "High quality conversation period"%string ∨
               p = "Low quality/off-topic conversation"%string
  | _ =>
      ∃ t n pre post,
        topics an = pre ++ (t, n) :: post ∧
        Forall (fun kv => kv.2 < n) pre ∧
        Forall (fun kv => kv.2 <= n) post ∧
        last (patterns an) = Some (String.append "Focus topic: " t)
  end.
Proof.
  intros Hres.
  pose proof (analyze_extracted md questions answers) as Han. cbv zeta in Han.
  destruct (quality_patterns_outcome (size answers) (default [] (meta_answers md)))
    as [(_ & _ & Hq)|(_ & Hq)]; rewrite Hq in Han; rewrite Han in Hres; [done|].
  injection Hres as <-. cbn [topics patterns].
  destruct (count_topics (default [] (meta_questions md))) as [|first rest] eqn:Ht.
  - simpl. rewrite app_nil_r. intros p Hp.
    destruct (5 <? size answers)%nat; [|by apply elem_of_nil in Hp].
    apply elem_of_app in Hp as [Hp|Hp].
    + destruct (Qltb _ _); [|by apply elem_of_nil in Hp].
      apply list_elem_of_singleton in Hp. by left.
    + destruct (Qltb _ (5 # 10)); [|by apply elem_of_nil in Hp].
      apply list_elem_of_singleton in Hp. by right.
  - destruct (fold_best_spec rest first) as (pre & post & Heq & Hpre & Hpost).
    unfold top_topic.
    set (best := fold_left _ rest first) in *.
    exists best.1, best.2, pre, post.
    split; [by rewrite Heq; destruct best|]. split; [done|]. split; [done|].
    apply last_snoc.
Qed.

Lemma focus_topic_spec_witness :
  ∃ an,
    analyze_conversations (Extracted six_answers_meta ∅ six_answer_files)
    = Return (Analysis an) ∧
    match topics an with
    | [] => ∀ p, p ∈ patterns an ->
                 p = "High quality conversation period"%string ∨
                 p = "Low quality/off-topic conversation"%string
    | _ =>
        ∃ t n pre post,
          topics an = pre ++ (t, n) :: post ∧
          Forall (fun kv => kv.2 < n) pre ∧
          Forall (fun kv => kv.2 <= n) post ∧
          last (patterns an) = Some (String.append "Focus topic: " t)
    end.
Proof.
  eexists. split; [reflexivity|].
  apply (focus_topic_spec six_answers_meta ∅ six_answer_files). reflexivity.
Defined.

(** ** File names of a snapshot *)

Lemma replace_char_chars c new s x :
  x ∈ list_ascii_of_string (replace_char c new s) ->
  (x ∈ list_ascii_of_string s ∧ x ≠ c) ∨ x ∈ list_ascii_of_string new.
Proof.
  induction s as [|d s IH]; simpl; [by intros ?%elem_of_nil|].
  destruct (Ascii.eqb d c) eqn:Hd.
  - rewrite list_ascii_of_append. intros [Hx|Hx]%elem_of_app; [by right|].
    destruct (IH Hx) as [[? ?]|?]; [left; split; [by right | done] | by right].
  - simpl. intros [->|Hx]%elem_of_cons.
    + left. split; [by left|]. intros ->. by rewrite Ascii.eqb_refl in Hd.
    + destruct (IH Hx) as [[? ?]|?]; [left; split; [by right | done] | by right].
Qed.

(** X30. The time stamp used in the file names of a snapshot holds no
    colon and no letter Z, whatever the time stamp of the entry; every
    other character of it comes from the time stamp or is the "-" that
    replaces a colon. *)
Theorem safe_ts_has_no_colon (timestamp : string) (x : ascii) :
  x ∈ list_ascii_of_string (safe_ts timestamp) ->
  x ≠ ":"%char ∧ x ≠ "Z"%char ∧
  (x ∈ list_ascii_of_string timestamp ∨ x = "-"%char).
Proof.
  unfold safe_ts. intros Hx.
  apply replace_char_chars in Hx as [[Hx HZ]|Hx]; [|by apply elem_of_nil in Hx].
  apply replace_char_chars in Hx as [[Hx Hc]|Hx].
  - split; [done|]. split; [done | by left].
  - apply list_elem_of_singleton in Hx as ->.
    split; [done|]. split; [done | by right].
Qed.

Lemma safe_ts_has_no_colon_witness :
  "-"%char ≠ ":"%char ∧ "-"%char ≠ "Z"%char ∧
  ("-"%char ∈ list_ascii_of_string "2024-01-01T10:20:30Z" ∨ "-"%char = "-"%char).
Proof.
  apply (safe_ts_has_no_colon "2024-01-01T10:20:30Z").
  vm_compute. by repeat constructor.
Defined.

(** ** Sample runs of the window and the preview *)

Lemma recent_context_is_a_suffix_witness :
  ∃ l, get_recent_context numeric_store "s1" 2 = map recent_pair_of l ∧
       length l = 2%nat.
Proof.
  pose proof (recent_context_is_a_suffix numeric_store "s1" 2) as Hsuffix.
  change (find_session "s1" (sessions numeric_store))
    with (Some {| session_id := "s1"; last_updated := "";
                  qa_sequence :=
                    [numeric_entry 1 100 "database design" ["database"; "design"]
                       (Some "use indexes") (9 # 10);
                     numeric_entry 2 200 "database tuning" ["database"; "tuning"]
                       (Some "not sure") (2 # 10);
                     numeric_entry 3 300 "database backup" ["database"; "backup"]
                       None 0] |}) in Hsuffix.
  destruct Hsuffix as (l & Hl & _ & Hlen & _).
  exists l. split; [exact Hl|]. rewrite Hlen by lia. reflexivity.
Defined.

Lemma answer_preview_bounded_witness :
  ∃ answer preview,
    qa_a (numeric_entry 1 100 "database design" ["database"; "design"]
            (Some "use indexes") (9 # 10)) = Some answer ∧
    (String.length preview <= 203)%nat ∧ preview = answer.
Proof.
  assert (∀ answer,
            qa_a (numeric_entry 1 100 "database design" ["database"; "design"]
                    (Some "use indexes") (9 # 10)) = Some answer ->
            ascii_text answer = true) as Hascii.
  { intros answer [= <-]. reflexivity. }
  pose proof (answer_preview_bounded
                (numeric_entry 1 100 "database design" ["database"; "design"]
                   (Some "use indexes") (9 # 10)) Hascii) as Hprev.
  change (Text.truthy (qa_a (numeric_entry 1 100 "database design"
                               ["database"; "design"] (Some "use indexes")
                               (9 # 10)))) with true in Hprev.
  destruct Hprev as (answer & preview & Ha & _ & Hlen & Hshort & _).
  exists answer, preview. split; [exact Ha|]. split; [exact Hlen|].
  apply Hshort. injection Ha as <-. vm_compute. lia.
Defined.

Lemma score_full_marks_witness :
  (score_significance (H:=first_occurrence_order)
     "how to optimize the database architecture for faster query response"
     (Some example_a) == 1)%Q.
Proof.
  apply (@score_full_marks first_occurrence_order
           "how to optimize the database architecture for faster query response"
           example_a); [reflexivity | reflexivity |].
  split; [apply Nat.leb_le; vm_compute; reflexivity|].
  split; [apply Nat.leb_le; vm_compute; reflexivity|].
  repeat split; vm_compute; reflexivity.
Defined.
